(** * Position risk control engine: sizing, signal gate, exit trackers

    A shallow embedding of the four risk modules of the trading system
    ([risk/position_sizer.py], [risk/risk_manager.py],
    [risk/stop_loss_manager.py], [risk/take_profit_manager.py]).

    Numbers.  The Python code computes on floats.  The four modules are
    embedded with every number an exact rational ([Qc], canonical
    fractions, so equality is Leibniz equality): the statements proved on
    them are about the arithmetic the code writes down, carried out
    exactly.  The take-profit tracker is embedded a second time on binary64
    floats ([TakeProfitFloat]), with the rounding and the overflow of the
    code; its quantity accounting and its ratio normalization are stated
    there, where the exact equations fail.

    Exceptions.  A float division by zero raises [ZeroDivisionError] in
    Python; the divisions of the code are modelled by [py_div], which returns
    in the [result] monad.  Divisions the code guards itself are still
    written with [py_div] and the guard, as in the source.

    Dictionaries.  A key read with [d['k']] is a field of a record; a key
    read with [d.get('k', default)] is an optional field.  The per-symbol
    dictionaries of the two trackers are [gmap string _].

    Clock and log.  [time.time()] is an argument of the operations that read
    it.  Logger calls are dropped, except where building the message divides. *)

From Stdlib Require Import QArith Qcanon Ascii String.
From Stdlib Require PrimFloat FloatOps FloatAxioms SpecFloat.
From stdpp Require Import gmap strings list numbers.

Open Scope Qc_scope.

(** ** Python values and exceptions *)

Inductive exn : Type :=
  | ZeroDivisionError.

Inductive result (A : Type) : Type :=
  | Ok (a : A)
  | Raise (e : exn).

Arguments Ok {A} a.
Arguments Raise {A} e.

(** Sequencing: the first exception raised ends the computation.  The
    notation [x ← c; k] is stdpp's for [mbind]. *)
#[global] Instance result_bind : MBind result :=
  fun A B (k : A -> result B) (c : result A) =>
    match c with
    | Ok a => k a
    | Raise e => Raise e
    end.

#[global] Instance result_ret : MRet result := fun A (a : A) => Ok a.

Definition returns {A : Type} (c : result A) : Prop :=
  match c with
  | Ok _ => True
  | Raise _ => False
  end.

(** [x / y] on floats. *)
Definition py_div (x y : Qc) : result Qc :=
  if decide (y = 0) then Raise ZeroDivisionError else Ok (x / y).

(** [abs(x)]. *)
Definition py_abs (x : Qc) : Qc :=
  if decide (x < 0) then - x else x.

(** [min(x, y)] and [max(x, y)]: Python keeps the first argument unless the
    second is strictly better. *)
Definition py_min (x y : Qc) : Qc :=
  if decide (y < x) then y else x.

Definition py_max (x y : Qc) : Qc :=
  if decide (x < y) then y else x.

Definition py_min3 (x y z : Qc) : Qc := py_min (py_min x y) z.

(** [sum(l)]. *)
Definition py_sum (l : list Qc) : Qc := foldr Qcplus 0 l.

(** [a or b] on an optional number: [None] and [0] are falsy. *)
Definition py_or (a b : option Qc) : option Qc :=
  match a with
  | Some x => if decide (x = 0) then b else Some x
  | None => b
  end.

(** [a or b] on an optional string: [None] and the empty string are falsy. *)
Definition py_or_str (a b : option string) : option string :=
  match a with
  | Some x => if decide (x = "") then b else Some x
  | None => b
  end.

(** [s.lower()] on ASCII text. *)
Definition ascii_lower (c : ascii) : ascii :=
  let n := nat_of_ascii c in
  if (65 <=? n)%nat && (n <=? 90)%nat then ascii_of_nat (n + 32) else c.

Fixpoint py_lower (s : string) : string :=
  match s with
  | EmptyString => EmptyString
  | String c rest => String (ascii_lower c) (py_lower rest)
  end.

(** A list length as a number. *)
Definition of_nat (n : nat) : Qc := Q2Qc (inject_Z (Z.of_nat n)).

(** [d.get(k, dflt)]. *)
Definition get_or {A : Type} (o : option A) (dflt : A) : A :=
  match o with
  | Some a => a
  | None => dflt
  end.

(** The trading signal handed to the gate and to the sizer: the four keys
    the code reads with [signal['...']]. *)
Record signal : Type := {
  direction : string;
  entry_price : Qc;
  stop_loss : Qc;
  strength : string
}.

(** ** PositionSizer ([risk/position_sizer.py]) *)

Module PositionSizer.

Record config : Type := {
  cfg_base_position_size : option Qc;
  cfg_max_position_size : option Qc;
  cfg_account_risk_pct : option Qc
}.

Record t : Type := {
  base_position_pct : Qc;
  max_position_pct : Qc;
  account_risk_pct : Qc
}.

(** [__init__] *)
Definition init (c : config) : t := {|
  base_position_pct := get_or (cfg_base_position_size c) (Q2Qc 0.10);
  max_position_pct := get_or (cfg_max_position_size c) (Q2Qc 0.30);
  account_risk_pct := get_or (cfg_account_risk_pct c) (Q2Qc 0.02)
|}.

Record volatility : Type := {
  atr : option Qc;
  price : option Qc
}.

Inductive limiting_factor : Type :=
  | LimitNone
  | RiskLimit
  | MaxPositionLimit
  | LimitUnknown.

Record breakdown : Type := {
  base_multiplier : Qc;
  volatility_multiplier : Qc;
  signal_multiplier : Qc;
  risk_multiplier : Qc;
  combined_multiplier : Qc;
  stop_distance_pct : Qc;
  max_position_limit : Qc;
  max_risk_limit : Qc;
  limits_adjusted_size : Qc;
  final_size : Qc;
  limiting : limiting_factor
}.

Record sizing_result : Type := {
  position_value : Qc;
  quantity : Qc;
  base_size : Qc;
  adjusted_size : Qc;
  risk_amount : Qc;
  details : breakdown
}.

(** [_calculate_volatility_multiplier] *)
Definition _calculate_volatility_multiplier (v : volatility) : result Qc :=
  let a := get_or (atr v) 0 in
  let p := get_or (price v) 1 in
  atr_normalized ← (if decide (0 < p) then py_div a p else Ok 0);
  if decide (atr_normalized < Q2Qc 0.01) then Ok (Q2Qc 1.5)
  else if decide (atr_normalized < Q2Qc 0.03) then Ok (Q2Qc 1.0)
  else Ok (Q2Qc 0.5).

(** [_calculate_signal_multiplier] *)
Definition _calculate_signal_multiplier (s : string) : Qc :=
  if decide (s = "strong") then Q2Qc 1.2
  else if decide (s = "medium") then Q2Qc 1.0
  else if decide (s = "weak") then Q2Qc 0.7
  else Q2Qc 1.0.

(** [_get_limiting_factor] *)
Definition _get_limiting_factor (adjusted max_risk max_position final : Qc)
  : limiting_factor :=
  if decide (final = adjusted) then LimitNone
  else if decide (final = max_risk) then RiskLimit
  else if decide (final = max_position) then MaxPositionLimit
  else LimitUnknown.

(** [calculate_position_size].  [market_data] is not read by the source
    and is left out.  The two last divisions are those of the log message,
    which Python evaluates before the result is returned. *)
Definition calculate_position_size (self : t) (account_equity : Qc)
    (sig : signal) (vol : volatility) (risk_mult : Qc) : result sizing_result :=
  let base := account_equity * base_position_pct self in
  vol_mult ← _calculate_volatility_multiplier vol;
  let signal_mult := _calculate_signal_multiplier (strength sig) in
  let adjusted := base * vol_mult * signal_mult * risk_mult in
  let entry := entry_price sig in
  let stop := stop_loss sig in
  stop_distance ← py_div (py_abs (entry - stop)) entry;
  let max_risk_amount := account_equity * account_risk_pct self in
  max_risk_size ← (if decide (0 < stop_distance)
                    then py_div max_risk_amount stop_distance
                    else Ok adjusted);
  let max_position_size := account_equity * max_position_pct self in
  let final := py_min3 adjusted max_risk_size max_position_size in
  qty ← py_div final entry;
  let risk := final * stop_distance in
  let bd := {|
    base_multiplier := Q2Qc 1.0;
    volatility_multiplier := vol_mult;
    signal_multiplier := signal_mult;
    risk_multiplier := risk_mult;
    combined_multiplier := vol_mult * signal_mult * risk_mult;
    stop_distance_pct := stop_distance;
    max_position_limit := max_position_size;
    max_risk_limit := max_risk_size;
    limits_adjusted_size := adjusted;
    final_size := final;
    limiting := _get_limiting_factor adjusted max_risk_size max_position_size final
  |} in
  _ ← py_div final account_equity;
  _ ← py_div risk account_equity;
  Ok {|
    position_value := final;
    quantity := qty;
    base_size := base;
    adjusted_size := adjusted;
    risk_amount := risk;
    details := bd
  |}.

(** [validate_position]: [None] when valid, otherwise which bound failed. *)
Inductive position_error : Type :=
  | ExceedsMaximum (pct : Qc)
  | TooSmall (pct : Qc).

Definition validate_position (self : t) (position_value account_equity : Qc)
  : result (option position_error) :=
  position_pct ← (if decide (0 < account_equity)
                   then py_div position_value account_equity
                   else Ok 0);
  if decide (max_position_pct self < position_pct)
  then Ok (Some (ExceedsMaximum position_pct))
  else if decide (position_pct < Q2Qc 0.01)
  then Ok (Some (TooSmall position_pct))
  else Ok None.

(** Scenario values and the predicates the properties are stated with. *)

(** The sizer of the scenario: 10% base, 30% cap, 2% account risk. *)
Definition scenario_sizer : t :=
  init {| cfg_base_position_size := Some (Q2Qc 0.10);
          cfg_max_position_size := Some (Q2Qc 0.30);
          cfg_account_risk_pct := Some (Q2Qc 0.02) |}.

Definition scenario_signal : signal :=
  {| direction := "buy"; entry_price := Q2Qc 100; stop_loss := Q2Qc 98;
     strength := "strong" |}.

Definition scenario_volatility : volatility :=
  {| atr := Some (Q2Qc 0.5); price := Some (Q2Qc 100) |}.

Definition zero_entry_signal : signal :=
  {| direction := "buy"; entry_price := Q2Qc 0; stop_loss := Q2Qc 0;
     strength := "strong" |}.

End PositionSizer.

(** ** RiskManager ([risk/risk_manager.py]) *)

Module RiskManager.

(** The texts the gate builds with f-strings, as data: one constructor per
    format string, carrying the numbers it prints. *)
#[warnings="-register-all"]
Inductive msg : Type :=
  | Text (s : string)
  | TradingPaused (why : option msg)
  | SentimentNegativeReduce (score : Qc)
  | CriticalNegativeSentiment (score : Qc)
  | NegativeSentimentVeto (score : Qc)
  | FudRatio (fud : Qc)
  | HighFudRatio (fud : Qc)
  | SentimentCheckPassed
  | NoPositions
  | CriticalLiquidationRisk (rate : Qc)
  | ImmediateActionRequired
  | WarningRiskRate (rate : Qc)
  | LiquidationRiskAcceptable
  | HighRiskRateReduce (rate : Qc)
  | MaxDrawdownReached (dd : Qc)
  | TradingPausedWarning
  | HighDrawdown (dd : Qc)
  | DrawdownAcceptable
  | InsufficientBalance (available pct : Qc)
  | BalanceSufficient
  | AllRiskChecksPassed.

Record sentiment_cfg : Type := {
  sf_enabled : option bool;
  sf_veto_threshold : option Qc;
  sf_critical_threshold : option Qc
}.

Record liquidation_cfg : Type := {
  lm_warning_threshold : option Qc;
  lm_critical_threshold : option Qc
}.

Record drawdown_cfg : Type := {
  dd_max_drawdown : option Qc;
  dd_pause_threshold : option Qc
}.

Record config : Type := {
  sentiment_filter : option sentiment_cfg;
  liquidation_monitor : option liquidation_cfg;
  drawdown : option drawdown_cfg
}.

(** [config.get(section, {}).get(key, dflt)] *)
Definition get2 {S A : Type} (sec : option S) (key : S -> option A) (dflt : A) : A :=
  match sec with
  | Some s => get_or (key s) dflt
  | None => dflt
  end.

Record sentiment_reading : Type := {
  score : option Qc;
  fud_ratio : option Qc
}.

(** Truth value of a sentiment dict: an empty dict is falsy.  A reading
    carries the two keys the code reads and no other. *)
Definition dict_truthy (o : option sentiment_reading) : bool :=
  match o with
  | Some r => bool_decide (is_Some (score r)) || bool_decide (is_Some (fud_ratio r))
  | None => false
  end.

Record account_info : Type := {
  total : option Qc;
  available : option Qc;
  used : option Qc;
  unrealized_pnl : option Qc
}.

Record open_position : Type := {
  op_symbol : string;
  op_qty : Qc
}.

Record t : Type := {
  cfg : config;
  sentiment_enabled : bool;
  veto_threshold : Qc;
  critical_threshold : Qc;
  is_paused : bool;
  pause_reason : option msg;
  daily_loss : Qc;
  max_equity : Qc;
  last_sentiment_check : Qc;
  cached_sentiment : option sentiment_reading
}.

(** [__init__] *)
Definition init (c : config) : t := {|
  cfg := c;
  sentiment_enabled := get2 (sentiment_filter c) sf_enabled true;
  veto_threshold := get2 (sentiment_filter c) sf_veto_threshold (Q2Qc (-0.4));
  critical_threshold := get2 (sentiment_filter c) sf_critical_threshold (Q2Qc (-0.6));
  is_paused := false;
  pause_reason := None;
  daily_loss := 0;
  max_equity := 0;
  last_sentiment_check := 0;
  cached_sentiment := None
|}.

Definition set_cache (self : t) (c : option sentiment_reading) (now : Qc) : t := {|
  cfg := cfg self;
  sentiment_enabled := sentiment_enabled self;
  veto_threshold := veto_threshold self;
  critical_threshold := critical_threshold self;
  is_paused := is_paused self;
  pause_reason := pause_reason self;
  daily_loss := daily_loss self;
  max_equity := max_equity self;
  last_sentiment_check := now;
  cached_sentiment := c
|}.

Definition set_max_equity (self : t) (e : Qc) : t := {|
  cfg := cfg self;
  sentiment_enabled := sentiment_enabled self;
  veto_threshold := veto_threshold self;
  critical_threshold := critical_threshold self;
  is_paused := is_paused self;
  pause_reason := pause_reason self;
  daily_loss := daily_loss self;
  max_equity := e;
  last_sentiment_check := last_sentiment_check self;
  cached_sentiment := cached_sentiment self
|}.

Definition set_paused (self : t) (p : bool) (why : option msg) : t := {|
  cfg := cfg self;
  sentiment_enabled := sentiment_enabled self;
  veto_threshold := veto_threshold self;
  critical_threshold := critical_threshold self;
  is_paused := p;
  pause_reason := why;
  daily_loss := daily_loss self;
  max_equity := max_equity self;
  last_sentiment_check := last_sentiment_check self;
  cached_sentiment := cached_sentiment self
|}.

Record decision : Type := {
  approved : bool;
  reason : msg;
  position_size_multiplier : Qc;
  warnings : list msg
}.

Record sentiment_result : Type := {
  s_approved : bool;
  s_reason : msg;
  s_sentiment_score : Qc;
  s_warnings : list msg
}.

Record liquidation_result : Type := {
  l_approved : bool;
  l_reason : msg;
  l_risk_rate : Qc;
  l_warnings : list msg
}.

Record drawdown_result : Type := {
  d_approved : bool;
  d_reason : msg;
  d_drawdown : Qc;
  d_warnings : list msg
}.

Record balance_result : Type := {
  b_approved : bool;
  b_reason : msg
}.

(** [_check_sentiment]: the reading supplied, else the cache if younger
    than 300 seconds, else the neutral default, which is cached. *)
Definition _check_sentiment (self : t) (now : Qc)
    (sentiment_data : option sentiment_reading) : sentiment_result * t :=
  let '(sentiment_score, fud, self) :=
    if dict_truthy sentiment_data then
      (get_or (sentiment_data ≫= score) 0, get_or (sentiment_data ≫= fud_ratio) 0, self)
    else if dict_truthy (cached_sentiment self)
              && bool_decide (now - last_sentiment_check self < Q2Qc 300) then
      (get_or (cached_sentiment self ≫= score) 0,
       get_or (cached_sentiment self ≫= fud_ratio) 0, self)
    else
      (Q2Qc 0.0, Q2Qc 0.0,
       set_cache self (Some {| score := Some (Q2Qc 0.0); fud_ratio := Some (Q2Qc 0.0) |}) now) in
  let warnings : list msg := [] in
  if decide (sentiment_score <= critical_threshold self) then
    ({| s_approved := false; s_reason := CriticalNegativeSentiment sentiment_score;
        s_sentiment_score := sentiment_score; s_warnings := [FudRatio fud] |}, self)
  else if decide (sentiment_score <= veto_threshold self) then
    ({| s_approved := false; s_reason := NegativeSentimentVeto sentiment_score;
        s_sentiment_score := sentiment_score; s_warnings := [FudRatio fud] |}, self)
  else
    let warnings := if decide (Q2Qc 0.30 < fud) then warnings ++ [HighFudRatio fud]
                    else warnings in
    ({| s_approved := true; s_reason := SentimentCheckPassed;
        s_sentiment_score := sentiment_score; s_warnings := warnings |}, self).

(** [_check_liquidation_risk] *)
Definition _check_liquidation_risk (self : t) (acct : account_info)
    (positions : option (list open_position)) : result liquidation_result :=
  let warnings : list msg := [] in
  if bool_decide (positions = None) || bool_decide (length (get_or positions []) = 0%nat) then
    Ok {| l_approved := true; l_reason := NoPositions; l_risk_rate := Q2Qc 0.0;
          l_warnings := [] |}
  else
    let total_equity := get_or (total acct) 0 in
    let used_margin := get_or (used acct) 0 in
    risk_rate ← (if decide (0 < total_equity) then py_div used_margin total_equity
                 else Ok (Q2Qc 0.0));
    if decide (get2 (liquidation_monitor (cfg self)) lm_critical_threshold (Q2Qc 0.50)
               <= risk_rate) then
      Ok {| l_approved := false; l_reason := CriticalLiquidationRisk risk_rate;
            l_risk_rate := risk_rate; l_warnings := [ImmediateActionRequired] |}
    else
      let warnings :=
        if decide (get2 (liquidation_monitor (cfg self)) lm_warning_threshold (Q2Qc 0.20)
                   <= risk_rate)
        then warnings ++ [WarningRiskRate risk_rate] else warnings in
      Ok {| l_approved := true; l_reason := LiquidationRiskAcceptable;
            l_risk_rate := risk_rate; l_warnings := warnings |}.

(** [_check_drawdown]: raises the high-water mark, then pauses trading when
    the drawdown from it reaches [max_drawdown]. *)
Definition _check_drawdown (self : t) (acct : account_info)
  : result (drawdown_result * t) :=
  let warnings : list msg := [] in
  let total_equity := get_or (total acct) 0 in
  let self := if decide (max_equity self < total_equity)
              then set_max_equity self total_equity else self in
  dd ← (if decide (0 < max_equity self)
        then py_div (max_equity self - total_equity) (max_equity self)
        else Ok (Q2Qc 0.0));
  let max_dd := get2 (drawdown (cfg self)) dd_max_drawdown (Q2Qc 0.15) in
  let pause_threshold := get2 (drawdown (cfg self)) dd_pause_threshold (Q2Qc 0.10) in
  if decide (max_dd <= dd) then
    let self := set_paused self true (Some (MaxDrawdownReached dd)) in
    Ok ({| d_approved := false; d_reason := MaxDrawdownReached dd; d_drawdown := dd;
           d_warnings := [TradingPausedWarning] |}, self)
  else
    let warnings := if decide (pause_threshold <= dd) then warnings ++ [HighDrawdown dd]
                    else warnings in
    Ok ({| d_approved := true; d_reason := DrawdownAcceptable; d_drawdown := dd;
           d_warnings := warnings |}, self).

(** [_check_account_balance].  The second test only logs; its message
    divides, under the same guard. *)
Definition _check_account_balance (acct : account_info) : result balance_result :=
  let avail := get_or (available acct) 0 in
  let tot := get_or (total acct) 0 in
  if bool_decide (0 < tot) && bool_decide (avail < tot * Q2Qc 0.10) then
    pct ← py_div avail tot;
    Ok {| b_approved := false; b_reason := InsufficientBalance avail pct |}
  else
    _ ← (if bool_decide (0 < tot) && bool_decide (avail < tot * Q2Qc 0.20)
         then py_div avail tot else Ok 0);
    Ok {| b_approved := true; b_reason := BalanceSufficient |}.

Definition rejected (why : msg) (ws : list msg) : decision :=
  {| approved := false; reason := why; position_size_multiplier := Q2Qc 0.0;
     warnings := ws |}.

(** [validate_signal], from the liquidation gate on (lines 109-158): the
    part every path that gets past the sentiment gate runs. *)
Definition gates_after_sentiment (self : t) (acct : account_info)
    (positions : option (list open_position))
    (position_multiplier : Qc) (warnings : list msg) : result (decision * t) :=
  liquidation_result ← _check_liquidation_risk self acct positions;
  if negb (l_approved liquidation_result) then
    Ok (rejected (l_reason liquidation_result) (l_warnings liquidation_result), self)
  else
    let warnings := warnings ++ l_warnings liquidation_result in
    let risk_rate := l_risk_rate liquidation_result in
    let '(position_multiplier, warnings) :=
      if decide (Q2Qc 0.10 < risk_rate)
      then (position_multiplier * Q2Qc 0.5, warnings ++ [HighRiskRateReduce risk_rate])
      else (position_multiplier, warnings) in
    '(drawdown_result, self) ← _check_drawdown self acct;
    if negb (d_approved drawdown_result) then
      Ok (rejected (d_reason drawdown_result) (d_warnings drawdown_result), self)
    else
      let warnings := warnings ++ d_warnings drawdown_result in
      account_result ← _check_account_balance acct;
      if negb (b_approved account_result) then
        Ok (rejected (b_reason account_result) warnings, self)
      else
        Ok ({| approved := true; reason := AllRiskChecksPassed;
               position_size_multiplier := position_multiplier;
               warnings := warnings |}, self).

(** [validate_signal] *)
Definition validate_signal (self : t) (now : Qc) (sig : signal) (acct : account_info)
    (positions : option (list open_position))
    (sentiment_data : option sentiment_reading) : result (decision * t) :=
  let warnings : list msg := [] in
  let position_multiplier := Q2Qc 1.0 in
  if is_paused self then
    Ok (rejected (TradingPaused (pause_reason self)) warnings, self)
  else if sentiment_enabled self && bool_decide (direction sig = "buy") then
    let '(sentiment_result, self) := _check_sentiment self now sentiment_data in
    if negb (s_approved sentiment_result) then
      Ok (rejected (s_reason sentiment_result) (s_warnings sentiment_result), self)
    else if decide (s_sentiment_score sentiment_result < Q2Qc (-0.2)) then
      gates_after_sentiment self acct positions (position_multiplier * Q2Qc 0.7)
        (warnings ++ [SentimentNegativeReduce (s_sentiment_score sentiment_result)])
    else
      gates_after_sentiment self acct positions position_multiplier warnings
  else
    gates_after_sentiment self acct positions position_multiplier warnings.

(** [pause_trading], [resume_trading], [reset_max_equity] *)
Definition pause_trading (self : t) (why : string) : t :=
  set_paused self true (Some (Text why)).

Definition resume_trading (self : t) : t := set_paused self false None.

Definition reset_max_equity (self : t) (equity : Qc) : t := set_max_equity self equity.

(** One [validate_signal] call with all its arguments, and a run of calls
    on the same manager. *)
Record call : Type := {
  c_now : Qc;
  c_signal : signal;
  c_account : account_info;
  c_positions : option (list open_position);
  c_sentiment : option sentiment_reading
}.

Definition evaluate (self : t) (c : call) : result (decision * t) :=
  validate_signal self (c_now c) (c_signal c) (c_account c) (c_positions c) (c_sentiment c).

Fixpoint evaluate_all (self : t) (calls : list call) : result (list decision * t) :=
  match calls with
  | [] => Ok ([], self)
  | c :: rest =>
      '(d, self) ← evaluate self c;
      '(ds, self) ← evaluate_all self rest;
      Ok (d :: ds, self)
  end.

(** Scenario values and the predicates the properties are stated with. *)

(** The configured [max_drawdown]. *)
Definition max_drawdown_of (self : t) : Qc :=
  get2 (drawdown (cfg self)) dd_max_drawdown (Q2Qc 0.15).

Definition is_rejection (d : decision) : Prop :=
  approved d = false /\ position_size_multiplier d = Q2Qc 0.0.

(** Scenario 5: the high-water mark stands at 10000 and the account now
    totals 8400, a drawdown of 16% against a limit of 15%. *)
Definition scenario_manager : t :=
  reset_max_equity
    (init {| sentiment_filter := None; liquidation_monitor := None;
             drawdown := Some {| dd_max_drawdown := Some (Q2Qc 0.15);
                                 dd_pause_threshold := Some (Q2Qc 0.10) |} |})
    (Q2Qc 10000).

Definition scenario_call : call := {|
  c_now := Q2Qc 0;
  c_signal := {| direction := "sell"; entry_price := Q2Qc 100; stop_loss := Q2Qc 102;
                 strength := "strong" |};
  c_account := {| total := Some (Q2Qc 8400); available := Some (Q2Qc 8400);
                  used := Some (Q2Qc 0); unrealized_pnl := Some (Q2Qc 0) |};
  c_positions := None;
  c_sentiment := None
|}.

Definition healthy_call : call := {|
  c_now := Q2Qc 60;
  c_signal := {| direction := "buy"; entry_price := Q2Qc 100; stop_loss := Q2Qc 98;
                 strength := "strong" |};
  c_account := {| total := Some (Q2Qc 20000); available := Some (Q2Qc 20000);
                  used := Some (Q2Qc 0); unrealized_pnl := Some (Q2Qc 0) |};
  c_positions := None;
  c_sentiment := Some {| score := Some (Q2Qc 0.5); fud_ratio := Some (Q2Qc 0.0) |}
|}.

(** A buy signal on a healthy account, with a neutral score and half of
    the news flagged as FUD. *)
Definition fud_manager : t :=
  init {| sentiment_filter := None; liquidation_monitor := None; drawdown := None |}.

Definition fud_reading : option sentiment_reading :=
  Some {| score := Some (Q2Qc 0.0); fud_ratio := Some (Q2Qc 0.5) |}.

Definition fud_signal : signal :=
  {| direction := "buy"; entry_price := Q2Qc 100; stop_loss := Q2Qc 98;
     strength := "strong" |}.

Definition fud_account : account_info :=
  {| total := Some (Q2Qc 10000); available := Some (Q2Qc 5000);
     used := Some (Q2Qc 0); unrealized_pnl := Some (Q2Qc 0) |}.

Definition no_fud_warning (ws : list msg) : Prop :=
  forall f, HighFudRatio f ∉ ws.

(** The calls a client makes on one gate, and the gate after a run of
    them.  A call that raises leaves the gate as it was. *)
Inductive op : Type :=
  | Validate (c : call)
  | Pause (why : string)
  | Resume
  | ResetMaxEquity (equity : Qc).

Definition apply_op (self : t) (o : op) : t :=
  match o with
  | Validate c =>
      match evaluate self c with
      | Ok (_, self') => self'
      | Raise _ => self
      end
  | Pause why => pause_trading self why
  | Resume => resume_trading self
  | ResetMaxEquity equity => reset_max_equity self equity
  end.

Definition run (self : t) (ops : list op) : t := foldl apply_op self ops.

(** The first step of [_check_drawdown] (lines 285-289): the high-water
    mark after it has seen the account. *)
Definition high_water (self : t) (acct : account_info) : t :=
  if decide (max_equity self < get_or (total acct) 0)
  then set_max_equity self (get_or (total acct) 0) else self.

(** The drawdown [_check_drawdown] measures (lines 291-295), where the
    guard lets the division through. *)
Definition drawdown_of (self : t) (acct : account_info) : Qc :=
  let top := max_equity (high_water self acct) in
  if decide (0 < top) then (top - get_or (total acct) 0) / top else Q2Qc 0.0.

(** The reading [_check_sentiment] caches when it has nothing to go by. *)
Definition neutral_reading : sentiment_reading :=
  {| score := Some (Q2Qc 0.0); fud_ratio := Some (Q2Qc 0.0) |}.

(** An account whose [total] is 0, and a sell signal. *)
Definition empty_account : account_info :=
  {| total := Some 0; available := None; used := None; unrealized_pnl := None |}.

Definition sell_signal : signal :=
  {| direction := "sell"; entry_price := Q2Qc 100; stop_loss := Q2Qc 102;
     strength := "medium" |}.

End RiskManager.

(** ** StopLossManager ([risk/stop_loss_manager.py]) *)

Module StopLossManager.

Record config : Type := {
  cfg_default_pct : option Qc;
  cfg_breakout_pct : option Qc;
  cfg_trailing_enabled : option bool;
  cfg_trailing_activation : option Qc;
  cfg_trailing_distance : option Qc
}.

(** The keys of [position] that the tracker reads. *)
Record position : Type := {
  pos_side : string;
  pos_entry_price : Qc
}.

Record stop_info : Type := {
  fixed_stop : Qc;
  trailing_stop : Qc;
  trailing_activated : bool;
  highest_price : Qc;
  lowest_price : Qc;
  entry_price : Qc;
  side : string;
  stop_pct : Qc
}.

Record t : Type := {
  default_stop_pct : Qc;
  breakout_stop_pct : Qc;
  trailing_enabled : bool;
  trailing_activation_pct : Qc;
  trailing_distance_pct : Qc;
  position_stops : gmap string stop_info
}.

(** [__init__] *)
Definition init (c : config) : t := {|
  default_stop_pct := get_or (cfg_default_pct c) (Q2Qc 0.02);
  breakout_stop_pct := get_or (cfg_breakout_pct c) (Q2Qc 0.03);
  trailing_enabled := get_or (cfg_trailing_enabled c) true;
  trailing_activation_pct := get_or (cfg_trailing_activation c) (Q2Qc 0.01);
  trailing_distance_pct := get_or (cfg_trailing_distance c) (Q2Qc 0.01);
  position_stops := ∅
|}.

Definition set_stops (self : t) (m : gmap string stop_info) : t := {|
  default_stop_pct := default_stop_pct self;
  breakout_stop_pct := breakout_stop_pct self;
  trailing_enabled := trailing_enabled self;
  trailing_activation_pct := trailing_activation_pct self;
  trailing_distance_pct := trailing_distance_pct self;
  position_stops := m
|}.

(** [initialize_stop_loss] *)
Definition initialize_stop_loss (self : t) (symbol : string) (pos : position)
    (strategy : string) : stop_info * t :=
  let sd := pos_side pos in
  let entry := pos_entry_price pos in
  let pct := if decide (strategy = "Breakout") then breakout_stop_pct self
             else default_stop_pct self in
  let fixed := if decide (sd = "buy") then entry * (1 - pct) else entry * (1 + pct) in
  let info := {|
    fixed_stop := fixed;
    trailing_stop := fixed;
    trailing_activated := false;
    highest_price := entry;
    lowest_price := entry;
    entry_price := entry;
    side := sd;
    stop_pct := pct
  |} in
  (info, set_stops self (<[symbol := info]> (position_stops self))).

Inductive stop_type : Type :=
  | Fixed
  | Trailing.

(** The dict [update_stop_loss] returns; a key it leaves out is [None]. *)
Record update_result : Type := {
  stop_triggered : bool;
  stop_price : option Qc;
  stop_kind : option stop_type;
  info : option stop_info;
  current_price : option Qc;
  pnl_pct : option Qc
}.

Definition set_activated (si : stop_info) : stop_info := {|
  fixed_stop := fixed_stop si;
  trailing_stop := trailing_stop si;
  trailing_activated := true;
  highest_price := highest_price si;
  lowest_price := lowest_price si;
  entry_price := entry_price si;
  side := side si;
  stop_pct := stop_pct si
|}.

Definition set_highest (si : stop_info) (p stop : Qc) : stop_info := {|
  fixed_stop := fixed_stop si;
  trailing_stop := stop;
  trailing_activated := trailing_activated si;
  highest_price := p;
  lowest_price := lowest_price si;
  entry_price := entry_price si;
  side := side si;
  stop_pct := stop_pct si
|}.

Definition set_lowest (si : stop_info) (p stop : Qc) : stop_info := {|
  fixed_stop := fixed_stop si;
  trailing_stop := stop;
  trailing_activated := trailing_activated si;
  highest_price := highest_price si;
  lowest_price := p;
  entry_price := entry_price si;
  side := side si;
  stop_pct := stop_pct si
|}.

(** Steps 1 and 2 of [update_stop_loss] (lines 131-162) on the tracked dict. *)
Definition track (self : t) (si : stop_info) (price pnl : Qc) : stop_info :=
  let si :=
    if trailing_enabled self && negb (trailing_activated si) then
      if decide (trailing_activation_pct self <= pnl) then set_activated si else si
    else si in
  if trailing_activated si then
    if decide (side si = "buy") then
      if decide (highest_price si < price)
      then set_highest si price (price * (1 - trailing_distance_pct self))
      else si
    else
      if decide (price < lowest_price si)
      then set_lowest si price (price * (1 + trailing_distance_pct self))
      else si
  else si.

(** Step 3 of [update_stop_loss] (lines 164-217): the trigger test. *)
Definition trigger (si : stop_info) (price pnl : Qc) : update_result :=
  let hit (stop : Qc) (k : stop_type) := {|
    stop_triggered := true; stop_price := Some stop; stop_kind := Some k;
    info := Some si; current_price := Some price; pnl_pct := Some pnl |} in
  let miss := {|
    stop_triggered := false; stop_price := None; stop_kind := None;
    info := Some si; current_price := Some price; pnl_pct := Some pnl |} in
  if decide (side si = "buy") then
    if trailing_activated si then
      if decide (price <= trailing_stop si) then hit (trailing_stop si) Trailing else miss
    else
      if decide (price <= fixed_stop si) then hit (fixed_stop si) Fixed else miss
  else
    if trailing_activated si then
      if decide (trailing_stop si <= price) then hit (trailing_stop si) Trailing else miss
    else
      if decide (fixed_stop si <= price) then hit (fixed_stop si) Fixed else miss.

(** [update_stop_loss].  The division comes before any write to the
    tracked dict, so a raise leaves the manager as it was. *)
Definition update_stop_loss (self : t) (symbol : string) (price : Qc)
  : result (update_result * t) :=
  match position_stops self !! symbol with
  | None =>
      Ok ({| stop_triggered := false; stop_price := None; stop_kind := None;
             info := None; current_price := None; pnl_pct := None |}, self)
  | Some si =>
      let entry := entry_price si in
      pnl ← (if decide (side si = "buy") then py_div (price - entry) entry
             else py_div (entry - price) entry);
      let si := track self si price pnl in
      Ok (trigger si price pnl, set_stops self (<[symbol := si]> (position_stops self)))
  end.

(** [remove_stop_loss], [get_stop_loss] *)
Definition remove_stop_loss (self : t) (symbol : string) : t :=
  set_stops self (delete symbol (position_stops self)).

Definition get_stop_loss (self : t) (symbol : string) : option stop_info :=
  position_stops self !! symbol.

(** The calls a client makes on one manager, and the manager after a
    run of them.  A call that raises leaves the manager unchanged. *)
Inductive op : Type :=
  | Initialize (symbol : string) (pos : position) (strategy : string)
  | Update (symbol : string) (price : Qc)
  | Remove (symbol : string).

Definition apply_op (self : t) (o : op) : t :=
  match o with
  | Initialize symbol pos strategy => (initialize_stop_loss self symbol pos strategy).2
  | Update symbol price =>
      match update_stop_loss self symbol price with
      | Ok (_, self') => self'
      | Raise _ => self
      end
  | Remove symbol => remove_stop_loss self symbol
  end.

Definition run (c : config) (ops : list op) : t := foldl apply_op (init c) ops.

(** The extreme price the trailing stop follows, and the stop it implies. *)
Definition extreme_price (si : stop_info) : Qc :=
  if decide (side si = "buy") then highest_price si else lowest_price si.

Definition trailing_target (self : t) (si : stop_info) : Qc :=
  if decide (side si = "buy") then highest_price si * (1 - trailing_distance_pct self)
  else lowest_price si * (1 + trailing_distance_pct self).

(** Scenario values and the predicates the properties are stated with. *)

(** The profit the update computes from the tracked dict. *)
Definition pnl_of (si : stop_info) (price : Qc) : Qc :=
  if decide (side si = "buy") then (price - entry_price si) / entry_price si
  else (entry_price si - price) / entry_price si.

(** What holds of every tracked dict when the activation threshold and
    the entry price are positive: before activation both extremes are
    still the entry price, and after it the trailing stop sits at the
    trailing distance from the extreme. *)
Record tracked_ok (self : t) (si : stop_info) : Prop := {
  ok_entry : 0 < entry_price si;
  ok_idle : trailing_activated si = false ->
            highest_price si = entry_price si /\ lowest_price si = entry_price si;
  ok_trailing : trailing_activated si = true ->
                trailing_stop si = trailing_target self si
}.

Definition all_tracked_ok (self : t) : Prop :=
  forall symbol si, position_stops self !! symbol = Some si -> tracked_ok self si.

(** One update of a tracked dict, as the claim reads it. *)
Record step_ok (self : t) (si si' : stop_info) : Prop := {
  step_activation : trailing_activated si = true -> trailing_activated si' = true;
  step_highest : side si = "buy" -> highest_price si <= highest_price si';
  step_lowest : side si <> "buy" -> lowest_price si' <= lowest_price si;
  step_trailing : trailing_activated si' = true ->
                  trailing_stop si' = trailing_target self si'
}.

(** A position may be tracked under the invariant when its entry price
    is positive. *)
Definition valid_op (o : op) : Prop :=
  match o with
  | Initialize _ pos _ => 0 < pos_entry_price pos
  | Update _ _ => True
  | Remove _ => True
  end.

(** The claim at one reachable manager, one tracked symbol and one more
    price: the update returns; activation does not revert; the extreme
    price only moves favourably; and once trailing, the trailing stop
    sits at the trailing distance from the extreme. *)
Definition tracking_holds (self : t) (symbol : string) (price : Qc) : Prop :=
  forall si, position_stops self !! symbol = Some si ->
    exists r self' si',
      update_stop_loss self symbol price = Ok (r, self')
      /\ position_stops self' !! symbol = Some si'
      /\ step_ok self' si si'.

(** A long position opened at 100 with the default 2% stop, on a manager
    whose trailing stop activates at any profit (threshold 0, distance 1%). *)
Definition eager_config : config :=
  {| cfg_default_pct := None; cfg_breakout_pct := None; cfg_trailing_enabled := None;
     cfg_trailing_activation := Some (Q2Qc 0); cfg_trailing_distance := None |}.

Definition default_config : config :=
  {| cfg_default_pct := None; cfg_breakout_pct := None; cfg_trailing_enabled := None;
     cfg_trailing_activation := None; cfg_trailing_distance := None |}.

Definition long_at_100 : op :=
  Initialize "BTCUSDT" {| pos_side := "buy"; pos_entry_price := Q2Qc 100 |} "default".

Definition long_at_100_info : stop_info :=
  (initialize_stop_loss (init eager_config) "BTCUSDT"
     {| pos_side := "buy"; pos_entry_price := Q2Qc 100 |} "default").1.

Definition trailing_run : list op :=
  [long_at_100; Update "BTCUSDT" (Q2Qc 102); Update "BTCUSDT" (Q2Qc 105)].

(** A manager with one long opened at an entry price of 0. *)
Definition zero_entry_stops : t :=
  (initialize_stop_loss (init default_config) "BTCUSDT"
     {| pos_side := "buy"; pos_entry_price := 0 |} "default").2.

(** A configuration with the trailing stop switched off. *)
Definition fixed_only_config : config :=
  {| cfg_default_pct := None; cfg_breakout_pct := None;
     cfg_trailing_enabled := Some false;
     cfg_trailing_activation := None; cfg_trailing_distance := None |}.

End StopLossManager.

(** ** TakeProfitManager ([risk/take_profit_manager.py]) *)

Module TakeProfitManager.

Record config : Type := {
  cfg_levels : option (list Qc);
  cfg_ratios : option (list Qc)
}.

(** The keys of [position] that the tracker reads: [entry_price] with
    [position['entry_price']], the others with [position.get]. *)
Record position : Type := {
  pos_side : option string;
  pos_direction : option string;
  pos_entry_price : Qc;
  pos_qty : option Qc;
  pos_quantity : option Qc
}.

Record level : Type := {
  index : nat;
  pct : Qc;
  price : Qc;
  ratio : Qc;
  target_qty : Qc;
  triggered : bool;
  trigger_ts : option Z;
  filled_qty : Qc
}.

Record tp_info : Type := {
  direction : string;
  entry_price : Qc;
  total_qty : Qc;
  remaining_qty : Qc;
  levels : list level;
  next_index : nat;
  created_at : Z;
  completed : bool
}.

Record t : Type := {
  default_levels : list Qc;
  default_ratios : list Qc;
  targets : gmap string tp_info
}.

(** [_normalize_direction] *)
Definition _normalize_direction (pos : position) : string :=
  let sd := py_lower (get_or (py_or_str (py_or_str (pos_side pos) (pos_direction pos))
                                        (Some "")) "") in
  if bool_decide (sd = "sell") || bool_decide (sd = "short") then "sell" else "buy".

(** [_is_level_hit] *)
Definition _is_level_hit (dir : string) (current target : Qc) : bool :=
  if decide (dir = "buy") then bool_decide (target <= current)
  else bool_decide (current <= target).

(** [_calculate_target_price] *)
Definition _calculate_target_price (entry p : Qc) (dir : string) : Qc :=
  if decide (dir = "buy") then entry * (1 + p) else entry * (1 - p).

(** [_sanitize_levels] *)
Definition _sanitize_levels (lv : option (list Qc)) : list Qc :=
  match lv with
  | None => []
  | Some l => filter (fun v => 0 < v) l
  end.

(** The comprehension [[float(r) for r in rs if ... and r >= 0]]. *)
Definition nonneg_ratios (rs : list Qc) : list Qc := filter (fun r => 0 <= r) rs.

(** [_match_length_and_normalize] *)
Definition _match_length_and_normalize (ratios : list Qc) (len : nat)
  : result (list Qc) :=
  if decide (len = 0%nat) then Ok []
  else
    let normalized :=
      match list.last ratios with
      | None => replicate len (Q2Qc 1.0)
      | Some pad_value =>
          if decide (length ratios < len)%nat
          then ratios ++ replicate (len - length ratios) pad_value
          else if decide (len < length ratios)%nat then take len ratios
          else ratios
      end in
    let total := py_sum normalized in
    if decide (total = 0) then
      w ← py_div (Q2Qc 1.0) (of_nat len);
      Ok (replicate len w)
    else mapM (fun value => py_div value total) normalized.

(** [__init__] *)
Definition init (c : config) : result t :=
  let raw_levels :=
    _sanitize_levels (Some (get_or (cfg_levels c) [Q2Qc 0.03; Q2Qc 0.05; Q2Qc 0.08])) in
  let raw_levels := match raw_levels with
                    | [] => [Q2Qc 0.03; Q2Qc 0.05; Q2Qc 0.08]
                    | _ => raw_levels
                    end in
  let raw_ratios := nonneg_ratios (get_or (cfg_ratios c) []) in
  ratios ← _match_length_and_normalize raw_ratios (length raw_levels);
  Ok {| default_levels := raw_levels; default_ratios := ratios; targets := ∅ |}.

(** [_prepare_levels_and_ratios] *)
Definition _prepare_levels_and_ratios (self : t)
    (requested_levels requested_ratios : option (list Qc))
  : result (list Qc * list Qc) :=
  let lv := _sanitize_levels requested_levels in
  let lv := match lv with
            | [] => default_levels self
            | _ => lv
            end in
  let ratio_candidates := nonneg_ratios (get_or requested_ratios []) in
  let ratio_candidates := match ratio_candidates with
                          | [] => default_ratios self
                          | _ => ratio_candidates
                          end in
  ratios ← _match_length_and_normalize ratio_candidates (length lv);
  Ok (lv, ratios).

Definition set_targets (self : t) (m : gmap string tp_info) : t := {|
  default_levels := default_levels self;
  default_ratios := default_ratios self;
  targets := m
|}.

(** [initialize_take_profit]; [now] is [int(time.time() * 1000)]. *)
Definition initialize_take_profit (self : t) (now : Z) (symbol : string)
    (pos : position) (take_profit_pcts ratios : option (list Qc))
  : result (tp_info * t) :=
  let dir := _normalize_direction pos in
  let entry := pos_entry_price pos in
  let qty := get_or (py_or (py_or (pos_qty pos) (pos_quantity pos)) (Some (Q2Qc 0.0)))
                    (Q2Qc 0.0) in
  let qty := if decide (qty <= 0) then Q2Qc 1.0 else qty in
  '(lv, normalized_ratios) ← _prepare_levels_and_ratios self take_profit_pcts ratios;
  let level_infos :=
    imap (fun i '(p, r) => {|
      index := i;
      pct := p;
      price := _calculate_target_price entry p dir;
      ratio := r;
      target_qty := qty * r;
      triggered := false;
      trigger_ts := None;
      filled_qty := Q2Qc 0.0
    |}) (zip lv normalized_ratios) in
  let tp := {|
    direction := dir;
    entry_price := entry;
    total_qty := qty;
    remaining_qty := qty;
    levels := level_infos;
    next_index := 0;
    created_at := now;
    completed := false
  |} in
  Ok (tp, set_targets self (<[symbol := tp]> (targets self))).

(** One entry of [triggered_levels]. *)
Record triggered_level : Type := {
  tl_index : nat;
  tl_price : Qc;
  tl_ratio : Qc;
  tl_qty : Qc;
  tl_pct : Qc
}.

Record update_result : Type := {
  r_symbol : string;
  r_triggered : bool;
  r_triggered_levels : list triggered_level;
  r_current_price : Qc;
  r_remaining_qty : Qc;
  r_completed : bool;
  r_next_level_price : option Qc;
  r_take_profit_info : option tp_info
}.

Definition fill_level (lv : level) (qty : Qc) (now : Z) : level := {|
  index := index lv;
  pct := pct lv;
  price := price lv;
  ratio := ratio lv;
  target_qty := target_qty lv;
  triggered := true;
  trigger_ts := Some now;
  filled_qty := qty
|}.

(** The body of the [while] loop (lines 150-173) once the level is hit. *)
Definition advance (ti : tp_info) (lv : level) (now : Z) : tp_info * triggered_level :=
  let qty := py_min (target_qty lv) (remaining_qty ti) in
  ({| direction := direction ti;
      entry_price := entry_price ti;
      total_qty := total_qty ti;
      remaining_qty := py_max (remaining_qty ti - qty) (Q2Qc 0.0);
      levels := <[next_index ti := fill_level lv qty now]> (levels ti);
      next_index := S (next_index ti);
      created_at := created_at ti;
      completed := completed ti |},
   {| tl_index := index lv; tl_price := price lv; tl_ratio := ratio lv;
      tl_qty := qty; tl_pct := pct lv |}).

(** The [while] loop of [update_take_profit].  Every turn raises
    [next_index], so [length levels - next_index] turns are the most the
    loop can take; [fuel] counts them. *)
Fixpoint ladder (fuel : nat) (now : Z) (current : Qc) (ti : tp_info)
    (acc : list triggered_level) : tp_info * list triggered_level :=
  match fuel with
  | O => (ti, acc)
  | S fuel =>
      match levels ti !! next_index ti with
      | None => (ti, acc)
      | Some lv =>
          if negb (_is_level_hit (direction ti) current (price lv)) then (ti, acc)
          else
            let '(ti, tl) := advance ti lv now in
            let acc := acc ++ [tl] in
            if decide (remaining_qty ti <= 0) then (ti, acc)
            else ladder fuel now current ti acc
      end
  end.

Definition set_completed (ti : tp_info) (c : bool) : tp_info := {|
  direction := direction ti;
  entry_price := entry_price ti;
  total_qty := total_qty ti;
  remaining_qty := remaining_qty ti;
  levels := levels ti;
  next_index := next_index ti;
  created_at := created_at ti;
  completed := c
|}.

(** [update_take_profit] *)
Definition update_take_profit (self : t) (now : Z) (symbol : string) (current : Qc)
  : update_result * t :=
  match targets self !! symbol with
  | None =>
      ({| r_symbol := symbol; r_triggered := false; r_triggered_levels := [];
          r_current_price := current; r_remaining_qty := Q2Qc 0.0;
          r_completed := false; r_next_level_price := None;
          r_take_profit_info := None |}, self)
  | Some ti =>
      let '(ti, hits) :=
        ladder (length (levels ti) - next_index ti) now current ti [] in
      let done := bool_decide (length (levels ti) <= next_index ti)%nat
                  || bool_decide (remaining_qty ti <= 0) in
      let ti := set_completed ti done in
      ({| r_symbol := symbol;
          r_triggered := negb (bool_decide (hits = []));
          r_triggered_levels := hits;
          r_current_price := current;
          r_remaining_qty := remaining_qty ti;
          r_completed := done;
          r_next_level_price := price <$> (levels ti !! next_index ti);
          r_take_profit_info := Some ti |},
       set_targets self (<[symbol := ti]> (targets self)))
  end.

(** [remove_take_profit], [get_take_profit] *)
Definition remove_take_profit (self : t) (symbol : string) : t :=
  set_targets self (delete symbol (targets self)).

Definition get_take_profit (self : t) (symbol : string) : option tp_info :=
  targets self !! symbol.

(** What has been filled so far: [filled_qty] summed over the levels
    marked triggered. *)
Definition filled_sum (ls : list level) : Qc :=
  py_sum ((fun lv => if triggered lv then filled_qty lv else 0) <$> ls).

(** The calls a client makes on one manager, and the manager after a
    run of them.  A call that raises leaves the manager unchanged. *)
Inductive op : Type :=
  | Initialize (now : Z) (symbol : string) (pos : position)
      (take_profit_pcts ratios : option (list Qc))
  | Update (now : Z) (symbol : string) (current : Qc)
  | Remove (symbol : string).

Definition apply_op (self : t) (o : op) : t :=
  match o with
  | Initialize now symbol pos pcts ratios =>
      match initialize_take_profit self now symbol pos pcts ratios with
      | Ok (_, self') => self'
      | Raise _ => self
      end
  | Update now symbol current => (update_take_profit self now symbol current).2
  | Remove symbol => remove_take_profit self symbol
  end.

Definition run (self : t) (ops : list op) : t := foldl apply_op self ops.

(** The resizing step in the words of the specification: a list shorter
    than the level count is padded with its last value, a longer one is
    cut to the level count. *)
Definition pad_or_truncate (ratios : list Qc) (len : nat) : list Qc :=
  take len (ratios ++ replicate (len - length ratios) (default 0 (list.last ratios))).

(** The ladder invariant of one tracked position: the levels from
    [next_index] on are untouched, what was filled and what remains add
    up to the total, and what remains is what the untouched levels are
    still to take. *)
Record info_ok (ti : tp_info) : Prop := {
  ok_next : (next_index ti <= length (levels ti))%nat;
  ok_targets : Forall (fun lv => 0 <= target_qty lv) (levels ti);
  ok_pending : Forall (fun lv => triggered lv = false) (drop (next_index ti) (levels ti));
  ok_filled : filled_sum (levels ti) + remaining_qty ti = total_qty ti;
  ok_remaining : remaining_qty ti
                 = py_sum (target_qty <$> drop (next_index ti) (levels ti))
}.

Record manager_ok (self : t) : Prop := {
  ok_default_levels : default_levels self <> [];
  ok_default_ratios : Forall (fun r => 0 <= r) (default_ratios self);
  ok_targets_tracked : forall symbol ti, targets self !! symbol = Some ti -> info_ok ti
}.

(** The quantity accounting of the claim, on one tracked position. *)
Definition accounting_holds (ti : tp_info) : Prop :=
  filled_sum (levels ti) <= total_qty ti
  /\ remaining_qty ti = total_qty ti - filled_sum (levels ti)
  /\ 0 <= remaining_qty ti.

(** Scenario values and the predicates the properties are stated with. *)

(** The levels [initialize_take_profit] builds from a quantity, a
    direction, an entry price and the prepared levels and ratios. *)
Definition fresh_levels (qty entry : Qc) (dir : string) (lv rs : list Qc) : list level :=
  imap (fun i '(p, r) => {|
    index := i;
    pct := p;
    price := _calculate_target_price entry p dir;
    ratio := r;
    target_qty := qty * r;
    triggered := false;
    trigger_ts := None;
    filled_qty := Q2Qc 0.0
  |}) (zip lv rs).

(** The quantity [initialize_take_profit] works with: [qty], else
    [quantity], else 0, and 1 when that is not positive. *)
Definition position_qty (pos : position) : Qc :=
  let qty := get_or (py_or (py_or (pos_qty pos) (pos_quantity pos)) (Some (Q2Qc 0.0)))
                    (Q2Qc 0.0) in
  if decide (qty <= 0) then Q2Qc 1.0 else qty.

Definition fresh_info (pos : position) (lv rs : list Qc) (now : Z) : tp_info := {|
  direction := _normalize_direction pos;
  entry_price := pos_entry_price pos;
  total_qty := position_qty pos;
  remaining_qty := position_qty pos;
  levels := fresh_levels (position_qty pos) (pos_entry_price pos)
              (_normalize_direction pos) lv rs;
  next_index := 0;
  created_at := now;
  completed := false
|}.

(** The ladder of the third scenario: levels 3%, 5% and 8% with ratios
    40%, 40% and 20%, on a long position of 10 opened at 100. *)
Definition ladder_config : config :=
  {| cfg_levels := Some [Q2Qc 0.03; Q2Qc 0.05; Q2Qc 0.08];
     cfg_ratios := Some [Q2Qc 0.40; Q2Qc 0.40; Q2Qc 0.20] |}.

Definition no_manager : t :=
  {| default_levels := []; default_ratios := []; targets := ∅ |}.

Definition ladder_manager : t :=
  match init ladder_config with
  | Ok m => m
  | Raise _ => no_manager
  end.

Definition ladder_position : position :=
  {| pos_side := Some "buy"; pos_direction := None; pos_entry_price := Q2Qc 100;
     pos_qty := Some (Q2Qc 10); pos_quantity := None |}.

Definition ladder_ops : list op :=
  [Initialize 0 "BTCUSDT" ladder_position None None;
   Update 1 "BTCUSDT" (Q2Qc 103)].

Definition no_info : tp_info :=
  {| direction := "buy"; entry_price := 0; total_qty := 0; remaining_qty := 0;
     levels := []; next_index := 0; created_at := 0; completed := false |}.

Definition ladder_info : tp_info :=
  get_or (targets (run ladder_manager ladder_ops) !! "BTCUSDT") no_info.

Definition flat_position : position :=
  {| pos_side := Some "buy"; pos_direction := None; pos_entry_price := Q2Qc 100;
     pos_qty := Some (Q2Qc 0); pos_quantity := Some (Q2Qc (-3)) |}.

(** What one [update_take_profit] may have done to a tracked position:
    [ti] before, [ti'] after, [hits] the entries of [triggered_levels]. *)
Record ladder_progress (ti ti' : tp_info) (hits : list triggered_level) : Prop := {
  lp_total : total_qty ti' = total_qty ti;
  lp_direction : direction ti' = direction ti;
  lp_entry : entry_price ti' = entry_price ti;
  lp_next : next_index ti' = (next_index ti + length hits)%nat;
  lp_length : length (levels ti') = length (levels ti);
  lp_done : take (next_index ti) (levels ti') = take (next_index ti) (levels ti);
  lp_pending : drop (next_index ti') (levels ti') = drop (next_index ti') (levels ti);
  lp_filled : py_sum (tl_qty <$> hits) = remaining_qty ti - remaining_qty ti';
  lp_nonneg : Forall (fun tl => 0 <= tl_qty tl) hits;
  lp_order : tl_price <$> hits
             = price <$> take (length hits) (drop (next_index ti) (levels ti))
}.

(** A ladder whose second level has ratio 0: the first level takes the
    whole quantity. *)
Definition all_in_first : list op :=
  [Initialize 0 "BTCUSDT" ladder_position (Some [Q2Qc 0.03; Q2Qc 0.05])
     (Some [Q2Qc 1; Q2Qc 0])].

End TakeProfitManager.

(** ** Two managers that track one symbol each *)

Module Untracked.

Definition idle_stops : StopLossManager.t :=
  StopLossManager.run
    {| StopLossManager.cfg_default_pct := None;
       StopLossManager.cfg_breakout_pct := None;
       StopLossManager.cfg_trailing_enabled := None;
       StopLossManager.cfg_trailing_activation := None;
       StopLossManager.cfg_trailing_distance := None |}
    [StopLossManager.Initialize "BTCUSDT"
       {| StopLossManager.pos_side := "buy";
          StopLossManager.pos_entry_price := Q2Qc 100 |} "default"].

Definition idle_targets : TakeProfitManager.t :=
  TakeProfitManager.run TakeProfitManager.ladder_manager
    [TakeProfitManager.Initialize 0 "BTCUSDT" TakeProfitManager.ladder_position None None].

End Untracked.

(** ** TakeProfitManager on binary64 floats

    The same source functions with the numbers the code really has: IEEE
    binary64 with round-to-nearest, which is what a Python float is.
    [x / y] raises on a zero divisor as in Python; [1.0 / length] divides
    by an integer, which is zero only when the integer is.  The built-in
    [sum] is a parameter of the functions that call it: CPython adds the
    items from left to right starting at 0, and from version 3.12 carries
    a compensation term; both are given, as [sum_plain] and
    [sum_compensated].  This module shows where rounding and overflow
    make the exact equations of the rational model fail on the code, and
    what the code keeps instead. *)

Module TakeProfitFloat.
Import PrimFloat.
#[local] Set Warnings "-inexact-float".
Local Open Scope float_scope.

(** [float(n)] for a list length (exact below 2^53). *)
Fixpoint of_nat (n : nat) : float :=
  match n with
  | O => 0
  | S n => of_nat n + 1
  end.

(** [x / y] on floats. *)
Definition py_div (x y : float) : result float :=
  if y =? 0 then Raise ZeroDivisionError else Ok (x / y).

(** [x / n] for an integer [n]. *)
Definition py_div_len (x : float) (n : nat) : result float :=
  if decide (n = 0%nat) then Raise ZeroDivisionError else Ok (x / of_nat n).

(** [min(x, y)] and [max(x, y)] keep [x] unless [y] is strictly beyond
    it; [a or b] takes [b] when [a] is missing or zero. *)
Definition py_min (x y : float) : float := if y <? x then y else x.

Definition py_max (x y : float) : float := if x <? y then y else x.

Definition py_or (a b : option float) : option float :=
  match a with
  | Some x => if x =? 0 then b else Some x
  | None => b
  end.



Record config : Type := {
  cfg_levels : option (list float);
  cfg_ratios : option (list float)
}.

Record position : Type := {
  pos_side : option string;
  pos_direction : option string;
  pos_entry_price : float;
  pos_qty : option float;
  pos_quantity : option float
}.

Record level : Type := {
  index : nat;
  pct : float;
  price : float;
  ratio : float;
  target_qty : float;
  triggered : bool;
  trigger_ts : option Z;
  filled_qty : float
}.

Record tp_info : Type := {
  direction : string;
  entry_price : float;
  total_qty : float;
  remaining_qty : float;
  levels : list level;
  next_index : nat;
  created_at : Z;
  completed : bool
}.

Record t : Type := {
  default_levels : list float;
  default_ratios : list float;
  targets : gmap string tp_info
}.

(** [_normalize_direction] *)
Definition _normalize_direction (pos : position) : string :=
  let sd := py_lower (get_or (py_or_str (py_or_str (pos_side pos) (pos_direction pos))
                                        (Some "")) "") in
  if bool_decide (sd = "sell") || bool_decide (sd = "short") then "sell" else "buy".

(** [_is_level_hit] *)
Definition _is_level_hit (dir : string) (current target : float) : bool :=
  if decide (dir = "buy") then target <=? current else current <=? target.

(** [_calculate_target_price] *)
Definition _calculate_target_price (entry p : float) (dir : string) : float :=
  if decide (dir = "buy") then entry * (1 + p) else entry * (1 - p).

(** [_sanitize_levels] *)
Definition _sanitize_levels (lv : option (list float)) : list float :=
  match lv with
  | None => []
  | Some l => filter (fun v => Is_true (0 <? v)) l
  end.

(** The comprehension [[float(r) for r in rs if ... and r >= 0]]. *)
Definition nonneg_ratios (rs : list float) : list float :=
  filter (fun r => Is_true (0 <=? r)) rs.

Definition set_targets (self : t) (m : gmap string tp_info) : t := {|
  default_levels := default_levels self;
  default_ratios := default_ratios self;
  targets := m
|}.

(** One entry of [triggered_levels]. *)
Record triggered_level : Type := {
  tl_index : nat;
  tl_price : float;
  tl_ratio : float;
  tl_qty : float;
  tl_pct : float
}.

Record update_result : Type := {
  r_symbol : string;
  r_triggered : bool;
  r_triggered_levels : list triggered_level;
  r_current_price : float;
  r_remaining_qty : float;
  r_completed : bool;
  r_next_level_price : option float;
  r_take_profit_info : option tp_info
}.

Definition fill_level (lv : level) (qty : float) (now : Z) : level := {|
  index := index lv;
  pct := pct lv;
  price := price lv;
  ratio := ratio lv;
  target_qty := target_qty lv;
  triggered := true;
  trigger_ts := Some now;
  filled_qty := qty
|}.

(** The body of the [while] loop (lines 150-173) once the level is hit. *)
Definition advance (ti : tp_info) (lv : level) (now : Z) : tp_info * triggered_level :=
  let qty := py_min (target_qty lv) (remaining_qty ti) in
  ({| direction := direction ti;
      entry_price := entry_price ti;
      total_qty := total_qty ti;
      remaining_qty := py_max (remaining_qty ti - qty) 0;
      levels := <[next_index ti := fill_level lv qty now]> (levels ti);
      next_index := S (next_index ti);
      created_at := created_at ti;
      completed := completed ti |},
   {| tl_index := index lv; tl_price := price lv; tl_ratio := ratio lv;
      tl_qty := qty; tl_pct := pct lv |}).

(** The [while] loop of [update_take_profit]; [fuel] counts its turns as
    in the rational model. *)
Fixpoint ladder (fuel : nat) (now : Z) (current : float) (ti : tp_info)
    (acc : list triggered_level) : tp_info * list triggered_level :=
  match fuel with
  | O => (ti, acc)
  | S fuel =>
      match levels ti !! next_index ti with
      | None => (ti, acc)
      | Some lv =>
          if negb (_is_level_hit (direction ti) current (price lv)) then (ti, acc)
          else
            let '(ti, tl) := advance ti lv now in
            let acc := acc ++ [tl] in
            if remaining_qty ti <=? 0 then (ti, acc)
            else ladder fuel now current ti acc
      end
  end.

Definition set_completed (ti : tp_info) (c : bool) : tp_info := {|
  direction := direction ti;
  entry_price := entry_price ti;
  total_qty := total_qty ti;
  remaining_qty := remaining_qty ti;
  levels := levels ti;
  next_index := next_index ti;
  created_at := created_at ti;
  completed := c
|}.

(** [update_take_profit] *)
Definition update_take_profit (self : t) (now : Z) (symbol : string) (current : float)
  : update_result * t :=
  match targets self !! symbol with
  | None =>
      ({| r_symbol := symbol; r_triggered := false; r_triggered_levels := [];
          r_current_price := current; r_remaining_qty := 0;
          r_completed := false; r_next_level_price := None;
          r_take_profit_info := None |}, self)
  | Some ti =>
      let '(ti, hits) :=
        ladder (length (levels ti) - next_index ti) now current ti [] in
      let done := bool_decide (length (levels ti) <= next_index ti)%nat
                  || (remaining_qty ti <=? 0) in
      let ti := set_completed ti done in
      ({| r_symbol := symbol;
          r_triggered := negb (bool_decide (hits = []));
          r_triggered_levels := hits;
          r_current_price := current;
          r_remaining_qty := remaining_qty ti;
          r_completed := done;
          r_next_level_price := price <$> (levels ti !! next_index ti);
          r_take_profit_info := Some ti |},
       set_targets self (<[symbol := ti]> (targets self)))
  end.

(** [remove_take_profit] *)
Definition remove_take_profit (self : t) (symbol : string) : t :=
  set_targets self (delete symbol (targets self)).

Section Summation.

(** The built-in [sum]. *)
Variable py_sum : list float -> float.

(** [_match_length_and_normalize] *)
Definition _match_length_and_normalize (ratios : list float) (len : nat)
  : result (list float) :=
  if decide (len = 0%nat) then Ok []
  else
    let normalized :=
      match list.last ratios with
      | None => replicate len 1
      | Some pad_value =>
          if decide (length ratios < len)%nat
          then ratios ++ replicate (len - length ratios) pad_value
          else if decide (len < length ratios)%nat then take len ratios
          else ratios
      end in
    let total := py_sum normalized in
    if total =? 0 then
      w ← py_div_len 1 len;
      Ok (replicate len w)
    else mapM (fun value => py_div value total) normalized.

(** [__init__] *)
Definition init (c : config) : result t :=
  let raw_levels := _sanitize_levels (Some (get_or (cfg_levels c) [0.03; 0.05; 0.08])) in
  let raw_levels := match raw_levels with
                    | [] => [0.03; 0.05; 0.08]
                    | _ => raw_levels
                    end in
  let raw_ratios := nonneg_ratios (get_or (cfg_ratios c) []) in
  ratios ← _match_length_and_normalize raw_ratios (length raw_levels);
  Ok {| default_levels := raw_levels; default_ratios := ratios; targets := ∅ |}.

(** [_prepare_levels_and_ratios] *)
Definition _prepare_levels_and_ratios (self : t)
    (requested_levels requested_ratios : option (list float))
  : result (list float * list float) :=
  let lv := _sanitize_levels requested_levels in
  let lv := match lv with
            | [] => default_levels self
            | _ => lv
            end in
  let ratio_candidates := nonneg_ratios (get_or requested_ratios []) in
  let ratio_candidates := match ratio_candidates with
                          | [] => default_ratios self
                          | _ => ratio_candidates
                          end in
  ratios ← _match_length_and_normalize ratio_candidates (length lv);
  Ok (lv, ratios).

(** [initialize_take_profit]; [now] is [int(time.time() * 1000)]. *)
Definition initialize_take_profit (self : t) (now : Z) (symbol : string)
    (pos : position) (take_profit_pcts ratios : option (list float))
  : result (tp_info * t) :=
  let dir := _normalize_direction pos in
  let entry := pos_entry_price pos in
  let qty := get_or (py_or (py_or (pos_qty pos) (pos_quantity pos)) (Some 0)) 0 in
  let qty := if qty <=? 0 then 1 else qty in
  '(lv, normalized_ratios) ← _prepare_levels_and_ratios self take_profit_pcts ratios;
  let level_infos :=
    imap (fun i '(p, r) => {|
      index := i;
      pct := p;
      price := _calculate_target_price entry p dir;
      ratio := r;
      target_qty := qty * r;
      triggered := false;
      trigger_ts := None;
      filled_qty := 0
    |}) (zip lv normalized_ratios) in
  let tp := {|
    direction := dir;
    entry_price := entry;
    total_qty := qty;
    remaining_qty := qty;
    levels := level_infos;
    next_index := 0;
    created_at := now;
    completed := false
  |} in
  Ok (tp, set_targets self (<[symbol := tp]> (targets self))).

(** The calls a client makes on one manager, and the manager after a
    run of them.  A call that raises leaves the manager unchanged. *)
Inductive op : Type :=
  | Initialize (now : Z) (symbol : string) (pos : position)
      (take_profit_pcts ratios : option (list float))
  | Update (now : Z) (symbol : string) (current : float)
  | Remove (symbol : string).

Definition apply_op (self : t) (o : op) : t :=
  match o with
  | Initialize now symbol pos pcts ratios =>
      match initialize_take_profit self now symbol pos pcts ratios with
      | Ok (_, self') => self'
      | Raise _ => self
      end
  | Update now symbol current => (update_take_profit self now symbol current).2
  | Remove symbol => remove_take_profit self symbol
  end.

Definition run (self : t) (ops : list op) : t := foldl apply_op self ops.



End Summation.

(** The resizing step in the words of the specification: a list shorter
    than the level count is padded with its last value, a longer one is
    cut to the level count. *)
Definition pad_or_truncate (ratios : list float) (len : nat) : list float :=
  take len (ratios ++ replicate (len - length ratios) (default 0 (list.last ratios))).


(** The quantities the levels [ls] are filled with in turn when [r]
    remains, and what remains after them. *)
Fixpoint fills (r : float) (ls : list level) : list float :=
  match ls with
  | [] => []
  | lv :: ls =>
      let qty := py_min (target_qty lv) r in
      qty :: fills (py_max (r - qty) 0) ls
  end.

Fixpoint drain (r : float) (ls : list level) : float :=
  match ls with
  | [] => r
  | lv :: ls => drain (py_max (r - py_min (target_qty lv) r) 0) ls
  end.

(** The levels an update went through: those from the cursor of [ti] up
    to the cursor of [ti']. *)
Definition crossed (ti ti' : tp_info) : list level :=
  take (next_index ti' - next_index ti) (drop (next_index ti) (levels ti)).

(** What one [update_take_profit] does to a tracked position: [ti]
    before, [ti'] after, [hits] the entries of [triggered_levels].  The
    levels gone through are filled in turn with
    [min(target_qty, remaining_qty)], and [remaining_qty] is lowered by
    each fill and floored at 0. *)
Record ladder_progress (ti ti' : tp_info) (hits : list triggered_level) : Prop := {
  lp_total : total_qty ti' = total_qty ti;
  lp_next : next_index ti' = (next_index ti + length hits)%nat;
  lp_range : (length hits <= length (levels ti) - next_index ti)%nat;
  lp_length : length (levels ti') = length (levels ti);
  lp_done : take (next_index ti) (levels ti') = take (next_index ti) (levels ti);
  lp_pending : drop (next_index ti') (levels ti') = drop (next_index ti') (levels ti);
  lp_fills : tl_qty <$> hits = fills (remaining_qty ti) (crossed ti ti');
  lp_filled : filled_qty <$> take (length hits) (drop (next_index ti) (levels ti'))
              = tl_qty <$> hits;
  lp_triggered : Forall (fun lv => triggered lv = true)
                   (take (length hits) (drop (next_index ti) (levels ti')));
  lp_remaining : remaining_qty ti' = drain (remaining_qty ti) (crossed ti ti')
}.

(** A tracked quantity is never negative. *)
Definition tracked_ok (self : t) : Prop :=
  forall symbol ti, targets self !! symbol = Some ti -> (remaining_qty ti <? 0) = false.

(** The quantities of the levels marked triggered. *)
Definition filled (ti : tp_info) : list float :=
  filled_qty <$> filter (fun lv => Is_true (triggered lv)) (levels ti).

(** The quantity accounting as the specification words it, on one
    tracked position, with the filled quantities added by [sum]. *)
Definition accounting_holds (sum : list float -> float) (ti : tp_info) : Prop :=
  (sum (filled ti) <=? total_qty ti) = true
  /\ (remaining_qty ti =? total_qty ti - sum (filled ti)) = true
  /\ (0 <=? remaining_qty ti) = true
  /\ (completed ti = true -> (sum (filled ti) =? total_qty ti) = true).

(** Scenario values. *)

(** The default ladder: levels 3%, 5% and 8% and no configured ratios,
    hence one third each; a long position of 1 opened at 100; one tick
    at 110, above every target. *)
Definition default_config : config := {| cfg_levels := None; cfg_ratios := None |}.



Definition no_info : tp_info :=
  {| direction := "buy"; entry_price := 0; total_qty := 0; remaining_qty := 0;
     levels := []; next_index := 0; created_at := 0; completed := false |}.




End TakeProfitFloat.

(** * Properties *)

(** ** Arithmetic and monad facts *)

Lemma Qc_pos_nonzero (x : Qc) : 0 < x -> x <> 0.
Proof. intros H E. symmetry in E. exact (Qclt_not_eq _ _ H E). Qed.

Lemma py_div_ok (x y : Qc) : y <> 0 -> py_div x y = Ok (x / y).
Proof. intros H. unfold py_div. destruct (decide (y = 0)); [contradiction | reflexivity]. Qed.

Lemma py_div_zero (x : Qc) : py_div x 0 = Raise ZeroDivisionError.
Proof. unfold py_div. destruct (decide (0 = 0)); [reflexivity | congruence]. Qed.

Lemma rbind_ok {A B : Type} (a : A) (k : A -> result B) : (Ok a ≫= k) = k a.
Proof. reflexivity. Qed.

Lemma Qc_eq_by_compute (x y : Qc) : Qeq_bool x y = true -> x = y.
Proof. intros H. apply Qc_is_canon. apply Qeq_bool_iff. exact H. Qed.

Lemma Qc_neq_by_compute (x y : Qc) : Qeq_bool x y = false -> x <> y.
Proof. intros H E. subst y. rewrite Qeq_bool_refl in H. discriminate. Qed.

Ltac qc_compute := apply Qc_eq_by_compute; vm_compute; reflexivity.

(** ** PositionSizer *)

Module PositionSizerProps.
Import PositionSizer.

Lemma volatility_multiplier_returns (v : volatility) :
  exists m, _calculate_volatility_multiplier v = Ok m.
Proof.
  unfold _calculate_volatility_multiplier.
  destruct (decide (0 < get_or (price v) 1)) as [Hp | Hp].
  - rewrite py_div_ok by (apply Qc_pos_nonzero; exact Hp). rewrite rbind_ok.
    repeat case_decide; eauto.
  - rewrite rbind_ok. repeat case_decide; eauto.
Qed.

(** C2.  With equity 10000, base 10%, cap 30%, account risk 2%, ATR at
    0.5% of price, a strong signal, risk multiplier 1, entry 100 and stop
    98, [calculate_position_size] returns base 1000, volatility
    multiplier 1.5, signal multiplier 1.2, adjusted 1800, stop distance
    0.02, risk cap 10000, position cap 3000, final value 1800, quantity 18
    and risk amount 36. *)
Theorem sizing_scenario :
  exists r,
    calculate_position_size scenario_sizer (Q2Qc 10000) scenario_signal
      scenario_volatility (Q2Qc 1.0) = Ok r
    /\ base_size r = Q2Qc 1000
    /\ volatility_multiplier (details r) = Q2Qc 1.5
    /\ signal_multiplier (details r) = Q2Qc 1.2
    /\ adjusted_size r = Q2Qc 1800
    /\ stop_distance_pct (details r) = Q2Qc 0.02
    /\ max_risk_limit (details r) = Q2Qc 10000
    /\ max_position_limit (details r) = Q2Qc 3000
    /\ position_value r = Q2Qc 1800
    /\ quantity r = Q2Qc 18
    /\ risk_amount r = Q2Qc 36
    /\ limiting (details r) = LimitNone.
Proof.
  eexists. split; [vm_compute; reflexivity |].
  cbn [base_size adjusted_size position_value quantity risk_amount details
       volatility_multiplier signal_multiplier stop_distance_pct max_risk_limit
       max_position_limit limiting].
  repeat split; qc_compute.
Qed.

(** C9.  For positive equity and a positive entry price the sizer returns,
    and the quantity it returns times the entry price is the position
    value. *)
Theorem quantity_times_entry (self : t) (account_equity : Qc) (sig : signal)
    (vol : volatility) (risk_mult : Qc) :
  0 < account_equity ->
  0 < entry_price sig ->
  exists r,
    calculate_position_size self account_equity sig vol risk_mult = Ok r
    /\ quantity r * entry_price sig = position_value r.
Proof.
  intros He Hp. unfold calculate_position_size.
  destruct (volatility_multiplier_returns vol) as [m ->]. rewrite rbind_ok.
  pose proof (Qc_pos_nonzero _ Hp) as Hp0.
  pose proof (Qc_pos_nonzero _ He) as He0.
  rewrite (py_div_ok _ (entry_price sig)) by exact Hp0. rewrite rbind_ok.
  set (sd := py_abs (entry_price sig - stop_loss sig) / entry_price sig).
  destruct (decide (0 < sd)) as [Hsd | Hsd].
  - rewrite (py_div_ok _ sd) by (apply Qc_pos_nonzero; exact Hsd). rewrite rbind_ok.
    rewrite (py_div_ok _ (entry_price sig)) by exact Hp0. rewrite rbind_ok.
    rewrite !(py_div_ok _ account_equity) by exact He0. rewrite !rbind_ok.
    eexists. split; [reflexivity |]. cbn [quantity position_value].
    field. exact Hp0.
  - rewrite rbind_ok.
    rewrite (py_div_ok _ (entry_price sig)) by exact Hp0. rewrite rbind_ok.
    rewrite !(py_div_ok _ account_equity) by exact He0. rewrite !rbind_ok.
    eexists. split; [reflexivity |]. cbn [quantity position_value].
    field. exact Hp0.
Qed.

Lemma quantity_times_entry_witness :
  exists r,
    calculate_position_size scenario_sizer (Q2Qc 10000) scenario_signal
      scenario_volatility (Q2Qc 1.0) = Ok r
    /\ quantity r * entry_price scenario_signal = position_value r.
Proof.
  apply (quantity_times_entry scenario_sizer (Q2Qc 10000) scenario_signal
           scenario_volatility (Q2Qc 1.0)); reflexivity.
Defined.

Lemma py_min_same (x y : Qc) : py_min3 x x y = py_min x y.
Proof.
  unfold py_min3. f_equal. unfold py_min.
  destruct (decide (x < x)); reflexivity.
Qed.

Lemma py_abs_zero : py_abs 0 = 0.
Proof. reflexivity. Qed.

(** The guarded half of the degenerate-input handling: with the stop at
    the entry price the stop distance is zero, the risk cap falls back to
    the adjusted size, and the value returned is the smaller of the
    adjusted size and the position cap. *)
Lemma zero_stop_distance_unconstrained (self : t) (account_equity : Qc)
    (sig : signal) (vol : volatility) (risk_mult : Qc) :
  account_equity <> 0 ->
  entry_price sig <> 0 ->
  stop_loss sig = entry_price sig ->
  exists r,
    calculate_position_size self account_equity sig vol risk_mult = Ok r
    /\ stop_distance_pct (details r) = 0
    /\ max_risk_limit (details r) = adjusted_size r
    /\ position_value r = py_min (adjusted_size r) (max_position_limit (details r))
    /\ risk_amount r = 0.
Proof.
  intros He Hp Hs. unfold calculate_position_size.
  destruct (volatility_multiplier_returns vol) as [m ->]. rewrite rbind_ok.
  rewrite Hs.
  replace (entry_price sig - entry_price sig) with (Q2Qc 0) by ring.
  rewrite py_abs_zero.
  rewrite (py_div_ok _ (entry_price sig)) by exact Hp. rewrite rbind_ok.
  replace (0 / entry_price sig) with (Q2Qc 0) by (field; exact Hp).
  destruct (decide (0 < 0)) as [Habs | _]; [exfalso; exact (Qc_pos_nonzero _ Habs eq_refl) |].
  rewrite rbind_ok.
  rewrite (py_div_ok _ (entry_price sig)) by exact Hp. rewrite rbind_ok.
  rewrite !(py_div_ok _ account_equity) by exact He. rewrite !rbind_ok.
  eexists. split; [reflexivity |].
  cbn [stop_distance_pct details max_risk_limit adjusted_size position_value
       max_position_limit risk_amount].
  rewrite py_min_same. repeat split; ring.
Qed.

(** The unguarded half: a zero entry price is divided by. *)
Lemma zero_entry_raises (self : t) (account_equity : Qc) (sig : signal)
    (vol : volatility) (risk_mult : Qc) :
  entry_price sig = 0 ->
  calculate_position_size self account_equity sig vol risk_mult
  = Raise ZeroDivisionError.
Proof.
  intros Hp. unfold calculate_position_size.
  destruct (volatility_multiplier_returns vol) as [m ->]. rewrite rbind_ok.
  rewrite Hp, py_div_zero. reflexivity.
Qed.

(** So is a zero equity, by the log message built before the return. *)
Lemma zero_equity_raises (self : t) (sig : signal) (vol : volatility)
    (risk_mult : Qc) :
  entry_price sig <> 0 ->
  calculate_position_size self 0 sig vol risk_mult = Raise ZeroDivisionError.
Proof.
  intros Hp. unfold calculate_position_size.
  destruct (volatility_multiplier_returns vol) as [m ->]. rewrite rbind_ok.
  rewrite (py_div_ok _ (entry_price sig)) by exact Hp. rewrite rbind_ok.
  destruct (decide (0 < _)) as [Hsd | Hsd].
  - rewrite (py_div_ok _ _ (Qc_pos_nonzero _ Hsd)). rewrite rbind_ok.
    rewrite (py_div_ok _ (entry_price sig)) by exact Hp. rewrite rbind_ok.
    rewrite py_div_zero. reflexivity.
  - rewrite rbind_ok.
    rewrite (py_div_ok _ (entry_price sig)) by exact Hp. rewrite rbind_ok.
    rewrite py_div_zero. reflexivity.
Qed.

(** C7.  The claim is that [calculate_position_size] never raises on
    degenerate numbers and divides by nothing that is zero.  On the
    scenario account with entry price and stop both 0 the code raises
    [ZeroDivisionError]: the stop distance is [abs(entry - stop) / entry]
    and nothing tests [entry]. *)
Theorem zero_entry_price_divides_by_zero :
  calculate_position_size scenario_sizer (Q2Qc 10000) zero_entry_signal
    scenario_volatility (Q2Qc 1.0) = Raise ZeroDivisionError.
Proof. apply zero_entry_raises. reflexivity. Qed.

End PositionSizerProps.

(** ** RiskManager *)

Module RiskManagerProps.
Import RiskManager.

Lemma rbind_raise {A B : Type} (e : exn) (k : A -> result B) :
  (Raise e ≫= k) = Raise e.
Proof. reflexivity. Qed.

Lemma check_sentiment_keeps (self : t) (now : Qc) (s : option sentiment_reading) :
  cfg (_check_sentiment self now s).2 = cfg self
  /\ is_paused (_check_sentiment self now s).2 = is_paused self
  /\ max_equity (_check_sentiment self now s).2 = max_equity self.
Proof.
  unfold _check_sentiment.
  destruct (dict_truthy s); [| destruct (_ && _)];
    repeat case_decide; cbn; auto.
Qed.

Lemma check_liquidation_returns (self : t) (acct : account_info)
    (positions : option (list open_position)) :
  exists r, _check_liquidation_risk self acct positions = Ok r.
Proof.
  unfold _check_liquidation_risk.
  destruct (_ || _); [eauto |].
  destruct (decide (0 < get_or (total acct) 0)) as [Ht | Ht].
  - rewrite py_div_ok by (apply Qc_pos_nonzero; exact Ht). rewrite rbind_ok.
    repeat case_decide; eauto.
  - rewrite rbind_ok. repeat case_decide; eauto.
Qed.

(** What the drawdown gate does to the manager: it pauses exactly when it
    rejects, and it rejects exactly when the drawdown it measured has
    reached [max_drawdown]. *)
Lemma check_drawdown_spec (self : t) (acct : account_info) :
  exists r self',
    _check_drawdown self acct = Ok (r, self')
    /\ cfg self' = cfg self
    /\ (max_drawdown_of self <= d_drawdown r ->
        d_approved r = false /\ d_reason r = MaxDrawdownReached (d_drawdown r)
        /\ is_paused self' = true)
    /\ (~ max_drawdown_of self <= d_drawdown r ->
        d_approved r = true /\ is_paused self' = is_paused self)
    /\ (forall dd, d_reason r = MaxDrawdownReached dd ->
        max_drawdown_of self <= dd /\ is_paused self' = true).
Proof.
  unfold _check_drawdown, max_drawdown_of.
  set (tot := get_or (total acct) 0).
  set (self0 := if decide (max_equity self < tot) then set_max_equity self tot else self).
  assert (Hcfg : cfg self0 = cfg self) by (subst self0; case_decide; reflexivity).
  assert (Hp : is_paused self0 = is_paused self) by (subst self0; case_decide; reflexivity).
  assert (Hd : exists dd,
    (if decide (0 < max_equity self0)
     then py_div (max_equity self0 - tot) (max_equity self0) else Ok (Q2Qc 0.0)) = Ok dd).
  { case_decide as Hm; [| eauto].
    rewrite py_div_ok by (apply Qc_pos_nonzero; exact Hm). eauto. }
  destruct Hd as [dd ->]. rewrite rbind_ok. rewrite Hcfg.
  case_decide as Hmax.
  - do 2 eexists. split; [reflexivity |]. cbn.
    split; [exact Hcfg |]. split; [intros _; auto |].
    split; [intros Hn; contradiction |].
    intros dd' [= <-]. auto.
  - do 2 eexists. split; [reflexivity |]. cbn.
    split; [exact Hcfg |]. split; [intros Hn; contradiction |].
    split; [intros _; auto |].
    intros dd' Hr. discriminate Hr.
Qed.

Lemma check_balance_returns (acct : account_info) :
  exists r, _check_account_balance acct = Ok r
            /\ forall dd, b_reason r <> MaxDrawdownReached dd.
Proof.
  unfold _check_account_balance.
  destruct (bool_decide (0 < get_or (total acct) 0)) eqn:Ht; cbn [andb].
  - apply bool_decide_eq_true in Ht. pose proof (Qc_pos_nonzero _ Ht) as H0.
    destruct (bool_decide (_ < _ * Q2Qc 0.10)).
    + rewrite py_div_ok by exact H0. rewrite rbind_ok. eexists; split; [reflexivity |].
      intros dd; cbn; discriminate.
    + destruct (bool_decide _).
      * rewrite py_div_ok by exact H0. rewrite rbind_ok. eexists; split; [reflexivity |].
        intros dd; cbn; discriminate.
      * rewrite rbind_ok. eexists; split; [reflexivity |]. intros dd; cbn; discriminate.
  - rewrite rbind_ok. eexists; split; [reflexivity |]. intros dd; cbn; discriminate.
Qed.

Lemma liquidation_reason (self : t) (acct : account_info)
    (positions : option (list open_position)) (r : liquidation_result) (dd : Qc) :
  _check_liquidation_risk self acct positions = Ok r ->
  l_reason r <> MaxDrawdownReached dd.
Proof.
  unfold _check_liquidation_risk.
  destruct (_ || _); [intros [= <-]; cbn; discriminate |].
  destruct (if decide (0 < get_or (total acct) 0) then _ else _) as [rr | e];
    [rewrite rbind_ok | rewrite rbind_raise; discriminate].
  repeat case_decide; intros [= <-]; cbn; discriminate.
Qed.

(** The gates after the sentiment gate always return; when the decision
    carries the drawdown reason, the manager has been paused. *)
Lemma gates_after_sentiment_spec (self : t) (acct : account_info)
    (positions : option (list open_position)) (m : Qc) (ws : list msg) :
  exists d self',
    gates_after_sentiment self acct positions m ws = Ok (d, self')
    /\ forall dd, reason d = MaxDrawdownReached dd ->
         max_drawdown_of self <= dd /\ is_paused self' = true.
Proof.
  unfold gates_after_sentiment.
  destruct (check_liquidation_returns self acct positions) as [liq Hl].
  rewrite Hl, rbind_ok.
  destruct (l_approved liq); cbn [negb].
  2:{ do 2 eexists. split; [reflexivity |]. cbn. intros dd Hr.
      exfalso. exact (liquidation_reason _ _ _ _ dd Hl Hr). }
  destruct (check_drawdown_spec self acct) as (dr & self' & Hdr & _ & _ & _ & Hreason).
  destruct (decide (Q2Qc 0.10 < l_risk_rate liq));
    rewrite Hdr, rbind_ok; cbn [negb];
    (destruct (d_approved dr) eqn:Hda; cbn [negb];
     [ destruct (check_balance_returns acct) as (br & -> & Hbr); rewrite rbind_ok;
       destruct (b_approved br); cbn [negb];
       do 2 eexists; (split; [reflexivity |]); cbn; intros dd Hr;
       [ discriminate Hr | exfalso; exact (Hbr dd Hr) ]
     | do 2 eexists; (split; [reflexivity |]); cbn; exact Hreason ]).
Qed.

Lemma sentiment_reason (self : t) (now : Qc) (s : option sentiment_reading) (dd : Qc) :
  s_reason (_check_sentiment self now s).1 <> MaxDrawdownReached dd.
Proof.
  unfold _check_sentiment.
  destruct (dict_truthy s); [| destruct (_ && _)];
    repeat case_decide; cbn; discriminate.
Qed.

(** [validate_signal] always returns.  On a paused manager it returns the
    pause rejection and writes nothing; and it carries the drawdown reason
    only when the drawdown gate has just paused the manager. *)
Lemma validate_signal_spec (self : t) (now : Qc) (sig : signal) (acct : account_info)
    (positions : option (list open_position)) (s : option sentiment_reading) :
  exists d self',
    validate_signal self now sig acct positions s = Ok (d, self')
    /\ (is_paused self = true ->
        d = rejected (TradingPaused (pause_reason self)) [] /\ self' = self)
    /\ (forall dd, reason d = MaxDrawdownReached dd ->
        max_drawdown_of self <= dd /\ is_paused self' = true).
Proof.
  unfold validate_signal.
  destruct (is_paused self) eqn:Hp.
  { do 2 eexists. split; [reflexivity |]. split; [auto |]. cbn. discriminate. }
  assert (Hrest : forall self0 m ws, cfg self0 = cfg self ->
    exists d self',
      gates_after_sentiment self0 acct positions m ws = Ok (d, self')
      /\ (false = true -> d = rejected (TradingPaused (pause_reason self)) [] /\ self' = self)
      /\ (forall dd, reason d = MaxDrawdownReached dd ->
          max_drawdown_of self <= dd /\ is_paused self' = true)).
  { intros self0 m ws Hc.
    destruct (gates_after_sentiment_spec self0 acct positions m ws) as (d & self' & -> & H).
    exists d, self'. split; [reflexivity |]. split; [discriminate |].
    unfold max_drawdown_of in *. rewrite <- Hc. exact H. }
  destruct (sentiment_enabled self && bool_decide (direction sig = "buy")).
  2:{ apply Hrest. reflexivity. }
  pose proof (check_sentiment_keeps self now s) as (Hc & _ & _).
  pose proof (sentiment_reason self now s) as Hr.
  destruct (_check_sentiment self now s) as [sr self0]. cbn [fst snd] in *.
  destruct (s_approved sr); cbn [negb].
  - case_decide; apply Hrest; exact Hc.
  - do 2 eexists. split; [reflexivity |]. split; [discriminate |].
    cbn. intros dd Hd. exfalso. exact (Hr dd Hd).
Qed.

Lemma rejected_is_rejection (why : msg) (ws : list msg) : is_rejection (rejected why ws).
Proof. split; reflexivity. Qed.

(** Every call on a paused manager is rejected with multiplier 0 and
    leaves the manager paused. *)
Lemma paused_stays_paused (self : t) (calls : list call) :
  is_paused self = true ->
  exists ds,
    evaluate_all self calls = Ok (ds, self)
    /\ length ds = length calls
    /\ Forall is_rejection ds.
Proof.
  intros Hp. induction calls as [| c calls IH].
  - exists []. repeat split; constructor.
  - destruct IH as (ds & Hds & Hlen & Hrej).
    destruct (validate_signal_spec self (c_now c) (c_signal c) (c_account c)
                (c_positions c) (c_sentiment c)) as (d & self' & Hv & Hpaused & _).
    destruct (Hpaused Hp) as [-> ->].
    exists (rejected (TradingPaused (pause_reason self)) [] :: ds).
    cbn [evaluate_all]. unfold evaluate. rewrite Hv, rbind_ok. cbn beta iota.
    rewrite Hds, rbind_ok. cbn beta iota.
    repeat split.
    + cbn. congruence.
    + constructor; [apply rejected_is_rejection | exact Hrej].
Qed.

(** C1.  When a [validate_signal] call rejects for drawdown (it measured a
    drawdown [dd] that has reached [max_drawdown]), the manager is paused;
    every later call, whatever its signal, account, positions and
    sentiment, returns [approved = false] with multiplier 0 and leaves the
    manager paused; only [resume_trading] clears the flag. *)
Theorem sticky_pause (self : t) (c : call) (d : decision) (self1 : t) (dd : Qc)
    (calls : list call) :
  evaluate self c = Ok (d, self1) ->
  reason d = MaxDrawdownReached dd ->
  max_drawdown_of self <= dd
  /\ is_rejection d
  /\ is_paused self1 = true
  /\ exists ds self2,
       evaluate_all self1 calls = Ok (ds, self2)
       /\ length ds = length calls
       /\ Forall is_rejection ds
       /\ is_paused self2 = true
       /\ is_paused (resume_trading self2) = false.
Proof.
  intros He Hr. unfold evaluate in He.
  destruct (validate_signal_spec self (c_now c) (c_signal c) (c_account c)
              (c_positions c) (c_sentiment c)) as (d' & self' & Hv & _ & Hdd).
  rewrite Hv in He. injection He as -> ->.
  destruct (Hdd dd Hr) as [Hmax Hp].
  split; [exact Hmax |].
  split.
  { revert Hv Hr. unfold validate_signal.
    destruct (is_paused self); [intros [= <- _]; discriminate |].
    assert (Hg : forall s0 m ws, gates_after_sentiment s0 (c_account c) (c_positions c) m ws
                   = Ok (d, self1) -> reason d = MaxDrawdownReached dd -> is_rejection d).
    { intros s0 m ws. unfold gates_after_sentiment.
      destruct (check_liquidation_returns s0 (c_account c) (c_positions c)) as [liq ->].
      rewrite rbind_ok. destruct (l_approved liq); cbn [negb];
        [| intros [= <- _] _; apply rejected_is_rejection].
      destruct (check_drawdown_spec s0 (c_account c)) as (dr & s1 & Hdr & _).
      case_decide; rewrite Hdr, rbind_ok;
        (destruct (d_approved dr); cbn [negb];
         [| intros [= <- _] _; apply rejected_is_rejection]);
        destruct (check_balance_returns (c_account c)) as (br & -> & _);
        rewrite rbind_ok; (destruct (b_approved br); cbn [negb];
         [intros [= <- _]; cbn; discriminate
         | intros [= <- _] _; apply rejected_is_rejection]). }
    destruct (_ && _); [| apply Hg].
    destruct (_check_sentiment _ _ _) as [sr s0].
    destruct (s_approved sr); cbn [negb];
      [case_decide; apply Hg | intros [= <- _] _; apply rejected_is_rejection]. }
  split; [exact Hp |].
  destruct (paused_stays_paused self1 calls Hp) as (ds & Hds & Hlen & Hrej).
  exists ds, self1. repeat split; auto.
Qed.

Lemma sticky_pause_witness :
  exists d self1 dd,
    evaluate scenario_manager scenario_call = Ok (d, self1)
    /\ reason d = MaxDrawdownReached dd
    /\ dd = Q2Qc 0.16
    /\ max_drawdown_of scenario_manager <= dd
    /\ is_rejection d
    /\ is_paused self1 = true
    /\ exists ds self2,
         evaluate_all self1 [healthy_call; scenario_call] = Ok (ds, self2)
         /\ length ds = length [healthy_call; scenario_call]
         /\ Forall is_rejection ds
         /\ is_paused self2 = true
         /\ is_paused (resume_trading self2) = false.
Proof.
  do 3 eexists.
  split; [vm_compute; reflexivity |].
  split; [reflexivity |].
  split; [apply Qc_eq_by_compute; vm_compute; reflexivity |].
  apply (sticky_pause scenario_manager scenario_call);
    [vm_compute; reflexivity | reflexivity].
Defined.

(** The forward reading of the trigger: a drawdown gate that measures a
    drawdown at or above [max_drawdown] rejects and pauses. *)
Lemma drawdown_observed_pauses (self : t) (acct : account_info)
    (r : drawdown_result) (self' : t) :
  _check_drawdown self acct = Ok (r, self') ->
  max_drawdown_of self <= d_drawdown r ->
  d_approved r = false /\ is_paused self' = true.
Proof.
  intros Hc Hm.
  destruct (check_drawdown_spec self acct) as (r0 & s0 & H0 & _ & Hyes & _).
  rewrite H0 in Hc. injection Hc as <- <-.
  destruct (Hyes Hm) as (Ha & _ & Hp). auto.
Qed.

(** C6.  The claim is that an approved buy with [fud_ratio > 0.30]
    carries the high-FUD warning.  Here [_check_sentiment] approves and
    builds the warning, and [validate_signal] approves with an empty
    warnings list: it reads the score of the sentiment result and never
    its warnings. *)
Theorem high_fud_warning_dropped :
  s_approved (_check_sentiment fud_manager (Q2Qc 0) fud_reading).1 = true
  /\ s_warnings (_check_sentiment fud_manager (Q2Qc 0) fud_reading).1
     = [HighFudRatio (Q2Qc 0.5)]
  /\ exists d self',
       validate_signal fud_manager (Q2Qc 0) fud_signal fud_account None fud_reading
       = Ok (d, self')
       /\ approved d = true
       /\ warnings d = [].
Proof.
  split; [vm_compute; reflexivity |].
  split; [vm_compute; reflexivity |].
  do 2 eexists. split; [vm_compute; reflexivity |].
  split; reflexivity.
Qed.

Lemma no_fud_app (ws1 ws2 : list msg) :
  no_fud_warning ws1 -> no_fud_warning ws2 -> no_fud_warning (ws1 ++ ws2).
Proof. intros H1 H2 f Hf. apply elem_of_app in Hf as [Hf | Hf]; [eapply H1 | eapply H2]; eauto. Qed.

Lemma no_fud_nil : no_fud_warning [].
Proof. intros f Hf. inversion Hf. Qed.

Lemma no_fud_one (m : msg) : (forall f, m <> HighFudRatio f) -> no_fud_warning [m].
Proof.
  intros Hm f Hf. apply list_elem_of_singleton in Hf. exact (Hm f (eq_sym Hf)).
Qed.

Create HintDb no_fud.
#[local] Hint Resolve no_fud_app no_fud_nil : no_fud.
#[local] Hint Extern 1 (no_fud_warning [_]) =>
  (apply no_fud_one; intros; discriminate) : no_fud.

Lemma liquidation_warnings_no_fud (self : t) (acct : account_info)
    (positions : option (list open_position)) (r : liquidation_result) :
  _check_liquidation_risk self acct positions = Ok r -> no_fud_warning (l_warnings r).
Proof.
  unfold _check_liquidation_risk.
  destruct (_ || _); [intros [= <-]; cbn; auto with no_fud |].
  destruct (if decide (0 < get_or (total acct) 0) then _ else _) as [rr | e];
    [rewrite rbind_ok | rewrite rbind_raise; discriminate].
  repeat case_decide; intros [= <-]; cbn; auto with no_fud.
Qed.

Lemma drawdown_warnings_no_fud (self : t) (acct : account_info)
    (r : drawdown_result) (self' : t) :
  _check_drawdown self acct = Ok (r, self') -> no_fud_warning (d_warnings r).
Proof.
  unfold _check_drawdown.
  destruct (if decide (0 < max_equity _) then _ else _) as [dd | e];
    [rewrite rbind_ok | rewrite rbind_raise; discriminate].
  repeat case_decide; intros [= <- _]; cbn; auto with no_fud.
Qed.

Lemma gates_after_sentiment_no_fud (self : t) (acct : account_info)
    (positions : option (list open_position)) (m : Qc) (ws : list msg)
    (d : decision) (self' : t) :
  no_fud_warning ws ->
  gates_after_sentiment self acct positions m ws = Ok (d, self') ->
  no_fud_warning (warnings d).
Proof.
  intros Hws. unfold gates_after_sentiment.
  destruct (_check_liquidation_risk self acct positions) as [liq | e] eqn:Hl;
    [rewrite rbind_ok | rewrite rbind_raise; discriminate].
  pose proof (liquidation_warnings_no_fud _ _ _ _ Hl) as Hlw.
  destruct (l_approved liq); cbn [negb]; [| intros [= <- _]; exact Hlw].
  destruct (_check_drawdown self acct) as [[dr s1] | e] eqn:Hd.
  2:{ case_decide; rewrite rbind_raise; discriminate. }
  pose proof (drawdown_warnings_no_fud _ _ _ _ Hd) as Hdw.
  case_decide; rewrite rbind_ok;
    (destruct (d_approved dr); cbn [negb]; [| intros [= <- _]; exact Hdw]);
    (destruct (_check_account_balance acct) as [br | e];
     [rewrite rbind_ok | rewrite rbind_raise; discriminate]);
    destruct (b_approved br); cbn [negb]; intros [= <- _]; cbn; auto 6 with no_fud.
Qed.

(** The defect in general: no decision of [validate_signal] ever carries
    the high-FUD warning, whatever the reading. *)
Lemma high_fud_never_reported (self : t) (now : Qc) (sig : signal)
    (acct : account_info) (positions : option (list open_position))
    (s : option sentiment_reading) (d : decision) (self' : t) :
  validate_signal self now sig acct positions s = Ok (d, self') ->
  no_fud_warning (warnings d).
Proof.
  unfold validate_signal.
  destruct (is_paused self); [intros [= <- _]; cbn; auto with no_fud |].
  destruct (_ && _); [| apply gates_after_sentiment_no_fud; auto with no_fud].
  assert (Hrej : s_approved (_check_sentiment self now s).1 = false ->
                 no_fud_warning (s_warnings (_check_sentiment self now s).1)).
  { unfold _check_sentiment.
    destruct (dict_truthy s); [| destruct (_ && _)];
      repeat case_decide; cbn; intros; auto with no_fud; discriminate. }
  destruct (_check_sentiment self now s) as [sr s0]. cbn [fst] in Hrej.
  destruct (s_approved sr); cbn [negb].
  - case_decide; apply gates_after_sentiment_no_fud; auto with no_fud.
  - intros [= <- _]. cbn. auto.
Qed.

End RiskManagerProps.

(** ** StopLossManager *)

Module StopLossProps.
Import StopLossManager.

Lemma profit_means_above (p e a : Qc) :
  0 < e -> 0 < a -> a <= (p - e) / e -> e < p.
Proof.
  intros He Ha Hpnl.
  assert (H0 : 0 < (p - e) / e) by (eapply Qclt_le_trans; eauto).
  apply (Qcmult_lt_compat_r _ _ e He) in H0.
  replace (0 * e) with (Q2Qc 0) in H0 by ring.
  replace ((p - e) / e * e) with (p - e) in H0 by (field; apply Qc_pos_nonzero; exact He).
  apply (Qcplus_lt_mono_r _ _ (- e)).
  replace (e + - e) with (Q2Qc 0) by ring. exact H0.
Qed.

Lemma profit_means_below (p e a : Qc) :
  0 < e -> 0 < a -> a <= (e - p) / e -> p < e.
Proof.
  intros He Ha Hpnl.
  assert (H0 : 0 < (e - p) / e) by (eapply Qclt_le_trans; eauto).
  apply (Qcmult_lt_compat_r _ _ e He) in H0.
  replace (0 * e) with (Q2Qc 0) in H0 by ring.
  replace ((e - p) / e * e) with (e - p) in H0 by (field; apply Qc_pos_nonzero; exact He).
  apply (Qcplus_lt_mono_r _ _ (- p)).
  replace (p + - p) with (Q2Qc 0) by ring. exact H0.
Qed.

Ltac stop_field Hact :=
  cbn [trailing_activated trailing_stop highest_price lowest_price entry_price side
       set_activated set_highest set_lowest];
  unfold trailing_target;
  cbn [trailing_activated trailing_stop highest_price lowest_price entry_price side
       set_activated set_highest set_lowest];
  try rewrite Hact;
  intros;
  rewrite ?decide_True by assumption;
  rewrite ?decide_False by assumption;
  first [ discriminate | contradiction | assumption | reflexivity
        | apply Qcle_refl | apply Qclt_le_weak; assumption
        | split; assumption ].

Lemma track_preserves (self : t) (si : stop_info) (price : Qc) :
  0 < trailing_activation_pct self ->
  tracked_ok self si ->
  tracked_ok self (track self si price (pnl_of si price))
  /\ step_ok self si (track self si price (pnl_of si price)).
Proof.
  intros Ha [He Hidle Htr]. unfold track, pnl_of.
  destruct (trailing_activated si) eqn:Hact.
  - (* already trailing *)
    rewrite andb_false_r. rewrite Hact.
    specialize (Htr eq_refl). unfold trailing_target in Htr.
    destruct (decide (side si = "buy")) as [Hs | Hs].
    + destruct (decide (highest_price si < price)) as [Hh | Hh];
        split; constructor; stop_field Hact.
    + destruct (decide (price < lowest_price si)) as [Hl | Hl];
        split; constructor; stop_field Hact.
  - (* not yet trailing: both extremes are still the entry price *)
    destruct (Hidle eq_refl) as [Hhi Hlo]. cbn [negb]. rewrite andb_true_r.
    destruct (trailing_enabled self); cbn [andb].
    2:{ rewrite Hact. split; constructor; stop_field Hact. }
    destruct (decide (side si = "buy")) as [Hs | Hs].
    + destruct (decide (trailing_activation_pct self <= _)) as [Hp | Hp].
      * pose proof (profit_means_above _ _ _ He Ha Hp) as Habove.
        rewrite <- Hhi in Habove.
        cbn [trailing_activated set_activated side highest_price].
        rewrite decide_True by exact Hs.
        rewrite decide_True by exact Habove.
        split; constructor; stop_field Hact.
      * rewrite Hact. split; constructor; stop_field Hact.
    + destruct (decide (trailing_activation_pct self <= _)) as [Hp | Hp].
      * pose proof (profit_means_below _ _ _ He Ha Hp) as Hbelow.
        rewrite <- Hlo in Hbelow.
        cbn [trailing_activated set_activated side lowest_price].
        rewrite decide_False by exact Hs.
        rewrite decide_True by exact Hbelow.
        split; constructor; stop_field Hact.
      * rewrite Hact. split; constructor; stop_field Hact.
Qed.

Lemma tracked_ok_set_stops (self : t) (m : gmap string stop_info) (si : stop_info) :
  tracked_ok self si <-> tracked_ok (set_stops self m) si.
Proof. split; intros [He Hi Ht]; constructor; auto. Qed.

Lemma step_ok_set_stops (self : t) (m : gmap string stop_info) (si si' : stop_info) :
  step_ok self si si' -> step_ok (set_stops self m) si si'.
Proof. intros [H1 H2 H3 H4]; constructor; auto. Qed.

(** An update of a tracked symbol whose entry price is not zero returns,
    and stores the dict that [track] computes. *)
Lemma update_tracked (self : t) (symbol : string) (price : Qc) (si : stop_info) :
  position_stops self !! symbol = Some si ->
  entry_price si <> 0 ->
  update_stop_loss self symbol price
  = Ok (trigger (track self si price (pnl_of si price)) price (pnl_of si price),
        set_stops self (<[symbol := track self si price (pnl_of si price)]>
                          (position_stops self))).
Proof.
  intros Hl He. unfold update_stop_loss, pnl_of. rewrite Hl.
  destruct (decide (side si = "buy")); rewrite py_div_ok by exact He; reflexivity.
Qed.

(** An update of a symbol that is not tracked returns the bare
    non-triggered dict and writes nothing. *)
Lemma update_untracked (self : t) (symbol : string) (price : Qc) :
  position_stops self !! symbol = None ->
  update_stop_loss self symbol price
  = Ok ({| stop_triggered := false; stop_price := None; stop_kind := None;
           info := None; current_price := None; pnl_pct := None |}, self).
Proof. intros Hl. unfold update_stop_loss. rewrite Hl. reflexivity. Qed.

Lemma apply_op_ok (self : t) (o : op) :
  0 < trailing_activation_pct self ->
  all_tracked_ok self ->
  valid_op o ->
  all_tracked_ok (apply_op self o)
  /\ trailing_activation_pct (apply_op self o) = trailing_activation_pct self.
Proof.
  intros Ha Hall Hv. destruct o as [symbol pos strategy | symbol price | symbol].
  - (* Initialize *)
    cbn [apply_op initialize_stop_loss snd]. split; [| reflexivity].
    intros sym si Hl. cbn [position_stops set_stops] in Hl.
    apply tracked_ok_set_stops.
    destruct (decide (symbol = sym)) as [-> | Hne].
    + rewrite lookup_insert_eq in Hl. injection Hl as <-.
      constructor; cbn; [exact Hv | auto | discriminate].
    + rewrite lookup_insert_ne in Hl by exact Hne. exact (Hall _ _ Hl).
  - (* Update *)
    cbn [apply_op].
    destruct (position_stops self !! symbol) as [si |] eqn:Hl.
    + pose proof (Hall _ _ Hl) as Hok.
      rewrite (update_tracked self symbol price si Hl)
        by (apply Qc_pos_nonzero; exact (ok_entry _ _ Hok)).
      split; [| reflexivity].
      intros sym si' Hl'. cbn [position_stops set_stops] in Hl'.
      apply tracked_ok_set_stops.
      destruct (decide (symbol = sym)) as [-> | Hne].
      * rewrite lookup_insert_eq in Hl'. injection Hl' as <-.
        exact (proj1 (track_preserves self si price Ha Hok)).
      * rewrite lookup_insert_ne in Hl' by exact Hne. exact (Hall _ _ Hl').
    + rewrite (update_untracked self symbol price Hl). auto.
  - (* Remove *)
    cbn [apply_op remove_stop_loss]. split; [| reflexivity].
    intros sym si Hl. unfold remove_stop_loss in *.
    cbn [position_stops set_stops] in Hl.
    apply tracked_ok_set_stops.
    apply lookup_delete_Some in Hl as [_ Hl]. exact (Hall _ _ Hl).
Qed.

Lemma foldl_ok (ops : list op) (self : t) :
  0 < trailing_activation_pct self ->
  all_tracked_ok self ->
  Forall valid_op ops ->
  all_tracked_ok (foldl apply_op self ops)
  /\ 0 < trailing_activation_pct (foldl apply_op self ops).
Proof.
  induction ops as [| o ops IH] in self |- *; intros Ha Hall Hv; [auto |].
  inversion Hv as [| ? ? Ho Hrest]; subst. cbn [foldl].
  destruct (apply_op_ok self o Ha Hall Ho) as [Hall' Ha'].
  apply IH; [rewrite Ha'; exact Ha | exact Hall' | exact Hrest].
Qed.

(** C3, as amended.  On every manager reached from [init] by any run of
    calls, provided the activation threshold is positive and every
    position was opened at a positive entry price, each update of a
    tracked symbol keeps activation, moves the extreme price only
    favourably, and leaves an activated trailing stop at the trailing
    distance from the extreme. *)
Theorem stop_tracking_invariant (c : config) (ops : list op) (symbol : string)
    (price : Qc) :
  0 < trailing_activation_pct (init c) ->
  Forall valid_op ops ->
  tracking_holds (run c ops) symbol price.
Proof.
  intros Ha Hv si Hl. unfold run in *.
  assert (Hinit : all_tracked_ok (init c)).
  { intros sym si0 H0. cbn in H0. rewrite lookup_empty in H0. discriminate. }
  destruct (foldl_ok ops (init c) Ha Hinit Hv) as [Hall Ha'].
  set (self := foldl apply_op (init c) ops) in *.
  pose proof (Hall _ _ Hl) as Hok.
  rewrite (update_tracked self symbol price si Hl)
    by (apply Qc_pos_nonzero; exact (ok_entry _ _ Hok)).
  do 3 eexists. split; [reflexivity |].
  split; [cbn [position_stops set_stops]; apply lookup_insert_eq |].
  apply step_ok_set_stops. exact (proj2 (track_preserves self si price Ha' Hok)).
Qed.

(** C3 as stated fails when the activation threshold is 0.  A tick at
    the entry price itself activates trailing (profit 0 reaches the
    threshold) without being a new high, so the trailing stop is still
    the fixed stop 98 and not 100 * (1 - 0.01) = 99. *)
Lemma stop_tracking_counterexample :
  ~ tracking_holds (run eager_config [long_at_100]) "BTCUSDT" (Q2Qc 100).
Proof.
  intros H.
  assert (Hl : position_stops (run eager_config [long_at_100]) !! "BTCUSDT"
               = Some long_at_100_info) by apply lookup_insert_eq.
  destruct (H _ Hl) as (r & self' & si' & Hu & Hl' & Hstep).
  rewrite (update_tracked _ _ _ _ Hl) in Hu
    by (apply Qc_neq_by_compute; vm_compute; reflexivity).
  injection Hu as _ <-.
  cbn [position_stops set_stops] in Hl'. rewrite lookup_insert_eq in Hl'.
  injection Hl' as <-.
  pose proof (step_trailing _ _ _ Hstep) as Ht.
  assert (Hact : trailing_activated
                   (track (run eager_config [long_at_100]) long_at_100_info (Q2Qc 100)
                      (pnl_of long_at_100_info (Q2Qc 100))) = true)
    by (vm_compute; reflexivity).
  specialize (Ht Hact).
  revert Ht. apply Qc_neq_by_compute. vm_compute. reflexivity.
Qed.

Lemma stop_tracking_invariant_witness :
  0 < trailing_activation_pct (init default_config)
  /\ Forall valid_op trailing_run
  /\ tracking_holds (run default_config trailing_run) "BTCUSDT" (Q2Qc 103.9).
Proof.
  assert (Ha : 0 < trailing_activation_pct (init default_config)) by reflexivity.
  assert (Hv : Forall valid_op trailing_run)
    by (repeat constructor).
  split; [exact Ha |]. split; [exact Hv |].
  exact (stop_tracking_invariant default_config trailing_run "BTCUSDT" (Q2Qc 103.9) Ha Hv).
Defined.

(** Scenario 2 of the specification, run on the code: entry 100,
    activation and distance 1%; 102 activates with the stop at 100.98,
    105 lifts it to 103.95, and 103.9 triggers the trailing stop. *)
Example trailing_scenario :
  exists r self',
    update_stop_loss (run default_config trailing_run) "BTCUSDT" (Q2Qc 103.9)
    = Ok (r, self')
    /\ (trailing_stop <$> (position_stops (run default_config (take 2 trailing_run))
                             !! "BTCUSDT")) = Some (Q2Qc 100.98)
    /\ stop_triggered r = true
    /\ stop_kind r = Some Trailing
    /\ stop_price r = Some (Q2Qc 103.95).
Proof.
  do 2 eexists. split; [vm_compute; reflexivity |].
  split; [vm_compute; f_equal; apply Qc_is_canon; reflexivity |].
  split; [reflexivity |]. split; [reflexivity |].
  cbn. f_equal; try (apply Qc_is_canon; reflexivity).
Qed.

End StopLossProps.

(** ** TakeProfitManager *)

Module TakeProfitProps.
Import TakeProfitManager.

Lemma of_nat_S (n : nat) : of_nat (S n) = of_nat n + 1.
Proof.
  unfold of_nat. apply Qc_is_canon. unfold Qcplus. cbn [this Q2Qc].
  rewrite !Qred_correct. rewrite Nat2Z.inj_succ. unfold Z.succ.
  rewrite inject_Z_plus. reflexivity.
Qed.

Lemma of_nat_pos (n : nat) : (0 < n)%nat -> 0 < of_nat n.
Proof.
  intros H. unfold of_nat, Qclt. cbn [this Q2Qc]. rewrite !Qred_correct.
  unfold Qlt, inject_Z. cbn. lia.
Qed.

Lemma py_sum_app (l k : list Qc) : py_sum (l ++ k) = py_sum l + py_sum k.
Proof.
  unfold py_sum. induction l as [| x l IH]; cbn [foldr app]; [ring |].
  rewrite IH. ring.
Qed.

Lemma py_sum_replicate (n : nat) (x : Qc) : py_sum (replicate n x) = of_nat n * x.
Proof.
  induction n as [| n IH];
    [change (of_nat 0) with (Q2Qc 0); unfold py_sum; cbn [replicate foldr]; ring |].
  rewrite of_nat_S. change (py_sum (replicate (S n) x)) with (x + py_sum (replicate n x)).
  rewrite IH. ring.
Qed.

Lemma py_sum_scale (q : Qc) (l : list Qc) :
  py_sum ((fun v => q * v) <$> l) = q * py_sum l.
Proof.
  unfold py_sum. induction l as [| x l IH]; cbn [foldr fmap list_fmap]; [ring |].
  rewrite IH. ring.
Qed.

Lemma py_sum_div (t : Qc) (l : list Qc) :
  t <> 0 -> py_sum ((fun v => v / t) <$> l) = py_sum l / t.
Proof.
  intros Ht. unfold py_sum.
  induction l as [| x l IH]; cbn [foldr fmap list_fmap]; [field; exact Ht |].
  rewrite IH. field. exact Ht.
Qed.

Lemma py_sum_nonneg (l : list Qc) : Forall (fun v => 0 <= v) l -> 0 <= py_sum l.
Proof.
  unfold py_sum. induction 1 as [| x l Hx Hl IH]; cbn [foldr]; [apply Qcle_refl |].
  apply Qcplus_nonneg_nonneg; assumption.
Qed.

Lemma mapM_div (t : Qc) (l : list Qc) :
  t <> 0 -> mapM (fun value => py_div value t) l = Ok ((fun v => v / t) <$> l).
Proof.
  intros Ht. induction l as [| x l IH]; [reflexivity |].
  change (mapM (fun value => py_div value t) (x :: l))
    with (y ← py_div x t; k ← mapM (fun value => py_div value t) l; mret (y :: k)).
  rewrite py_div_ok by exact Ht. rewrite rbind_ok, IH, rbind_ok. reflexivity.
Qed.

(** The list the code resizes to is the one the specification describes. *)
Lemma resized_is_pad_or_truncate (ratios : list Qc) (len : nat) (pad_value : Qc) :
  list.last ratios = Some pad_value ->
  (if decide (length ratios < len)%nat
   then ratios ++ replicate (len - length ratios) pad_value
   else if decide (len < length ratios)%nat then take len ratios else ratios)
  = pad_or_truncate ratios len.
Proof.
  intros Hlast. unfold pad_or_truncate. rewrite Hlast. cbn [default].
  destruct (decide (length ratios < len)%nat) as [Hlt | Hge].
  - rewrite take_ge; [reflexivity |]. rewrite length_app, length_replicate. lia.
  - replace (len - length ratios)%nat with 0%nat by lia.
    cbn [replicate]. rewrite app_nil_r.
    destruct (decide (len < length ratios)%nat); [reflexivity |].
    rewrite take_ge by lia. reflexivity.
Qed.

Lemma length_pad_or_truncate (ratios : list Qc) (len : nat) :
  length (pad_or_truncate ratios len) = len.
Proof.
  unfold pad_or_truncate. rewrite length_take, length_app, length_replicate. lia.
Qed.

Lemma pad_or_truncate_nonneg (ratios : list Qc) (len : nat) :
  Forall (fun r => 0 <= r) ratios -> Forall (fun r => 0 <= r) (pad_or_truncate ratios len).
Proof.
  intros H. unfold pad_or_truncate. apply Forall_take, Forall_app. split; [exact H |].
  apply Forall_replicate.
  destruct (list.last ratios) as [x |] eqn:Hl; cbn [default]; [| apply Qcle_refl].
  apply last_Some in Hl as [l' ->]. apply Forall_app in H as [_ H].
  inversion H; assumption.
Qed.

Lemma one_point_zero : Q2Qc 1.0 = 1.
Proof. qc_compute. Qed.

Lemma zero_point_zero : Q2Qc 0.0 = 0.
Proof. qc_compute. Qed.

Lemma of_nat_nonzero (n : nat) : n <> 0%nat -> of_nat n <> 0.
Proof. intros H. apply Qc_pos_nonzero, of_nat_pos. lia. Qed.

Lemma equal_weights_sum (n : nat) :
  n <> 0%nat -> py_sum (replicate n (1 / of_nat n)) = 1.
Proof.
  intros H. rewrite py_sum_replicate. field. apply of_nat_nonzero. exact H.
Qed.

Lemma div_nonneg (v t : Qc) : 0 <= v -> 0 < t -> 0 <= v / t.
Proof.
  intros Hv Ht. unfold Qcdiv. apply Qcmult_nonneg_nonneg; [exact Hv |].
  apply Qclt_le_weak, Qcinv_pos. exact Ht.
Qed.

Lemma nonneg_nonzero_pos (x : Qc) : 0 <= x -> x <> 0 -> 0 < x.
Proof.
  intros Hx Hne. destruct (Qcle_lt_or_eq _ _ Hx) as [H | H]; [exact H |].
  exfalso. apply Hne. symmetry. exact H.
Qed.

(** What [_match_length_and_normalize] returns, for a positive length. *)
Lemma normalize_spec (ratios : list Qc) (len : nat) :
  len <> 0%nat ->
  exists out,
    _match_length_and_normalize ratios len = Ok out
    /\ length out = len
    /\ py_sum out = 1
    /\ (ratios = [] \/ py_sum (pad_or_truncate ratios len) = 0 ->
        out = replicate len (1 / of_nat len))
    /\ (ratios <> [] -> py_sum (pad_or_truncate ratios len) <> 0 ->
        out = (fun v => v / py_sum (pad_or_truncate ratios len))
              <$> pad_or_truncate ratios len)
    /\ (Forall (fun r => 0 <= r) ratios -> Forall (fun r => 0 <= r) out).
Proof.
  intros Hlen. pose proof (of_nat_nonzero len Hlen) as Hn.
  assert (Hw : 0 <= 1 / of_nat len).
  { apply div_nonneg; [discriminate | apply of_nat_pos; lia]. }
  unfold _match_length_and_normalize.
  rewrite decide_False by exact Hlen.
  destruct (list.last ratios) as [pad_value |] eqn:Hlast.
  - assert (Hne : ratios <> []) by (intros ->; discriminate).
    rewrite (resized_is_pad_or_truncate _ _ _ Hlast).
    set (norm := pad_or_truncate ratios len).
    destruct (decide (py_sum norm = 0)) as [Hz | Hnz].
    + rewrite py_div_ok by exact Hn. rewrite rbind_ok, one_point_zero.
      eexists. split; [reflexivity |].
      split; [apply length_replicate |].
      split; [apply equal_weights_sum; exact Hlen |].
      split; [reflexivity |].
      split; [intros _ Hc; contradiction |].
      intros _. apply Forall_replicate. exact Hw.
    + rewrite mapM_div by exact Hnz.
      eexists. split; [reflexivity |].
      split; [rewrite length_fmap; apply length_pad_or_truncate |].
      split; [rewrite py_sum_div by exact Hnz; field; exact Hnz |].
      split; [intros [Hc | Hc]; contradiction |].
      split; [reflexivity |].
      intros Hpos. pose proof (pad_or_truncate_nonneg ratios len Hpos) as Hp.
      fold norm in Hp.
      assert (Ht : 0 < py_sum norm)
        by (apply nonneg_nonzero_pos; [apply py_sum_nonneg; exact Hp | exact Hnz]).
      apply Forall_fmap. revert Hp. apply Forall_impl.
      intros v Hv. cbn. apply div_nonneg; assumption.
  - assert (He : ratios = []) by (destruct ratios using rev_ind;
      [reflexivity | rewrite last_snoc in Hlast; discriminate]).
    rewrite py_sum_replicate, one_point_zero.
    replace (of_nat len * 1) with (of_nat len) by ring.
    rewrite decide_False by exact Hn.
    rewrite mapM_div by exact Hn. rewrite fmap_replicate.
    eexists. split; [reflexivity |].
    split; [apply length_replicate |].
    split; [apply equal_weights_sum; exact Hlen |].
    split; [reflexivity |].
    split; [intros Hc; contradiction |].
    intros _. apply Forall_replicate. exact Hw.
Qed.

Lemma filled_sum_cons (lv : level) (ls : list level) :
  filled_sum (lv :: ls) = (if triggered lv then filled_qty lv else 0) + filled_sum ls.
Proof. reflexivity. Qed.

Lemma filled_sum_insert (ls : list level) (i : nat) (lv : level) (q : Qc) (now : Z) :
  ls !! i = Some lv ->
  triggered lv = false ->
  filled_sum (<[i := fill_level lv q now]> ls) = filled_sum ls + q.
Proof.
  induction ls as [| x ls IH] in i |- *; intros Hl Ht; [discriminate |].
  destruct i as [| i].
  - injection Hl as ->.
    change (<[0%nat := fill_level lv q now]> (lv :: ls)) with (fill_level lv q now :: ls).
    rewrite !filled_sum_cons.
    rewrite Ht. cbn [triggered fill_level filled_qty]. ring.
  - change (<[S i := fill_level lv q now]> (x :: ls))
      with (x :: <[i := fill_level lv q now]> ls).
    rewrite !filled_sum_cons.
    rewrite (IH i Hl Ht). ring.
Qed.

Lemma py_min_left (x y : Qc) : x <= y -> py_min x y = x.
Proof.
  intros H. unfold py_min. rewrite decide_False; [reflexivity |].
  apply Qcle_not_lt. exact H.
Qed.

Lemma py_max_left (x y : Qc) : y <= x -> py_max x y = x.
Proof.
  intros H. unfold py_max. rewrite decide_False; [reflexivity |].
  apply Qcle_not_lt. exact H.
Qed.

Lemma le_plus_nonneg (x r : Qc) : 0 <= r -> x <= x + r.
Proof.
  intros H. apply (Qcplus_le_mono_l 0 r x) in H.
  replace (x + 0) with x in H by ring. exact H.
Qed.

(** One turn of the ladder keeps the invariant and the total. *)
Lemma advance_ok (ti : tp_info) (lv : level) (now : Z) :
  info_ok ti ->
  levels ti !! next_index ti = Some lv ->
  info_ok (advance ti lv now).1 /\ total_qty (advance ti lv now).1 = total_qty ti.
Proof.
  intros [Hnext Htargets Hpending Hfilled Hrem] Hl.
  pose proof (lookup_lt_Some _ _ _ Hl) as Hlt.
  rewrite (drop_S _ _ _ Hl) in Hpending, Hrem.
  inversion Hpending as [| ? ? Htrig Hrest]; subst.
  cbn [fmap list_fmap] in Hrem.
  change (py_sum (target_qty lv :: (target_qty <$> drop (S (next_index ti)) (levels ti))))
    with (target_qty lv + py_sum (target_qty <$> drop (S (next_index ti)) (levels ti)))
    in Hrem.
  set (rest := py_sum (target_qty <$> drop (S (next_index ti)) (levels ti))) in *.
  assert (Hrest0 : 0 <= rest).
  { apply py_sum_nonneg, Forall_fmap.
    pose proof (Forall_drop _ (S (next_index ti)) _ Htargets) as Hd.
    revert Hd. apply Forall_impl. auto. }
  assert (Hqty : py_min (target_qty lv) (remaining_qty ti) = target_qty lv).
  { apply py_min_left. rewrite Hrem. apply le_plus_nonneg. exact Hrest0. }
  unfold advance. rewrite Hqty. cbn [fst]. split; [| reflexivity].
  assert (Hleft : py_max (remaining_qty ti - target_qty lv) (Q2Qc 0.0) = rest).
  { rewrite zero_point_zero.
    replace (remaining_qty ti - target_qty lv) with rest by (rewrite Hrem; ring).
    apply py_max_left. exact Hrest0. }
  constructor; cbn [next_index levels remaining_qty total_qty].
  - rewrite length_insert. lia.
  - apply Forall_insert; [exact Htargets |]. cbn.
    eapply Forall_lookup_1 in Htargets; [| exact Hl]. exact Htargets.
  - rewrite drop_insert_lt by lia. exact Hrest.
  - rewrite (filled_sum_insert _ _ _ _ _ Hl Htrig), Hleft.
    rewrite <- Hfilled, Hrem. ring.
  - rewrite drop_insert_lt by lia. exact Hleft.
Qed.

Lemma ladder_ok (fuel : nat) (now : Z) (current : Qc) (ti : tp_info)
    (acc : list triggered_level) :
  info_ok ti ->
  info_ok (ladder fuel now current ti acc).1
  /\ total_qty (ladder fuel now current ti acc).1 = total_qty ti.
Proof.
  induction fuel as [| fuel IH] in ti, acc |- *; intros Hok; [auto |].
  cbn [ladder].
  destruct (levels ti !! next_index ti) as [lv |] eqn:Hl; [| auto].
  destruct (_is_level_hit _ _ _); cbn [negb]; [| auto].
  destruct (advance_ok ti lv now Hok Hl) as [Hok' Htot].
  destruct (advance ti lv now) as [ti' tl]. cbn [fst] in Hok', Htot.
  destruct (decide (remaining_qty ti' <= 0)); cbn [fst]; [auto |].
  destruct (IH ti' (acc ++ [tl]) Hok') as [H1 H2]. split; [exact H1 | congruence].
Qed.

Lemma remaining_nonneg (ti : tp_info) : info_ok ti -> 0 <= remaining_qty ti.
Proof.
  intros [_ Htargets _ _ Hrem]. rewrite Hrem.
  apply py_sum_nonneg, Forall_fmap.
  pose proof (Forall_drop _ (next_index ti) _ Htargets) as Hd.
  revert Hd. apply Forall_impl. auto.
Qed.

Lemma info_ok_accounting (ti : tp_info) : info_ok ti -> accounting_holds ti.
Proof.
  intros Hok. pose proof (remaining_nonneg ti Hok) as Hr.
  destruct Hok as [_ _ _ Hfilled _]. unfold accounting_holds.
  split; [| split; [rewrite <- Hfilled; ring | exact Hr]].
  rewrite <- Hfilled. apply le_plus_nonneg. exact Hr.
Qed.

(** When the ladder is finished nothing remains, so everything is filled. *)
Lemma info_ok_completed (ti : tp_info) :
  info_ok ti ->
  (length (levels ti) <= next_index ti)%nat \/ remaining_qty ti <= 0 ->
  remaining_qty ti = 0 /\ filled_sum (levels ti) = total_qty ti.
Proof.
  intros Hok Hdone. pose proof (remaining_nonneg ti Hok) as Hr.
  destruct Hok as [_ _ _ Hfilled Hrem].
  assert (H0 : remaining_qty ti = 0).
  { destruct Hdone as [Hn | Hle].
    - rewrite Hrem, drop_ge by exact Hn. reflexivity.
    - apply Qcle_antisym; assumption. }
  split; [exact H0 |]. rewrite <- Hfilled, H0. ring.
Qed.

Lemma nonneg_ratios_nonneg (rs : list Qc) : Forall (fun r => 0 <= r) (nonneg_ratios rs).
Proof.
  apply Forall_lookup. intros i x Hx.
  apply list_elem_of_lookup_2, list_elem_of_filter in Hx as [Hx _]. exact Hx.
Qed.

Lemma normalize_returns (ratios : list Qc) (len : nat) :
  exists out, _match_length_and_normalize ratios len = Ok out.
Proof.
  destruct (decide (len = 0%nat)) as [-> | Hlen]; [eexists; reflexivity |].
  destruct (normalize_spec ratios len Hlen) as (out & H & _). eauto.
Qed.

(** [_prepare_levels_and_ratios] always returns. *)
Lemma prepare_returns (self : t) (requested_levels requested_ratios : option (list Qc)) :
  exists lv rs, _prepare_levels_and_ratios self requested_levels requested_ratios
                = Ok (lv, rs).
Proof.
  unfold _prepare_levels_and_ratios.
  match goal with
  | |- context [_match_length_and_normalize ?r ?n] =>
      destruct (normalize_returns r n) as [out ->]
  end.
  rewrite rbind_ok. eauto.
Qed.

(** On a well-formed manager it returns as many ratios as levels, at
    least one, none negative, summing to 1. *)
Lemma prepare_ok (self : t) (requested_levels requested_ratios : option (list Qc)) :
  default_levels self <> [] ->
  Forall (fun r => 0 <= r) (default_ratios self) ->
  exists lv rs,
    _prepare_levels_and_ratios self requested_levels requested_ratios = Ok (lv, rs)
    /\ lv <> []
    /\ length rs = length lv
    /\ py_sum rs = 1
    /\ Forall (fun r => 0 <= r) rs.
Proof.
  intros Hlv Hrs. unfold _prepare_levels_and_ratios.
  set (lv := match _sanitize_levels requested_levels with
             | [] => default_levels self
             | _ :: _ => _sanitize_levels requested_levels
             end).
  set (cand := match nonneg_ratios (get_or requested_ratios []) with
               | [] => default_ratios self
               | _ :: _ => nonneg_ratios (get_or requested_ratios [])
               end).
  assert (Hlv' : lv <> []).
  { subst lv. destruct (_sanitize_levels requested_levels); [exact Hlv | discriminate]. }
  assert (Hcand : Forall (fun r => 0 <= r) cand).
  { subst cand. pose proof (nonneg_ratios_nonneg (get_or requested_ratios [])) as H.
    destruct (nonneg_ratios (get_or requested_ratios [])); [exact Hrs | exact H]. }
  assert (Hlen : length lv <> 0%nat) by (destruct lv; [contradiction | discriminate]).
  destruct (normalize_spec cand (length lv) Hlen) as (out & -> & H1 & H2 & _ & _ & H3).
  rewrite rbind_ok. exists lv, out.
  split; [reflexivity |]. split; [exact Hlv' |]. split; [exact H1 |].
  split; [exact H2 | exact (H3 Hcand)].
Qed.

Lemma nonneg_ratios_id (rs : list Qc) :
  Forall (fun r => 0 <= r) rs -> nonneg_ratios rs = rs.
Proof.
  unfold nonneg_ratios. induction 1 as [| r rs Hr Hrs IH]; [reflexivity |].
  rewrite filter_cons_True by exact Hr. rewrite IH. reflexivity.
Qed.

(** A requested list that is not empty and has no negative entry is the
    list [_prepare_levels_and_ratios] normalizes; an empty or missing one
    is replaced by the manager's default ratios first. *)
Lemma prepare_requested_ratios (self : t) (pcts : option (list Qc)) (rs : list Qc) :
  rs <> [] ->
  Forall (fun r => 0 <= r) rs ->
  exists lv,
    _prepare_levels_and_ratios self pcts (Some rs)
    = (out ← _match_length_and_normalize rs (length lv); Ok (lv, out)).
Proof.
  intros Hne Hpos. unfold _prepare_levels_and_ratios. cbn [get_or].
  rewrite (nonneg_ratios_id rs Hpos).
  destruct rs as [| r rs]; [contradiction |]. eexists. reflexivity.
Qed.

Lemma prepare_empty_request (self : t) (pcts : option (list Qc)) :
  _prepare_levels_and_ratios self pcts (Some [])
  = _prepare_levels_and_ratios self pcts None.
Proof. reflexivity. Qed.

Lemma init_ok (c : config) : exists m0, init c = Ok m0 /\ manager_ok m0.
Proof.
  unfold init.
  set (lv := match _sanitize_levels _ with [] => _ | _ :: _ => _ end).
  assert (Hlv : lv <> []) by (subst lv; destruct (_sanitize_levels _); discriminate).
  assert (Hlen : length lv <> 0%nat) by (destruct lv; [contradiction | discriminate]).
  destruct (normalize_spec (nonneg_ratios (get_or (cfg_ratios c) [])) (length lv) Hlen)
    as (out & -> & _ & _ & _ & _ & H3).
  rewrite rbind_ok. eexists. split; [reflexivity |].
  constructor; cbn [default_levels default_ratios targets].
  - exact Hlv.
  - apply H3, nonneg_ratios_nonneg.
  - intros symbol ti H. rewrite lookup_empty in H. discriminate.
Qed.

Lemma filled_sum_pending (ls : list level) :
  Forall (fun lv => triggered lv = false) ls -> filled_sum ls = 0.
Proof.
  induction 1 as [| lv ls Hlv Hls IH]; [reflexivity |].
  rewrite filled_sum_cons, Hlv, IH. ring.
Qed.

Lemma fresh_levels_shape (qty entry : Qc) (dir : string) (lv rs : list Qc) :
  Forall (fun l => target_qty l = qty * ratio l /\ triggered l = false
                   /\ filled_qty l = 0)
    (fresh_levels qty entry dir lv rs).
Proof.
  apply Forall_lookup. intros i x Hx. unfold fresh_levels in Hx.
  apply list_lookup_imap_Some in Hx as ([p r] & _ & ->). cbn.
  rewrite zero_point_zero. auto.
Qed.

Lemma fresh_levels_targets (qty entry : Qc) (dir : string) (lv rs : list Qc) :
  length rs = length lv ->
  target_qty <$> fresh_levels qty entry dir lv rs = (fun r => qty * r) <$> rs.
Proof.
  intros Hlen. unfold fresh_levels. rewrite fmap_imap.
  rewrite (imap_ext _ (const (fun pr : Qc * Qc => qty * pr.2))).
  2:{ intros i [p r] _. reflexivity. }
  rewrite imap_const.
  rewrite <- (snd_zip lv rs) at 2 by lia.
  rewrite <- list_fmap_compose. reflexivity.
Qed.

Lemma fresh_info_ok (qty entry : Qc) (dir : string) (lv rs : list Qc) (now : Z) :
  0 < qty ->
  length rs = length lv ->
  py_sum rs = 1 ->
  Forall (fun r => 0 <= r) rs ->
  info_ok {| direction := dir; entry_price := entry; total_qty := qty;
             remaining_qty := qty; levels := fresh_levels qty entry dir lv rs;
             next_index := 0; created_at := now; completed := false |}.
Proof.
  intros Hq Hlen Hsum Hpos.
  pose proof (fresh_levels_shape qty entry dir lv rs) as Hshape.
  assert (Hpend : Forall (fun l => triggered l = false) (fresh_levels qty entry dir lv rs)).
  { revert Hshape. apply Forall_impl. tauto. }
  constructor; cbn [next_index levels remaining_qty total_qty]; rewrite ?drop_0.
  - lia.
  - apply Forall_lookup. intros i x Hx. unfold fresh_levels in Hx.
    apply list_lookup_imap_Some in Hx as ([p r] & Hz & ->). cbn.
    apply Qcmult_nonneg_nonneg; [apply Qclt_le_weak; exact Hq |].
    apply list_elem_of_lookup_2, elem_of_zip_r in Hz.
    rewrite Forall_forall in Hpos. apply Hpos, list_elem_of_In. exact Hz.
  - exact Hpend.
  - rewrite (filled_sum_pending _ Hpend). ring.
  - rewrite fresh_levels_targets by exact Hlen.
    rewrite py_sum_scale, Hsum. ring.
Qed.

Lemma position_qty_pos (pos : position) : 0 < position_qty pos.
Proof.
  unfold position_qty. case_decide as Hq.
  - rewrite one_point_zero. reflexivity.
  - apply Qcnot_le_lt. exact Hq.
Qed.

Lemma initialize_unfold (self : t) (now : Z) (symbol : string) (pos : position)
    (pcts ratios : option (list Qc)) (lv rs : list Qc) :
  _prepare_levels_and_ratios self pcts ratios = Ok (lv, rs) ->
  initialize_take_profit self now symbol pos pcts ratios
  = Ok (fresh_info pos lv rs now,
        set_targets self (<[symbol := fresh_info pos lv rs now]> (targets self))).
Proof. intros H. unfold initialize_take_profit. rewrite H. reflexivity. Qed.

Lemma set_targets_ok (self : t) (m : gmap string tp_info) :
  manager_ok self ->
  (forall symbol ti, m !! symbol = Some ti -> info_ok ti) ->
  manager_ok (set_targets self m).
Proof. intros [H1 H2 _] Hm. constructor; assumption. Qed.

Lemma insert_tracked_ok (self : t) (symbol : string) (ti : tp_info) :
  manager_ok self -> info_ok ti ->
  manager_ok (set_targets self (<[symbol := ti]> (targets self))).
Proof.
  intros Hself Hti. apply set_targets_ok; [exact Hself |].
  intros s ti' Hl. destruct (decide (symbol = s)) as [-> | Hne].
  - rewrite lookup_insert_eq in Hl. congruence.
  - rewrite lookup_insert_ne in Hl by exact Hne.
    exact (ok_targets_tracked _ Hself _ _ Hl).
Qed.

Lemma initialize_ok (self : t) (now : Z) (symbol : string) (pos : position)
    (pcts ratios : option (list Qc)) :
  manager_ok self ->
  exists tp self',
    initialize_take_profit self now symbol pos pcts ratios = Ok (tp, self')
    /\ info_ok tp /\ manager_ok self'.
Proof.
  intros Hself.
  destruct (prepare_ok self pcts ratios (ok_default_levels _ Hself)
              (ok_default_ratios _ Hself)) as (lv & rs & Hp & _ & Hlen & Hsum & Hpos).
  rewrite (initialize_unfold _ now symbol pos _ _ _ _ Hp).
  assert (Hok : info_ok (fresh_info pos lv rs now))
    by (apply fresh_info_ok; auto using position_qty_pos).
  do 2 eexists. split; [reflexivity |]. split; [exact Hok |].
  apply insert_tracked_ok; assumption.
Qed.

Lemma info_ok_set_completed (ti : tp_info) (b : bool) :
  info_ok ti -> info_ok (set_completed ti b).
Proof. intros [H1 H2 H3 H4 H5]. constructor; assumption. Qed.

(** [update_take_profit] on a tracked symbol whose ladder is sound. *)
Lemma take_profit_update_tracked (self : t) (now : Z) (symbol : string) (current : Qc)
    (ti0 : tp_info) :
  targets self !! symbol = Some ti0 ->
  info_ok ti0 ->
  exists ti,
    (update_take_profit self now symbol current).2
    = set_targets self (<[symbol := ti]> (targets self))
    /\ r_take_profit_info (update_take_profit self now symbol current).1 = Some ti
    /\ info_ok ti
    /\ r_remaining_qty (update_take_profit self now symbol current).1 = remaining_qty ti
    /\ total_qty ti = total_qty ti0
    /\ completed ti = r_completed (update_take_profit self now symbol current).1
    /\ (r_completed (update_take_profit self now symbol current).1 = true ->
        (length (levels ti) <= next_index ti)%nat \/ remaining_qty ti <= 0).
Proof.
  intros Hl Hok. unfold update_take_profit. rewrite Hl.
  destruct (ladder_ok (length (levels ti0) - next_index ti0) now current ti0 [] Hok)
    as [Hok' Htot].
  destruct (ladder _ now current ti0 []) as [ti hits]. cbn [fst] in Hok', Htot.
  cbn [fst snd r_take_profit_info r_remaining_qty r_completed].
  eexists. split; [reflexivity |]. split; [reflexivity |].
  split; [apply info_ok_set_completed; exact Hok' |].
  split; [reflexivity |]. split; [exact Htot |]. split; [reflexivity |].
  intros Hdone. apply orb_prop in Hdone as [H | H]; apply bool_decide_eq_true in H;
    [left | right]; exact H.
Qed.

Lemma take_profit_update_untracked (self : t) (now : Z) (symbol : string)
    (current : Qc) :
  targets self !! symbol = None ->
  update_take_profit self now symbol current
  = ({| r_symbol := symbol; r_triggered := false; r_triggered_levels := [];
        r_current_price := current; r_remaining_qty := Q2Qc 0.0;
        r_completed := false; r_next_level_price := None;
        r_take_profit_info := None |}, self).
Proof. intros Hl. unfold update_take_profit. rewrite Hl. reflexivity. Qed.

Lemma update_ok (self : t) (now : Z) (symbol : string) (current : Qc) :
  manager_ok self -> manager_ok (update_take_profit self now symbol current).2.
Proof.
  intros Hself. destruct (targets self !! symbol) as [ti0 |] eqn:Hl.
  - destruct (take_profit_update_tracked self now symbol current ti0 Hl
                (ok_targets_tracked _ Hself _ _ Hl)) as (ti & -> & _ & Hok & _).
    apply insert_tracked_ok; assumption.
  - rewrite take_profit_update_untracked by exact Hl. exact Hself.
Qed.

Lemma remove_ok (self : t) (symbol : string) :
  manager_ok self -> manager_ok (remove_take_profit self symbol).
Proof.
  intros Hself. apply set_targets_ok; [exact Hself |].
  intros s ti Hl. apply lookup_delete_Some in Hl as [_ Hl].
  exact (ok_targets_tracked _ Hself _ _ Hl).
Qed.

Lemma take_profit_apply_op_ok (self : t) (o : op) :
  manager_ok self -> manager_ok (apply_op self o).
Proof.
  intros Hself. destruct o as [now symbol pos pcts ratios | now symbol current | symbol];
    cbn [apply_op].
  - destruct (initialize_ok self now symbol pos pcts ratios Hself)
      as (tp & self' & -> & _ & Hok). exact Hok.
  - apply update_ok. exact Hself.
  - apply remove_ok. exact Hself.
Qed.

Lemma take_profit_run_ok (ops : list op) (self : t) :
  manager_ok self -> manager_ok (run self ops).
Proof.
  unfold run. induction ops as [| o ops IH] in self |- *; intros Hself; [exact Hself |].
  cbn [foldl]. apply IH, take_profit_apply_op_ok, Hself.
Qed.

(** The third scenario: a tick at 106 on the fresh ladder fills the levels
    at 103 and 105 with 4 each, leaves 2 for the level at 108 and does
    not complete the ladder. *)
Example ladder_scenario :
  let self := run ladder_manager [Initialize 0 "BTCUSDT" ladder_position None None] in
  let r := (update_take_profit self 1 "BTCUSDT" (Q2Qc 106)).1 in
  r_triggered r = true
  /\ tl_index <$> r_triggered_levels r = [0%nat; 1%nat]
  /\ tl_qty <$> r_triggered_levels r = [Q2Qc 4; Q2Qc 4]
  /\ r_remaining_qty r = Q2Qc 2
  /\ r_next_level_price r = Some (Q2Qc 108)
  /\ r_completed r = false.
Proof.
  cbv zeta. split; [vm_compute; reflexivity |]. split; [vm_compute; reflexivity |].
  split; [vm_compute; repeat (apply (f_equal2 cons); [qc_compute |]); reflexivity |].
  split; [qc_compute |].
  split; [vm_compute; apply (f_equal Some); qc_compute | vm_compute; reflexivity].
Qed.

Lemma normalize_length (ratios out : list Qc) (len : nat) :
  _match_length_and_normalize ratios len = Ok out -> length out = len.
Proof.
  intros H. destruct (decide (len = 0%nat)) as [-> | Hlen].
  - cbn in H. injection H as <-. reflexivity.
  - destruct (normalize_spec ratios len Hlen) as (out' & H' & Hl & _). congruence.
Qed.

Lemma prepare_length (self : t) (pcts ratios : option (list Qc)) (lv rs : list Qc) :
  _prepare_levels_and_ratios self pcts ratios = Ok (lv, rs) -> length rs = length lv.
Proof.
  unfold _prepare_levels_and_ratios.
  match goal with
  | |- context [_match_length_and_normalize ?r ?n] =>
      destruct (_match_length_and_normalize r n) as [out | e] eqn:Hn
  end; [| discriminate].
  rewrite rbind_ok. intros H. injection H as <- <-.
  exact (normalize_length _ _ _ Hn).
Qed.

Lemma length_fresh_levels (qty entry : Qc) (dir : string) (lv rs : list Qc) :
  length rs = length lv -> length (fresh_levels qty entry dir lv rs) = length lv.
Proof. intros H. unfold fresh_levels. rewrite length_imap, length_zip. lia. Qed.

(** With no positive [qty] and no positive [quantity] the tracker works
    with 1. *)
Lemma position_qty_default (pos : position) :
  (forall q, pos_qty pos = Some q -> q <= 0) ->
  (forall q, pos_quantity pos = Some q -> q <= 0) ->
  position_qty pos = Q2Qc 1.0.
Proof.
  intros H1 H2. unfold position_qty.
  rewrite decide_True; [reflexivity |].
  assert (Hz : Q2Qc 0.0 <= 0) by (rewrite zero_point_zero; apply Qcle_refl).
  unfold py_or.
  destruct (pos_qty pos) as [q |]; [specialize (H1 q eq_refl) |];
    destruct (pos_quantity pos) as [q' |]; try specialize (H2 q' eq_refl);
    repeat case_decide; cbn [get_or]; assumption.
Qed.

(** C10.  When neither [qty] nor [quantity] of the position is positive
    (each is missing, zero or negative), [initialize_take_profit] returns:
    it stores under the symbol, and returns, the complete tracking state
    built from the substituted quantity 1.0: the direction and the entry
    price of the position, [total_qty = 1.0], [remaining_qty = 1.0], the
    cursor at the first level, not completed, and one untouched level per
    prepared percentage, with its index, its percentage, its target price,
    its prepared ratio and [target_qty = 1.0 * ratio]. *)
Theorem nonpositive_quantity_defaults_to_one (self : t) (now : Z) (symbol : string)
    (pos : position) (pcts ratios : option (list Qc)) :
  (forall q, pos_qty pos = Some q -> q <= 0) ->
  (forall q, pos_quantity pos = Some q -> q <= 0) ->
  exists tp self' lv rs,
    initialize_take_profit self now symbol pos pcts ratios = Ok (tp, self')
    /\ self' = set_targets self (<[symbol := tp]> (targets self))
    /\ targets self' !! symbol = Some tp
    /\ _prepare_levels_and_ratios self pcts ratios = Ok (lv, rs)
    /\ length rs = length lv
    /\ tp = {| direction := _normalize_direction pos;
               entry_price := pos_entry_price pos;
               total_qty := Q2Qc 1.0;
               remaining_qty := Q2Qc 1.0;
               levels :=
                 imap (fun i '(p, r) => {|
                   index := i;
                   pct := p;
                   price := _calculate_target_price (pos_entry_price pos) p
                              (_normalize_direction pos);
                   ratio := r;
                   target_qty := Q2Qc 1.0 * r;
                   triggered := false;
                   trigger_ts := None;
                   filled_qty := Q2Qc 0.0
                 |}) (zip lv rs);
               next_index := 0;
               created_at := now;
               completed := false |}
    /\ total_qty tp = Q2Qc 1.0
    /\ remaining_qty tp = Q2Qc 1.0
    /\ next_index tp = 0%nat
    /\ completed tp = false
    /\ length (levels tp) = length lv
    /\ Forall (fun l => target_qty l = Q2Qc 1.0 * ratio l
                        /\ triggered l = false /\ filled_qty l = 0) (levels tp).
Proof.
  intros H1 H2.
  destruct (prepare_returns self pcts ratios) as (lv & rs & Hp).
  rewrite (initialize_unfold _ now symbol pos _ _ _ _ Hp).
  pose proof (position_qty_default pos H1 H2) as Hq.
  do 2 eexists. exists lv, rs. split; [reflexivity |].
  split; [reflexivity |].
  split; [cbn [targets set_targets]; apply lookup_insert_eq |].
  split; [exact Hp |].
  split; [exact (prepare_length _ _ _ _ _ Hp) |].
  split; [unfold fresh_info, fresh_levels; rewrite Hq; reflexivity |].
  cbn [total_qty remaining_qty next_index completed levels fresh_info].
  rewrite Hq.
  split; [reflexivity |]. split; [reflexivity |]. split; [reflexivity |].
  split; [reflexivity |].
  split; [apply length_fresh_levels, (prepare_length _ _ _ _ _ Hp) |].
  apply fresh_levels_shape.
Qed.

Lemma nonpositive_quantity_defaults_to_one_witness :
  (forall q, pos_qty flat_position = Some q -> q <= 0)
  /\ (forall q, pos_quantity flat_position = Some q -> q <= 0)
  /\ exists tp self',
       initialize_take_profit ladder_manager 0 "BTCUSDT" flat_position None None
       = Ok (tp, self')
       /\ total_qty tp = Q2Qc 1.0.
Proof.
  assert (H1 : forall q, pos_qty flat_position = Some q -> q <= 0).
  { intros q H. injection H as <-. vm_compute. discriminate. }
  assert (H2 : forall q, pos_quantity flat_position = Some q -> q <= 0).
  { intros q H. injection H as <-. vm_compute. discriminate. }
  split; [exact H1 |]. split; [exact H2 |].
  destruct (nonpositive_quantity_defaults_to_one ladder_manager 0 "BTCUSDT"
              flat_position None None H1 H2)
    as (tp & self' & _ & _ & Hi & _ & _ & _ & _ & _ & Ht & _).
  exists tp, self'. split; [exact Hi | exact Ht].
Defined.

End TakeProfitProps.

(** ** Updates for a symbol nobody tracks *)

Module UntrackedProps.
Import Untracked.

(** C8.  For a symbol that has no tracker, [update_stop_loss] returns
    [{'stop_triggered': False}] and [update_take_profit] returns a result
    that is not triggered, lists no level and is not completed; neither
    raises, and each leaves its manager, hence the tracked state of every
    other symbol, exactly as it was. *)
Theorem untracked_updates_benign (sl : StopLossManager.t) (tp : TakeProfitManager.t)
    (now : Z) (symbol : string) (current : Qc) :
  StopLossManager.position_stops sl !! symbol = None ->
  TakeProfitManager.targets tp !! symbol = None ->
  (exists r,
     StopLossManager.update_stop_loss sl symbol current = Ok (r, sl)
     /\ StopLossManager.stop_triggered r = false
     /\ StopLossManager.stop_price r = None
     /\ StopLossManager.stop_kind r = None
     /\ StopLossManager.info r = None)
  /\ (exists r,
       TakeProfitManager.update_take_profit tp now symbol current = (r, tp)
       /\ TakeProfitManager.r_triggered r = false
       /\ TakeProfitManager.r_triggered_levels r = []
       /\ TakeProfitManager.r_completed r = false
       /\ TakeProfitManager.r_next_level_price r = None
       /\ TakeProfitManager.r_take_profit_info r = None).
Proof.
  intros Hs Ht. split.
  - rewrite (StopLossProps.update_untracked sl symbol current Hs).
    eexists. split; [reflexivity |]. cbn. auto.
  - rewrite (TakeProfitProps.take_profit_update_untracked tp now symbol current Ht).
    eexists. split; [reflexivity |]. cbn. repeat split.
Qed.

Lemma untracked_updates_benign_witness :
  StopLossManager.position_stops idle_stops !! "ETHUSDT" = None
  /\ TakeProfitManager.targets idle_targets !! "ETHUSDT" = None
  /\ (exists r,
        StopLossManager.update_stop_loss idle_stops "ETHUSDT" (Q2Qc 50)
        = Ok (r, idle_stops))
  /\ (exists r,
        TakeProfitManager.update_take_profit idle_targets 1 "ETHUSDT" (Q2Qc 50)
        = (r, idle_targets)).
Proof.
  assert (Hs : StopLossManager.position_stops idle_stops !! "ETHUSDT" = None)
    by (vm_compute; reflexivity).
  assert (Ht : TakeProfitManager.targets idle_targets !! "ETHUSDT" = None)
    by (vm_compute; reflexivity).
  split; [exact Hs |]. split; [exact Ht |].
  destruct (untracked_updates_benign idle_stops idle_targets 1 "ETHUSDT" (Q2Qc 50) Hs Ht)
    as [(r1 & H1 & _) (r2 & H2 & _)].
  split; [exists r1; exact H1 | exists r2; exact H2].
Defined.

End UntrackedProps.

(** * Further properties of the four modules *)

(** ** Order facts on exact numbers *)

Lemma py_min_le_l (x y : Qc) : py_min x y <= x.
Proof.
  unfold py_min. case_decide as H; [apply Qclt_le_weak; exact H | apply Qcle_refl].
Qed.

Lemma py_min_le_r (x y : Qc) : py_min x y <= y.
Proof.
  unfold py_min. case_decide as H; [apply Qcle_refl | apply Qcnot_lt_le; exact H].
Qed.

Lemma py_min_cases (x y : Qc) : py_min x y = x \/ py_min x y = y.
Proof. unfold py_min. case_decide; auto. Qed.

Lemma py_min3_le (x y z : Qc) :
  py_min3 x y z <= x /\ py_min3 x y z <= y /\ py_min3 x y z <= z.
Proof.
  unfold py_min3. split; [| split].
  - eapply Qcle_trans; [apply py_min_le_l | apply py_min_le_l].
  - eapply Qcle_trans; [apply py_min_le_l | apply py_min_le_r].
  - apply py_min_le_r.
Qed.

Lemma py_min3_cases (x y z : Qc) :
  py_min3 x y z = x \/ py_min3 x y z = y \/ py_min3 x y z = z.
Proof.
  unfold py_min3. destruct (py_min_cases (py_min x y) z) as [-> | ->]; [| auto].
  destruct (py_min_cases x y) as [-> | ->]; auto.
Qed.

Lemma py_abs_nonneg (x : Qc) : 0 <= py_abs x.
Proof.
  unfold py_abs. case_decide as H.
  - apply Qclt_le_weak in H. apply Qcopp_le_compat in H. exact H.
  - apply Qcnot_lt_le. exact H.
Qed.

Lemma py_abs_pos (x : Qc) : x <> 0 -> 0 < py_abs x.
Proof.
  intros Hx. destruct (Qcle_lt_or_eq _ _ (py_abs_nonneg x)) as [H | H]; [exact H |].
  exfalso. apply Hx. unfold py_abs in H. case_decide.
  - rewrite <- (Qcopp_involutive x), <- H. reflexivity.
  - symmetry. exact H.
Qed.

Lemma Qc_div_pos (x y : Qc) : 0 < x -> 0 < y -> 0 < x / y.
Proof.
  intros Hx Hy. unfold Qcdiv.
  replace 0 with (0 * / y) by ring.
  apply Qcmult_lt_compat_r; [apply Qcinv_pos; exact Hy | exact Hx].
Qed.

Lemma Qc_div_le_compat (x y z : Qc) : 0 < z -> x <= y -> x / z <= y / z.
Proof.
  intros Hz H. unfold Qcdiv. apply Qcmult_le_compat_r; [exact H |].
  apply Qclt_le_weak, Qcinv_pos. exact Hz.
Qed.

(** ** PositionSizer: when it returns, and what bounds the size *)

Module SizerFacts.
Import PositionSizer.

(** The result of [calculate_position_size] when neither divisor is zero,
    field by field. *)
Lemma sizing_fields (self : t) (account_equity : Qc) (sig : signal) (vol : volatility)
    (risk_mult : Qc) :
  entry_price sig <> 0 ->
  account_equity <> 0 ->
  exists r,
    calculate_position_size self account_equity sig vol risk_mult = Ok r
    /\ stop_distance_pct (details r)
       = py_abs (entry_price sig - stop_loss sig) / entry_price sig
    /\ max_position_limit (details r) = account_equity * max_position_pct self
    /\ max_risk_limit (details r)
       = (if decide (0 < stop_distance_pct (details r))
          then account_equity * account_risk_pct self / stop_distance_pct (details r)
          else adjusted_size r)
    /\ position_value r
       = py_min3 (adjusted_size r) (max_risk_limit (details r))
           (max_position_limit (details r))
    /\ risk_amount r = position_value r * stop_distance_pct (details r)
    /\ quantity r = position_value r / entry_price sig
    /\ limiting (details r)
       = _get_limiting_factor (adjusted_size r) (max_risk_limit (details r))
           (max_position_limit (details r)) (position_value r).
Proof.
  intros Hp He. unfold calculate_position_size.
  destruct (PositionSizerProps.volatility_multiplier_returns vol) as [m ->].
  rewrite rbind_ok.
  rewrite (py_div_ok _ (entry_price sig)) by exact Hp. rewrite rbind_ok.
  set (sd := py_abs (entry_price sig - stop_loss sig) / entry_price sig).
  destruct (decide (0 < sd)) as [Hsd | Hsd].
  - rewrite (py_div_ok _ sd) by (apply Qc_pos_nonzero; exact Hsd). rewrite rbind_ok.
    rewrite (py_div_ok _ (entry_price sig)) by exact Hp. rewrite rbind_ok.
    rewrite !(py_div_ok _ account_equity) by exact He. rewrite !rbind_ok.
    eexists. split; [reflexivity |].
    cbn [stop_distance_pct details max_position_limit max_risk_limit adjusted_size
         position_value risk_amount quantity limiting].
    rewrite decide_True by exact Hsd. repeat split.
  - rewrite rbind_ok.
    rewrite (py_div_ok _ (entry_price sig)) by exact Hp. rewrite rbind_ok.
    rewrite !(py_div_ok _ account_equity) by exact He. rewrite !rbind_ok.
    eexists. split; [reflexivity |].
    cbn [stop_distance_pct details max_position_limit max_risk_limit adjusted_size
         position_value risk_amount quantity limiting].
    rewrite decide_False by exact Hsd. repeat split.
Qed.

(** A call that returns had neither divisor zero. *)
Lemma sizing_ok_nonzero (self : t) (account_equity : Qc) (sig : signal)
    (vol : volatility) (risk_mult : Qc) (r : sizing_result) :
  calculate_position_size self account_equity sig vol risk_mult = Ok r ->
  entry_price sig <> 0 /\ account_equity <> 0.
Proof.
  intros Hr. split; intros H0.
  - rewrite (PositionSizerProps.zero_entry_raises _ _ _ _ _ H0) in Hr. discriminate.
  - destruct (decide (entry_price sig = 0)) as [Hp | Hp].
    + rewrite (PositionSizerProps.zero_entry_raises _ _ _ _ _ Hp) in Hr. discriminate.
    + subst account_equity.
      rewrite (PositionSizerProps.zero_equity_raises _ _ _ _ Hp) in Hr. discriminate.
Qed.

(** X1.  [calculate_position_size] raises [ZeroDivisionError] exactly when
    the entry price or the account equity is zero; on every other input it
    returns a result. *)
Theorem sizing_raises_iff (self : t) (account_equity : Qc) (sig : signal)
    (vol : volatility) (risk_mult : Qc) :
  (calculate_position_size self account_equity sig vol risk_mult
   = Raise ZeroDivisionError
   <-> entry_price sig = 0 \/ account_equity = 0)
  /\ (returns (calculate_position_size self account_equity sig vol risk_mult)
      <-> entry_price sig <> 0 /\ account_equity <> 0).
Proof.
  destruct (decide (entry_price sig = 0)) as [Hp | Hp].
  { rewrite (PositionSizerProps.zero_entry_raises _ _ _ _ _ Hp). cbn.
    split; split; auto. intros [H _]. contradiction. }
  destruct (decide (account_equity = 0)) as [He | He].
  { subst account_equity. rewrite (PositionSizerProps.zero_equity_raises _ _ _ _ Hp).
    cbn. split; split; auto. intros [_ H]. contradiction. }
  destruct (sizing_fields self account_equity sig vol risk_mult Hp He) as (r & -> & _).
  cbn. split; split; auto; try discriminate.
  intros [H | H]; contradiction.
Qed.

(** X2.  Whenever [calculate_position_size] returns, the position value is
    at most the adjusted size, at most the risk cap and at most
    [account_equity * max_position_pct], and it is equal to one of the
    three. *)
Theorem position_value_within_caps (self : t) (account_equity : Qc) (sig : signal)
    (vol : volatility) (risk_mult : Qc) (r : sizing_result) :
  calculate_position_size self account_equity sig vol risk_mult = Ok r ->
  position_value r <= adjusted_size r
  /\ position_value r <= max_risk_limit (details r)
  /\ position_value r <= account_equity * max_position_pct self
  /\ (position_value r = adjusted_size r
      \/ position_value r = max_risk_limit (details r)
      \/ position_value r = account_equity * max_position_pct self).
Proof.
  intros Hr.
  destruct (sizing_ok_nonzero _ _ _ _ _ _ Hr) as [Hp He].
  destruct (sizing_fields self account_equity sig vol risk_mult Hp He)
    as (r' & Hr' & _ & Hcap & _ & Hval & _).
  assert (r' = r) by congruence. subst r'.
  rewrite <- Hcap, Hval.
  destruct (py_min3_le (adjusted_size r) (max_risk_limit (details r))
              (max_position_limit (details r))) as (H1 & H2 & H3).
  split; [exact H1 |]. split; [exact H2 |]. split; [exact H3 |].
  apply py_min3_cases.
Qed.

Lemma position_value_within_caps_witness :
  exists r,
    calculate_position_size scenario_sizer (Q2Qc 10000) scenario_signal
      scenario_volatility (Q2Qc 1.0) = Ok r
    /\ position_value r <= Q2Qc 10000 * max_position_pct scenario_sizer.
Proof.
  eexists. split; [vm_compute; reflexivity |].
  refine (proj1 (proj2 (proj2 (position_value_within_caps scenario_sizer (Q2Qc 10000)
            scenario_signal scenario_volatility (Q2Qc 1.0) _ _)))).
  vm_compute. reflexivity.
Defined.

(** X4.  The limiting factor reported in the breakdown is never
    ['unknown'], and it names a bound the position value is equal to:
    ['none'] exactly when the value is the adjusted size, ['risk_limit']
    only when it is the risk cap, ['max_position_limit'] only when it is
    the position cap. *)
Theorem limiting_factor_names_the_bound (self : t) (account_equity : Qc)
    (sig : signal) (vol : volatility) (risk_mult : Qc) (r : sizing_result) :
  calculate_position_size self account_equity sig vol risk_mult = Ok r ->
  limiting (details r) <> LimitUnknown
  /\ (limiting (details r) = LimitNone <-> position_value r = adjusted_size r)
  /\ (limiting (details r) = RiskLimit ->
      position_value r = max_risk_limit (details r)
      /\ position_value r <> adjusted_size r)
  /\ (limiting (details r) = MaxPositionLimit ->
      position_value r = max_position_limit (details r)
      /\ position_value r <> adjusted_size r
      /\ position_value r <> max_risk_limit (details r)).
Proof.
  intros Hr.
  destruct (sizing_ok_nonzero _ _ _ _ _ _ Hr) as [Hp He].
  destruct (sizing_fields self account_equity sig vol risk_mult Hp He)
    as (r' & Hr' & _ & _ & _ & Hval & _ & _ & Hlim).
  assert (r' = r) by congruence. subst r'.
  pose proof (py_min3_cases (adjusted_size r) (max_risk_limit (details r))
                (max_position_limit (details r))) as Hc.
  rewrite <- Hval in Hc. rewrite Hlim. unfold _get_limiting_factor.
  repeat case_decide; repeat split; try discriminate; try congruence; try tauto.
Qed.

Lemma limiting_factor_names_the_bound_witness :
  exists r,
    calculate_position_size scenario_sizer (Q2Qc 10000) scenario_signal
      scenario_volatility (Q2Qc 1.0) = Ok r
    /\ limiting (details r) <> LimitUnknown.
Proof.
  eexists. split; [vm_compute; reflexivity |].
  refine (proj1 (limiting_factor_names_the_bound scenario_sizer (Q2Qc 10000)
            scenario_signal scenario_volatility (Q2Qc 1.0) _ _)).
  vm_compute. reflexivity.
Defined.

(** X5.  [_calculate_volatility_multiplier] never raises and returns 1.5,
    1.0 or 0.5.  A price that is not positive, and an ATR that is missing
    or zero, both count as the lowest volatility and give 1.5. *)
Theorem volatility_multiplier_values (v : volatility) :
  exists m,
    _calculate_volatility_multiplier v = Ok m
    /\ (m = Q2Qc 1.5 \/ m = Q2Qc 1.0 \/ m = Q2Qc 0.5)
    /\ (get_or (price v) 1 <= 0 -> m = Q2Qc 1.5)
    /\ (get_or (atr v) 0 = 0 -> m = Q2Qc 1.5).
Proof.
  unfold _calculate_volatility_multiplier.
  assert (Hz : (0 : Qc) < Q2Qc 0.01) by reflexivity.
  destruct (decide (0 < get_or (price v) 1)) as [Hp | Hp].
  - rewrite py_div_ok by (apply Qc_pos_nonzero; exact Hp). rewrite rbind_ok.
    destruct (decide (get_or (atr v) 0 / get_or (price v) 1 < Q2Qc 0.01)) as [H1 | H1].
    + eexists. split; [reflexivity |]. split; [auto |]. split; reflexivity.
    + assert (Ha : get_or (atr v) 0 <> 0).
      { intros Ha. apply H1. rewrite Ha.
        replace (0 / get_or (price v) 1) with (Q2Qc 0)
          by (field; apply Qc_pos_nonzero; exact Hp).
        exact Hz. }
      case_decide; eexists; (split; [reflexivity |]); (split; [auto |]);
        (split; [intros Hle; exfalso; exact (Qclt_not_le _ _ Hp Hle)
                | intros H0; contradiction]).
  - rewrite rbind_ok. rewrite decide_True by exact Hz.
    eexists. split; [reflexivity |]. split; [auto |]. split; reflexivity.
Qed.

Lemma volatility_multiplier_values_witness :
  exists m,
    _calculate_volatility_multiplier {| atr := Some (Q2Qc 7); price := Some (Q2Qc 0) |}
    = Ok m
    /\ m = Q2Qc 1.5.
Proof.
  destruct (volatility_multiplier_values {| atr := Some (Q2Qc 7); price := Some (Q2Qc 0) |})
    as (m & Hm & _ & Hp & _).
  exists m. split; [exact Hm |]. apply Hp. vm_compute. discriminate.
Defined.

(** X6.  [validate_position] never raises.  With an account equity that
    is not positive no position is valid; with a positive equity a
    position is valid exactly when its share of the equity lies between 1%
    and [max_position_pct]. *)
Theorem validate_position_verdict (self : t) (position_value account_equity : Qc) :
  exists verdict,
    validate_position self position_value account_equity = Ok verdict
    /\ (account_equity <= 0 -> verdict <> None)
    /\ (0 < account_equity ->
        (verdict = None
         <-> Q2Qc 0.01 <= position_value / account_equity
             /\ position_value / account_equity <= max_position_pct self)).
Proof.
  unfold validate_position.
  destruct (decide (0 < account_equity)) as [He | He].
  - rewrite py_div_ok by (apply Qc_pos_nonzero; exact He). rewrite rbind_ok.
    set (pct := position_value / account_equity).
    destruct (decide (max_position_pct self < pct)) as [Hmax | Hmax].
    + eexists. split; [reflexivity |].
      split; [intros Hle; exfalso; exact (Qclt_not_le _ _ He Hle) |].
      intros _. split; [discriminate |].
      intros [_ H]. exfalso. exact (Qclt_not_le _ _ Hmax H).
    + destruct (decide (pct < Q2Qc 0.01)) as [Hmin | Hmin].
      * eexists. split; [reflexivity |].
        split; [intros Hle; exfalso; exact (Qclt_not_le _ _ He Hle) |].
        intros _. split; [discriminate |].
        intros [H _]. exfalso. exact (Qclt_not_le _ _ Hmin H).
      * eexists. split; [reflexivity |].
        split; [intros Hle; exfalso; exact (Qclt_not_le _ _ He Hle) |].
        intros _. split; [| reflexivity].
        intros _. split; apply Qcnot_lt_le; assumption.
  - rewrite rbind_ok. case_decide.
    + eexists. split; [reflexivity |]. split; [discriminate | contradiction].
    + rewrite decide_True by reflexivity.
      eexists. split; [reflexivity |]. split; [discriminate | contradiction].
Qed.

Lemma validate_position_verdict_witness :
  0 < Q2Qc 10000
  /\ validate_position scenario_sizer (Q2Qc 1800) (Q2Qc 10000) = Ok None.
Proof.
  assert (He : 0 < Q2Qc 10000) by reflexivity.
  split; [exact He |].
  destruct (validate_position_verdict scenario_sizer (Q2Qc 1800) (Q2Qc 10000))
    as (verdict & -> & _ & Hiff).
  f_equal. apply (Hiff He). split; vm_compute; discriminate.
Defined.

End SizerFacts.

(** ** RiskManager: what a call can do to the gate *)

Module GateFacts.
Import RiskManager RiskManagerProps.

Lemma high_water_eq (self : t) (acct : account_info) :
  high_water self acct
  = set_max_equity self (py_max (max_equity self) (get_or (total acct) 0)).
Proof.
  unfold high_water, py_max. case_decide; [reflexivity |]. destruct self; reflexivity.
Qed.

Lemma py_max_ge_l (x y : Qc) : x <= py_max x y.
Proof.
  unfold py_max. case_decide as H; [apply Qclt_le_weak; exact H | apply Qcle_refl].
Qed.

Lemma py_max_ge_r (x y : Qc) : y <= py_max x y.
Proof.
  unfold py_max. case_decide as H; [apply Qcle_refl | apply Qcnot_lt_le; exact H].
Qed.

(** [_check_drawdown] in one equation: it never raises, because the
    division is guarded by the high-water mark being positive. *)
Lemma check_drawdown_eq (self : t) (acct : account_info) :
  _check_drawdown self acct
  = Ok (if decide (max_drawdown_of self <= drawdown_of self acct) then
          ({| d_approved := false;
              d_reason := MaxDrawdownReached (drawdown_of self acct);
              d_drawdown := drawdown_of self acct;
              d_warnings := [TradingPausedWarning] |},
           set_paused (high_water self acct) true
             (Some (MaxDrawdownReached (drawdown_of self acct))))
        else
          ({| d_approved := true; d_reason := DrawdownAcceptable;
              d_drawdown := drawdown_of self acct;
              d_warnings :=
                if decide (get2 (drawdown (cfg self)) dd_pause_threshold (Q2Qc 0.10)
                           <= drawdown_of self acct)
                then [HighDrawdown (drawdown_of self acct)] else [] |},
           high_water self acct)).
Proof.
  unfold _check_drawdown, drawdown_of, max_drawdown_of.
  change (if decide (max_equity self < get_or (total acct) 0)
          then set_max_equity self (get_or (total acct) 0) else self)
    with (high_water self acct).
  assert (Hcfg : cfg (high_water self acct) = cfg self)
    by (rewrite high_water_eq; reflexivity).
  cbv zeta. rewrite Hcfg.
  destruct (decide (0 < max_equity (high_water self acct))) as [Hm | Hm].
  - rewrite py_div_ok by (apply Qc_pos_nonzero; exact Hm). rewrite rbind_ok.
    repeat case_decide; reflexivity.
  - rewrite rbind_ok. repeat case_decide; reflexivity.
Qed.

Lemma check_sentiment_state (self : t) (now : Qc) (s : option sentiment_reading) :
  (_check_sentiment self now s).2 = self
  \/ (_check_sentiment self now s).2 = set_cache self (Some neutral_reading) now.
Proof.
  unfold _check_sentiment.
  destruct (dict_truthy s); [| destruct (_ && _)];
    repeat case_decide; cbn; auto.
Qed.

(** The gates after the sentiment gate: what they return and what they do
    to the manager. *)
Lemma gates_shape (self : t) (acct : account_info)
    (positions : option (list open_position)) (m : Qc) (ws : list msg) :
  exists d self',
    gates_after_sentiment self acct positions m ws = Ok (d, self')
    /\ cached_sentiment self' = cached_sentiment self
    /\ max_equity self <= max_equity self'
    /\ (approved d = true ->
        reason d = AllRiskChecksPassed
        /\ (position_size_multiplier d = m \/ position_size_multiplier d = m * Q2Qc 0.5)
        /\ is_paused self' = is_paused self
        /\ get_or (total acct) 0 <= max_equity self')
    /\ (approved d = false -> position_size_multiplier d = Q2Qc 0.0)
    /\ (is_paused self' = true ->
        is_paused self = true \/ exists dd, reason d = MaxDrawdownReached dd).
Proof.
  unfold gates_after_sentiment.
  destruct (check_liquidation_returns self acct positions) as [liq ->].
  rewrite rbind_ok. destruct (l_approved liq); cbn [negb].
  2:{ do 2 eexists. split; [reflexivity |]. cbn.
      split; [reflexivity |]. split; [apply Qcle_refl |].
      split; [discriminate |]. split; [reflexivity |]. auto. }
  assert (Hw : max_equity self <= max_equity (high_water self acct)
               /\ get_or (total acct) 0 <= max_equity (high_water self acct)
               /\ cached_sentiment (high_water self acct) = cached_sentiment self
               /\ is_paused (high_water self acct) = is_paused self).
  { rewrite high_water_eq. cbn. split; [apply py_max_ge_l |].
    split; [apply py_max_ge_r | auto]. }
  destruct Hw as (Hw1 & Hw2 & Hw3 & Hw4).
  destruct (decide (Q2Qc 0.10 < l_risk_rate liq));
    rewrite check_drawdown_eq, rbind_ok;
    (destruct (decide (max_drawdown_of self <= drawdown_of self acct)); cbn [negb d_approved];
     [ do 2 eexists; (split; [reflexivity |]); cbn;
       (split; [exact Hw3 |]); (split; [exact Hw1 |]);
       (split; [discriminate |]); (split; [reflexivity |]); eauto
     | destruct (check_balance_returns acct) as (br & -> & _); rewrite rbind_ok;
       destruct (b_approved br); cbn [negb];
       do 2 eexists; (split; [reflexivity |]); cbn;
       (split; [exact Hw3 |]); (split; [exact Hw1 |]);
       [ (split; [intros _; auto |]); (split; [discriminate |]);
         rewrite Hw4; auto
       | (split; [discriminate |]); (split; [reflexivity |]);
         rewrite Hw4; auto ] ]).
Qed.

(** [validate_signal]: what it returns and what it does to the manager. *)
Lemma validate_shape (self : t) (now : Qc) (sig : signal) (acct : account_info)
    (positions : option (list open_position)) (s : option sentiment_reading) :
  exists d self',
    validate_signal self now sig acct positions s = Ok (d, self')
    /\ max_equity self <= max_equity self'
    /\ (approved d = true ->
        reason d = AllRiskChecksPassed
        /\ (position_size_multiplier d = Q2Qc 1.0
            \/ position_size_multiplier d = Q2Qc 0.7
            \/ position_size_multiplier d = Q2Qc 0.5
            \/ position_size_multiplier d = Q2Qc 0.35)
        /\ is_paused self = false
        /\ is_paused self' = false
        /\ get_or (total acct) 0 <= max_equity self')
    /\ (approved d = false -> position_size_multiplier d = Q2Qc 0.0)
    /\ (is_paused self' = true ->
        is_paused self = true \/ exists dd, reason d = MaxDrawdownReached dd)
    /\ (cached_sentiment self' = cached_sentiment self
        \/ cached_sentiment self' = Some neutral_reading).
Proof.
  assert (H7 : Q2Qc 1.0 * Q2Qc 0.7 = Q2Qc 0.7) by qc_compute.
  assert (H5 : Q2Qc 1.0 * Q2Qc 0.5 = Q2Qc 0.5) by qc_compute.
  assert (H35 : Q2Qc 1.0 * Q2Qc 0.7 * Q2Qc 0.5 = Q2Qc 0.35) by qc_compute.
  assert (Hrest : forall self0 m,
    (m = Q2Qc 1.0 \/ m = Q2Qc 1.0 * Q2Qc 0.7) ->
    is_paused self0 = false ->
    forall ws, exists d self',
      gates_after_sentiment self0 acct positions m ws = Ok (d, self')
      /\ max_equity self0 <= max_equity self'
      /\ (approved d = true ->
          reason d = AllRiskChecksPassed
          /\ (position_size_multiplier d = Q2Qc 1.0
              \/ position_size_multiplier d = Q2Qc 0.7
              \/ position_size_multiplier d = Q2Qc 0.5
              \/ position_size_multiplier d = Q2Qc 0.35)
          /\ is_paused self0 = false
          /\ is_paused self' = false
          /\ get_or (total acct) 0 <= max_equity self')
      /\ (approved d = false -> position_size_multiplier d = Q2Qc 0.0)
      /\ (is_paused self' = true ->
          is_paused self0 = true \/ exists dd, reason d = MaxDrawdownReached dd)
      /\ cached_sentiment self' = cached_sentiment self0).
  { intros self0 m Hm Hp ws.
    destruct (gates_shape self0 acct positions m ws)
      as (d & self' & Hg & Hc & Hmax & Hyes & Hno & Hpause).
    exists d, self'. split; [exact Hg |]. split; [exact Hmax |].
    split; [| split; [exact Hno |]; split; [exact Hpause | exact Hc]].
    intros Ha. destruct (Hyes Ha) as (Hr & Hmul & Hp' & Htot).
    split; [exact Hr |]. split; [| rewrite Hp', Hp; auto].
    destruct Hm as [-> | ->], Hmul as [-> | ->]; rewrite ?H5, ?H35, ?H7; auto. }
  unfold validate_signal.
  destruct (is_paused self) eqn:Hp.
  { do 2 eexists. split; [reflexivity |]. cbn. split; [apply Qcle_refl |].
    split; [discriminate |]. split; [reflexivity |]. auto. }
  destruct (sentiment_enabled self && bool_decide (direction sig = "buy")).
  2:{ destruct (Hrest self (Q2Qc 1.0) (or_introl eq_refl) Hp [])
        as (d & self' & Hg & H1 & H2 & H3 & H4 & H5').
      exists d, self'. rewrite Hp in *. auto 10. }
  pose proof (check_sentiment_keeps self now s) as (_ & Hp0 & Hm0).
  pose proof (check_sentiment_state self now s) as Hst.
  destruct (_check_sentiment self now s) as [sr self0]. cbn [fst snd] in *.
  assert (Hcache : cached_sentiment self0 = cached_sentiment self
                   \/ cached_sentiment self0 = Some neutral_reading)
    by (destruct Hst as [-> | ->]; cbn; auto).
  rewrite Hp in Hp0.
  destruct (s_approved sr); cbn [negb].
  - assert (Hboth : forall m ws, (m = Q2Qc 1.0 \/ m = Q2Qc 1.0 * Q2Qc 0.7) ->
      exists d self',
        gates_after_sentiment self0 acct positions m ws = Ok (d, self')
        /\ max_equity self <= max_equity self'
        /\ (approved d = true ->
            reason d = AllRiskChecksPassed
            /\ (position_size_multiplier d = Q2Qc 1.0
                \/ position_size_multiplier d = Q2Qc 0.7
                \/ position_size_multiplier d = Q2Qc 0.5
                \/ position_size_multiplier d = Q2Qc 0.35)
            /\ false = false
            /\ is_paused self' = false
            /\ get_or (total acct) 0 <= max_equity self')
        /\ (approved d = false -> position_size_multiplier d = Q2Qc 0.0)
        /\ (is_paused self' = true ->
            false = true \/ exists dd, reason d = MaxDrawdownReached dd)
        /\ (cached_sentiment self' = cached_sentiment self
            \/ cached_sentiment self' = Some neutral_reading)).
    { intros m ws Hm.
      destruct (Hrest self0 m Hm Hp0 ws) as (d & self' & Hg & H1 & H2 & H3 & H4 & H5').
      exists d, self'. rewrite Hp0, Hm0 in *. rewrite H5'. auto 10. }
    case_decide; apply Hboth; auto.
  - do 2 eexists. split; [reflexivity |]. cbn. rewrite Hm0.
    split; [apply Qcle_refl |]. split; [discriminate |].
    split; [reflexivity |]. split; [| exact Hcache].
    intros Hp'. rewrite Hp0 in Hp'. discriminate.
Qed.

(** X8.  [validate_signal] never raises.  An approved decision carries
    the reason ['All risk checks passed'] and a multiplier that is 1.0,
    0.7, 0.5 or 0.35; every rejection carries the multiplier 0. *)
Theorem decision_multiplier_values (self : t) (now : Qc) (sig : signal)
    (acct : account_info) (positions : option (list open_position))
    (s : option sentiment_reading) :
  exists d self',
    validate_signal self now sig acct positions s = Ok (d, self')
    /\ (approved d = true ->
        reason d = AllRiskChecksPassed
        /\ (position_size_multiplier d = Q2Qc 1.0
            \/ position_size_multiplier d = Q2Qc 0.7
            \/ position_size_multiplier d = Q2Qc 0.5
            \/ position_size_multiplier d = Q2Qc 0.35))
    /\ (approved d = false -> position_size_multiplier d = Q2Qc 0.0).
Proof.
  destruct (validate_shape self now sig acct positions s)
    as (d & self' & Hv & _ & Hyes & Hno & _).
  exists d, self'. split; [exact Hv |]. split; [| exact Hno].
  intros Ha. destruct (Hyes Ha) as (Hr & Hm & _). auto.
Qed.

Lemma decision_multiplier_values_witness :
  exists d self',
    validate_signal fud_manager (Q2Qc 0) fud_signal fud_account None fud_reading
    = Ok (d, self')
    /\ approved d = true
    /\ reason d = AllRiskChecksPassed.
Proof.
  destruct (decision_multiplier_values fud_manager (Q2Qc 0) fud_signal fud_account
              None fud_reading) as (d & self' & Hv & Hyes & _).
  exists d, self'. split; [exact Hv |].
  assert (Ha : approved d = true).
  { revert Hv. vm_compute. intros [= <- _]. reflexivity. }
  split; [exact Ha | exact (proj1 (Hyes Ha))].
Defined.

(** X9.  Any run of [validate_signal] calls returns one decision per call
    and never lowers the high-water mark [max_equity]. *)
Theorem high_water_mark_never_falls (self : t) (calls : list call) :
  exists ds self',
    evaluate_all self calls = Ok (ds, self')
    /\ length ds = length calls
    /\ max_equity self <= max_equity self'.
Proof.
  induction calls as [| c calls IH] in self |- *.
  - exists [], self. split; [reflexivity |]. split; [reflexivity | apply Qcle_refl].
  - destruct (validate_shape self (c_now c) (c_signal c) (c_account c) (c_positions c)
                (c_sentiment c)) as (d & self1 & Hv & Hmax & _).
    destruct (IH self1) as (ds & self2 & Hds & Hlen & Hmax').
    exists (d :: ds), self2. cbn [evaluate_all]. unfold evaluate.
    rewrite Hv, rbind_ok. cbn beta iota. rewrite Hds, rbind_ok. cbn beta iota.
    split; [reflexivity |]. split; [cbn; congruence |].
    eapply Qcle_trans; eassumption.
Qed.

(** X10.  A call pauses the gate only by rejecting for drawdown: if the
    gate was not paused before [validate_signal] and is paused after it,
    the decision is a rejection whose reason is the drawdown reached, and
    that drawdown is at least [max_drawdown].  An approved decision leaves
    the gate unpaused. *)
Theorem pause_only_by_drawdown (self : t) (now : Qc) (sig : signal)
    (acct : account_info) (positions : option (list open_position))
    (s : option sentiment_reading) (d : decision) (self' : t) :
  validate_signal self now sig acct positions s = Ok (d, self') ->
  is_paused self = false ->
  (is_paused self' = true ->
   approved d = false
   /\ exists dd, reason d = MaxDrawdownReached dd /\ max_drawdown_of self <= dd)
  /\ (approved d = true -> is_paused self' = false).
Proof.
  intros Hv Hp.
  destruct (validate_shape self now sig acct positions s)
    as (d0 & self0 & Hv0 & _ & Hyes & _ & Hpause & _).
  rewrite Hv in Hv0. injection Hv0 as <- <-.
  destruct (validate_signal_spec self now sig acct positions s)
    as (d0 & self0 & Hv0 & _ & Hdd).
  rewrite Hv in Hv0. injection Hv0 as <- <-.
  split.
  - intros Hp'. destruct (Hpause Hp') as [Hc | [dd Hr]]; [congruence |].
    split.
    + destruct (approved d) eqn:Ha; [| reflexivity].
      destruct (Hyes eq_refl) as (Hr' & _). rewrite Hr' in Hr. discriminate.
    + exists dd. split; [exact Hr | exact (proj1 (Hdd dd Hr))].
  - intros Ha. destruct (Hyes Ha) as (_ & _ & _ & Hp' & _). exact Hp'.
Qed.

Lemma pause_only_by_drawdown_witness :
  exists d self',
    evaluate scenario_manager scenario_call = Ok (d, self')
    /\ is_paused scenario_manager = false
    /\ is_paused self' = true
    /\ approved d = false.
Proof.
  assert (Hp : is_paused scenario_manager = false) by reflexivity.
  eexists _, _. split; [vm_compute; reflexivity |]. split; [exact Hp |].
  split; [reflexivity |].
  refine (proj1 (proj1 (pause_only_by_drawdown scenario_manager (c_now scenario_call)
            (c_signal scenario_call) (c_account scenario_call)
            (c_positions scenario_call) (c_sentiment scenario_call) _ _ _ Hp) _)).
  - vm_compute. reflexivity.
  - reflexivity.
Defined.

(** X11.  The sentiment gate is for buys only: when the signal is not a
    buy, or the filter is disabled, [validate_signal] returns the same
    decision and manager whatever sentiment reading and clock it is given,
    and it leaves the cached reading alone. *)
Theorem sentiment_only_gates_buys (self : t) (now now' : Qc) (sig : signal)
    (acct : account_info) (positions : option (list open_position))
    (s s' : option sentiment_reading) :
  direction sig <> "buy" \/ sentiment_enabled self = false ->
  validate_signal self now sig acct positions s
  = validate_signal self now' sig acct positions s'
  /\ exists d self',
       validate_signal self now sig acct positions s = Ok (d, self')
       /\ cached_sentiment self' = cached_sentiment self.
Proof.
  intros Hoff.
  assert (Hc : sentiment_enabled self && bool_decide (direction sig = "buy") = false).
  { destruct Hoff as [Hd | ->]; [| reflexivity].
    rewrite bool_decide_eq_false_2 by exact Hd. apply andb_false_r. }
  unfold validate_signal. rewrite Hc.
  split; [reflexivity |].
  destruct (is_paused self); [do 2 eexists; split; reflexivity |].
  destruct (gates_shape self acct positions (Q2Qc 1.0) []) as (d & self' & Hg & Hcache & _).
  exists d, self'. split; [exact Hg | exact Hcache].
Qed.

Lemma sentiment_only_gates_buys_witness :
  direction sell_signal <> "buy"
  /\ validate_signal fud_manager (Q2Qc 0) sell_signal fud_account None fud_reading
     = validate_signal fud_manager (Q2Qc 900) sell_signal fud_account None None.
Proof.
  assert (Hd : direction sell_signal <> "buy") by discriminate.
  split; [exact Hd |].
  exact (proj1 (sentiment_only_gates_buys fud_manager (Q2Qc 0) (Q2Qc 900) sell_signal
                  fud_account None fud_reading None (or_introl Hd))).
Defined.

Lemma apply_op_cache (self : t) (o : op) :
  cached_sentiment (apply_op self o) = cached_sentiment self
  \/ cached_sentiment (apply_op self o) = Some neutral_reading.
Proof.
  destruct o as [c | why | | equity]; cbn [apply_op]; [| left; reflexivity ..].
  unfold evaluate.
  destruct (validate_shape self (c_now c) (c_signal c) (c_account c) (c_positions c)
              (c_sentiment c)) as (d & self' & -> & _ & _ & _ & _ & Hc).
  exact Hc.
Qed.

Lemma run_cache (ops : list op) (self : t) :
  cached_sentiment self = None \/ cached_sentiment self = Some neutral_reading ->
  cached_sentiment (run self ops) = None
  \/ cached_sentiment (run self ops) = Some neutral_reading.
Proof.
  unfold run. induction ops as [| o ops IH] in self |- *; intros H; [exact H |].
  cbn [foldl]. apply IH.
  destruct (apply_op_cache self o) as [-> | ->]; auto.
Qed.

(** X12.  The gate never caches a reading it was given: on a manager
    built by the constructor and driven by any run of validate, pause,
    resume and reset calls, the cache is empty or holds the neutral
    default, so a call that brings no reading is always judged on score 0. *)
Theorem cache_holds_neutral_only (c : config) (ops : list op) (now : Qc) :
  (cached_sentiment (run (init c) ops) = None
   \/ cached_sentiment (run (init c) ops) = Some neutral_reading)
  /\ s_sentiment_score (_check_sentiment (run (init c) ops) now None).1 = Q2Qc 0.0.
Proof.
  assert (H : cached_sentiment (run (init c) ops) = None
              \/ cached_sentiment (run (init c) ops) = Some neutral_reading)
    by (apply run_cache; left; reflexivity).
  split; [exact H |].
  unfold _check_sentiment. cbn [dict_truthy].
  destruct H as [-> | ->].
  - cbn [dict_truthy andb]. repeat case_decide; reflexivity.
  - destruct (bool_decide (_ - _ < _)); cbn; repeat case_decide; reflexivity.
Qed.

(** X13.  Pausing and resuming an unpaused gate gives the gate back as it
    was; in between, every [validate_signal] call is rejected with the
    reason given to [pause_trading] and changes nothing. *)
Theorem pause_then_resume (self : t) (why : string) (c : call) :
  is_paused self = false ->
  pause_reason self = None ->
  resume_trading (pause_trading self why) = self
  /\ evaluate (pause_trading self why) c
     = Ok (rejected (TradingPaused (Some (Text why))) [], pause_trading self why).
Proof.
  intros Hp Hr. split; [| reflexivity].
  destruct self. cbn in *. subst. reflexivity.
Qed.

Lemma pause_then_resume_witness :
  is_paused scenario_manager = false
  /\ pause_reason scenario_manager = None
  /\ resume_trading (pause_trading scenario_manager "maintenance") = scenario_manager.
Proof.
  assert (Hp : is_paused scenario_manager = false) by reflexivity.
  assert (Hr : pause_reason scenario_manager = None) by reflexivity.
  split; [exact Hp |]. split; [exact Hr |].
  exact (proj1 (pause_then_resume scenario_manager "maintenance" healthy_call Hp Hr)).
Defined.

Lemma drawdown_of_new_high (self : t) (acct : account_info) :
  max_equity self <= get_or (total acct) 0 ->
  max_equity (high_water self acct) = get_or (total acct) 0
  /\ drawdown_of self acct = 0.
Proof.
  intros Hle.
  assert (Htop : max_equity (high_water self acct) = get_or (total acct) 0).
  { unfold high_water. case_decide as Hlt; [reflexivity |].
    apply Qcle_antisym; [exact Hle | apply Qcnot_lt_le; exact Hlt]. }
  split; [exact Htop |].
  unfold drawdown_of. cbv zeta. rewrite Htop. case_decide as Hpos.
  - field. apply Qc_pos_nonzero. exact Hpos.
  - apply Qc_is_canon. reflexivity.
Qed.

(** X14.  An account at or above the high-water mark has drawdown 0: the
    drawdown gate moves the mark to the account's total, and approves
    without pausing when [max_drawdown] is positive.  With a
    [max_drawdown] of 0 or less it rejects and pauses even then. *)
Theorem new_high_has_no_drawdown (self : t) (acct : account_info) :
  max_equity self <= get_or (total acct) 0 ->
  exists r self',
    _check_drawdown self acct = Ok (r, self')
    /\ d_drawdown r = 0
    /\ max_equity self' = get_or (total acct) 0
    /\ (0 < max_drawdown_of self ->
        d_approved r = true /\ is_paused self' = is_paused self)
    /\ (max_drawdown_of self <= 0 ->
        d_approved r = false /\ is_paused self' = true).
Proof.
  intros Hle. destruct (drawdown_of_new_high self acct Hle) as [Htop Hdd].
  assert (Hp : is_paused (high_water self acct) = is_paused self)
    by (rewrite high_water_eq; reflexivity).
  rewrite check_drawdown_eq, Hdd.
  destruct (decide (max_drawdown_of self <= 0)) as [Hm | Hm].
  - do 2 eexists. split; [reflexivity |]. cbn. split; [reflexivity |].
    split; [exact Htop |]. split; [| auto].
    intros Hpos. exfalso. exact (Qclt_not_le _ _ Hpos Hm).
  - do 2 eexists. split; [reflexivity |]. cbn. split; [reflexivity |].
    split; [exact Htop |]. split; [auto |].
    intros Hc. contradiction.
Qed.

Lemma new_high_has_no_drawdown_witness :
  max_equity scenario_manager <= get_or (total (c_account healthy_call)) 0
  /\ exists r self',
       _check_drawdown scenario_manager (c_account healthy_call) = Ok (r, self')
       /\ d_approved r = true
       /\ max_equity self' = Q2Qc 20000.
Proof.
  assert (Hle : max_equity scenario_manager <= get_or (total (c_account healthy_call)) 0)
    by (vm_compute; discriminate).
  split; [exact Hle |].
  destruct (new_high_has_no_drawdown scenario_manager (c_account healthy_call) Hle)
    as (r & self' & Hc & _ & Htop & Hyes & _).
  exists r, self'. split; [exact Hc |].
  split; [apply Hyes; reflexivity | exact Htop].
Defined.

(** X15.  The drawdown the gate measures is never negative, and it is at
    most 1 when the account's total is not negative; the mark it leaves
    is the larger of the old mark and the total. *)
Theorem measured_drawdown_range (self : t) (acct : account_info) :
  exists r self',
    _check_drawdown self acct = Ok (r, self')
    /\ 0 <= d_drawdown r
    /\ (0 <= get_or (total acct) 0 -> d_drawdown r <= 1)
    /\ max_equity self' = py_max (max_equity self) (get_or (total acct) 0).
Proof.
  assert (Htop : max_equity (high_water self acct)
                 = py_max (max_equity self) (get_or (total acct) 0))
    by (rewrite high_water_eq; reflexivity).
  assert (Hge : get_or (total acct) 0 <= max_equity (high_water self acct))
    by (rewrite Htop; apply py_max_ge_r).
  assert (Hdd : 0 <= drawdown_of self acct
                /\ (0 <= get_or (total acct) 0 -> drawdown_of self acct <= 1)).
  { unfold drawdown_of. cbv zeta.
    set (top := max_equity (high_water self acct)) in *.
    set (tot := get_or (total acct) 0) in *.
    case_decide as Hpos.
    - split.
      + apply TakeProfitProps.div_nonneg; [| exact Hpos].
        apply (proj1 (Qcle_minus_iff tot top)) in Hge. exact Hge.
      + intros Htot.
        replace 1 with (top / top) by (field; apply Qc_pos_nonzero; exact Hpos).
        apply Qc_div_le_compat; [exact Hpos |].
        apply (proj2 (Qcle_minus_iff (top - tot) top)).
        replace (top + - (top - tot)) with tot by ring. exact Htot.
    - split; [discriminate | intros _; discriminate]. }
  destruct Hdd as [Hlo Hhi].
  rewrite check_drawdown_eq.
  case_decide; do 2 eexists; (split; [reflexivity |]); cbn;
    (split; [exact Hlo |]); (split; [exact Hhi | exact Htop]).
Qed.

Lemma measured_drawdown_range_witness :
  exists r self',
    _check_drawdown scenario_manager (c_account scenario_call) = Ok (r, self')
    /\ 0 <= get_or (total (c_account scenario_call)) 0
    /\ d_drawdown r <= 1.
Proof.
  destruct (measured_drawdown_range scenario_manager (c_account scenario_call))
    as (r & self' & Hc & _ & Hhi & _).
  assert (Htot : 0 <= get_or (total (c_account scenario_call)) 0)
    by (vm_compute; discriminate).
  exists r, self'. split; [exact Hc |]. split; [exact Htot | exact (Hhi Htot)].
Defined.

(** [_check_liquidation_risk] in one equation: it never raises, because
    the division is guarded by the total being positive. *)
Lemma check_liquidation_eq (self : t) (acct : account_info)
    (positions : option (list open_position)) :
  _check_liquidation_risk self acct positions
  = Ok (if bool_decide (positions = None)
           || bool_decide (length (get_or positions []) = 0%nat)
        then {| l_approved := true; l_reason := NoPositions; l_risk_rate := Q2Qc 0.0;
                l_warnings := [] |}
        else
          let risk_rate :=
            if decide (0 < get_or (total acct) 0)
            then get_or (used acct) 0 / get_or (total acct) 0 else Q2Qc 0.0 in
          if decide (get2 (liquidation_monitor (cfg self)) lm_critical_threshold
                       (Q2Qc 0.50) <= risk_rate)
          then {| l_approved := false; l_reason := CriticalLiquidationRisk risk_rate;
                  l_risk_rate := risk_rate; l_warnings := [ImmediateActionRequired] |}
          else {| l_approved := true; l_reason := LiquidationRiskAcceptable;
                  l_risk_rate := risk_rate;
                  l_warnings :=
                    if decide (get2 (liquidation_monitor (cfg self)) lm_warning_threshold
                                 (Q2Qc 0.20) <= risk_rate)
                    then [WarningRiskRate risk_rate] else [] |}).
Proof.
  unfold _check_liquidation_risk.
  destruct (_ || _); [reflexivity |]. cbv zeta.
  destruct (decide (0 < get_or (total acct) 0)) as [Ht | Ht].
  - rewrite py_div_ok by (apply Qc_pos_nonzero; exact Ht). rewrite rbind_ok.
    repeat case_decide; reflexivity.
  - rewrite rbind_ok. repeat case_decide; reflexivity.
Qed.

(** With a total that is not positive the rate is 0, and a positive
    critical threshold lets it through. *)
Lemma liquidation_zero_total (self : t) (acct : account_info)
    (positions : option (list open_position)) :
  get_or (total acct) 0 <= 0 ->
  0 < get2 (liquidation_monitor (cfg self)) lm_critical_threshold (Q2Qc 0.50) ->
  exists liq,
    _check_liquidation_risk self acct positions = Ok liq
    /\ l_approved liq = true
    /\ l_risk_rate liq = Q2Qc 0.0.
Proof.
  intros Htot Hcrit. rewrite check_liquidation_eq.
  destruct (_ || _); [eexists; repeat split |]. cbv zeta.
  rewrite (decide_False (P := 0 < get_or (total acct) 0))
    by (apply Qcle_not_lt; exact Htot).
  rewrite decide_False by (apply Qclt_not_le; exact Hcrit).
  eexists. repeat split.
Qed.

(** X16.  [_check_liquidation_risk] never raises.  With no positions it
    approves at risk rate 0 without reading the account; an account whose
    total is not positive is rated 0 as well; and it rejects exactly when
    there are positions and the rate has reached the critical threshold. *)
Theorem liquidation_gate_verdict (self : t) (acct : account_info)
    (positions : option (list open_position)) :
  exists r,
    _check_liquidation_risk self acct positions = Ok r
    /\ (positions = None \/ positions = Some [] ->
        l_approved r = true /\ l_risk_rate r = Q2Qc 0.0 /\ l_warnings r = [])
    /\ (get_or (total acct) 0 <= 0 -> l_risk_rate r = Q2Qc 0.0)
    /\ (l_approved r = false <->
        get_or positions [] <> []
        /\ get2 (liquidation_monitor (cfg self)) lm_critical_threshold (Q2Qc 0.50)
           <= l_risk_rate r).
Proof.
  rewrite check_liquidation_eq. eexists. split; [reflexivity |].
  destruct positions as [[| p ps] |]; cbn [bool_decide orb get_or length].
  - rewrite (bool_decide_eq_false_2 (Some [] = None)) by discriminate.
    rewrite bool_decide_eq_true_2 by reflexivity. cbn.
    split; [auto |]. split; [reflexivity |].
    split; [discriminate | intros [H _]; contradiction].
  - rewrite (bool_decide_eq_false_2 (Some (p :: ps) = None)) by discriminate.
    rewrite (bool_decide_eq_false_2 (length (p :: ps) = 0%nat)) by discriminate.
    cbn [orb]. cbv zeta.
    split; [intros [H | H]; discriminate H |].
    destruct (decide (0 < get_or (total acct) 0)) as [Ht | Ht].
    + destruct (decide (_ <= _)) as [Hc | Hc]; cbn.
      * split; [intros Hle; exfalso; exact (Qclt_not_le _ _ Ht Hle) |].
        split; [intros _; split; [discriminate | exact Hc] | reflexivity].
      * split; [intros Hle; exfalso; exact (Qclt_not_le _ _ Ht Hle) |].
        split; [discriminate | intros [_ H]; contradiction].
    + destruct (decide (_ <= _)) as [Hc | Hc]; cbn.
      * split; [reflexivity |].
        split; [intros _; split; [discriminate | exact Hc] | reflexivity].
      * split; [reflexivity |].
        split; [discriminate | intros [_ H]; contradiction].
  - rewrite bool_decide_eq_true_2 by reflexivity. cbn.
    split; [auto |]. split; [reflexivity |].
    split; [discriminate | intros [H _]; contradiction].
Qed.

Lemma liquidation_gate_verdict_witness :
  exists r,
    _check_liquidation_risk fud_manager fud_account (Some []) = Ok r
    /\ l_approved r = true.
Proof.
  destruct (liquidation_gate_verdict fud_manager fud_account (Some []))
    as (r & Hr & Hnone & _).
  exists r. split; [exact Hr |]. exact (proj1 (Hnone (or_intror eq_refl))).
Defined.

Lemma check_balance_zero_total (acct : account_info) :
  get_or (total acct) 0 = 0 ->
  _check_account_balance acct = Ok {| b_approved := true; b_reason := BalanceSufficient |}.
Proof.
  intros Ht. unfold _check_account_balance. rewrite Ht.
  rewrite (bool_decide_eq_false_2 (0 < 0)) by discriminate. reflexivity.
Qed.

(** X17.  An account with nothing in it passes every gate: on a gate
    that is not paused and whose high-water mark is not positive (a fresh
    one), with positive [max_drawdown] and critical liquidation
    threshold, a signal that is not a buy is approved at multiplier 1.0
    when the account's total is 0 or missing, with or without positions. *)
Theorem empty_account_is_approved (self : t) (now : Qc) (sig : signal)
    (acct : account_info) (positions : option (list open_position))
    (s : option sentiment_reading) :
  is_paused self = false ->
  max_equity self <= 0 ->
  0 < max_drawdown_of self ->
  0 < get2 (liquidation_monitor (cfg self)) lm_critical_threshold (Q2Qc 0.50) ->
  direction sig <> "buy" ->
  get_or (total acct) 0 = 0 ->
  exists d self',
    validate_signal self now sig acct positions s = Ok (d, self')
    /\ approved d = true
    /\ position_size_multiplier d = Q2Qc 1.0
    /\ is_paused self' = false.
Proof.
  intros Hp Hmax Hdd Hcrit Hdir Htot.
  unfold validate_signal. rewrite Hp.
  rewrite (bool_decide_eq_false_2 (direction sig = "buy")) by exact Hdir.
  rewrite andb_false_r.
  unfold gates_after_sentiment.
  destruct (liquidation_zero_total self acct positions) as (liq & -> & Hla & Hr0);
    [rewrite Htot; apply Qcle_refl | exact Hcrit |].
  rewrite rbind_ok, Hla, Hr0. cbn [negb].
  rewrite decide_False by discriminate.
  assert (Hle : max_equity self <= get_or (total acct) 0) by (rewrite Htot; exact Hmax).
  destruct (drawdown_of_new_high self acct Hle) as [_ Hdd0].
  rewrite check_drawdown_eq, Hdd0, rbind_ok.
  rewrite decide_False by (apply Qclt_not_le; exact Hdd). cbn [negb d_approved].
  rewrite (check_balance_zero_total acct Htot), rbind_ok. cbn [negb b_approved].
  do 2 eexists. split; [reflexivity |]. cbn.
  split; [reflexivity |]. split; [reflexivity |].
  rewrite high_water_eq. exact Hp.
Qed.

Lemma empty_account_is_approved_witness :
  exists d self',
    validate_signal fud_manager (Q2Qc 0) sell_signal empty_account None None
    = Ok (d, self')
    /\ approved d = true
    /\ position_size_multiplier d = Q2Qc 1.0.
Proof.
  destruct (empty_account_is_approved fud_manager (Q2Qc 0) sell_signal empty_account
              None None) as (d & self' & Hv & Ha & Hm & _);
    [reflexivity | vm_compute; discriminate | reflexivity | reflexivity
    | discriminate | reflexivity |].
  exists d, self'. split; [exact Hv |]. split; [exact Ha | exact Hm].
Defined.

End GateFacts.

(** ** StopLossManager: what an update can and cannot change *)

Module StopLossFacts.
Import StopLossManager StopLossProps.

Lemma set_stops_same (self : t) : set_stops self (position_stops self) = self.
Proof. destruct self; reflexivity. Qed.

(** Tracking moves the trailing state only: the terms the position was
    opened on are never rewritten. *)
Lemma track_terms (self : t) (si : stop_info) (price pnl : Qc) :
  fixed_stop (track self si price pnl) = fixed_stop si
  /\ entry_price (track self si price pnl) = entry_price si
  /\ side (track self si price pnl) = side si
  /\ stop_pct (track self si price pnl) = stop_pct si.
Proof.
  unfold track.
  destruct (trailing_enabled self && negb (trailing_activated si));
    repeat case_decide; cbn;
    try (destruct (trailing_activated si); repeat case_decide; cbn); auto.
Qed.

Lemma track_disabled (self : t) (si : stop_info) (price pnl : Qc) :
  trailing_enabled self = false ->
  trailing_activated si = false ->
  track self si price pnl = si.
Proof. intros He Ha. unfold track. rewrite He. cbn. rewrite Ha. reflexivity. Qed.

Lemma update_zero_entry (self : t) (symbol : string) (price : Qc) (si : stop_info) :
  position_stops self !! symbol = Some si ->
  entry_price si = 0 ->
  update_stop_loss self symbol price = Raise ZeroDivisionError.
Proof.
  intros Hl He. unfold update_stop_loss. rewrite Hl, He.
  case_decide; rewrite py_div_zero; reflexivity.
Qed.

(** Every operation leaves the settings of the manager alone. *)
Lemma apply_op_settings (self : t) (o : op) :
  exists m, apply_op self o = set_stops self m.
Proof.
  destruct o as [symbol pos strategy | symbol price | symbol]; cbn [apply_op].
  - eexists. reflexivity.
  - destruct (position_stops self !! symbol) as [si |] eqn:Hl.
    + destruct (decide (entry_price si = 0)) as [He | He].
      * rewrite (update_zero_entry _ _ _ _ Hl He).
        exists (position_stops self). symmetry. apply set_stops_same.
      * rewrite (update_tracked _ _ _ _ Hl He). eexists. reflexivity.
    + rewrite (update_untracked _ _ _ Hl).
      exists (position_stops self). symmetry. apply set_stops_same.
  - eexists. reflexivity.
Qed.

Lemma run_settings (c : config) (ops : list op) :
  exists m, run c ops = set_stops (init c) m.
Proof.
  unfold run. induction ops as [| o ops IH] using rev_ind.
  - exists (position_stops (init c)). symmetry. apply set_stops_same.
  - rewrite foldl_snoc. destruct IH as [m ->].
    destruct (apply_op_settings (set_stops (init c) m) o) as [m' ->].
    exists m'. reflexivity.
Qed.

(** X18.  An [update_stop_loss] that returns touches the tracked dict of
    its own symbol only, and there it never rewrites the terms the
    position was opened on: the fixed stop, the entry price, the side and
    the stop percentage stay as [initialize_stop_loss] set them, and the
    symbol stays tracked even when the stop has triggered. *)
Theorem update_keeps_opening_terms (self : t) (symbol : string) (price : Qc)
    (r : update_result) (self' : t) :
  update_stop_loss self symbol price = Ok (r, self') ->
  (forall other, other <> symbol ->
     position_stops self' !! other = position_stops self !! other)
  /\ (forall si, position_stops self !! symbol = Some si ->
      exists si',
        position_stops self' !! symbol = Some si'
        /\ fixed_stop si' = fixed_stop si
        /\ entry_price si' = entry_price si
        /\ side si' = side si
        /\ stop_pct si' = stop_pct si).
Proof.
  intros Hu. destruct (position_stops self !! symbol) as [si |] eqn:Hl.
  - destruct (decide (entry_price si = 0)) as [He | He].
    { rewrite (update_zero_entry _ _ _ _ Hl He) in Hu. discriminate. }
    rewrite (update_tracked _ _ _ _ Hl He) in Hu. injection Hu as _ <-.
    cbn [position_stops set_stops]. split.
    + intros other Hne. apply lookup_insert_ne. congruence.
    + intros si0 [= <-]. eexists. split; [apply lookup_insert_eq |].
      apply track_terms.
  - rewrite (update_untracked _ _ _ Hl) in Hu. injection Hu as _ <-.
    split; [reflexivity | intros si Hc; congruence].
Qed.

Lemma update_keeps_opening_terms_witness :
  exists r self' si',
    update_stop_loss (run default_config trailing_run) "BTCUSDT" (Q2Qc 103.9)
    = Ok (r, self')
    /\ stop_triggered r = true
    /\ position_stops self' !! "BTCUSDT" = Some si'
    /\ entry_price si' = Q2Qc 100.
Proof.
  destruct (update_stop_loss (run default_config trailing_run) "BTCUSDT" (Q2Qc 103.9))
    as [[r self'] | e] eqn:Hu; [| vm_compute in Hu; discriminate].
  destruct (position_stops (run default_config trailing_run) !! "BTCUSDT")
    as [si |] eqn:Hl; [| vm_compute in Hl; discriminate].
  destruct (proj2 (update_keeps_opening_terms _ _ _ _ _ Hu) si Hl)
    as (si' & Hl' & _ & He & _).
  exists r, self', si'. split; [reflexivity |].
  split; [revert Hu; vm_compute; intros [= <- _]; reflexivity |].
  split; [exact Hl' |]. rewrite He.
  revert Hl. vm_compute. intros [= <-]. reflexivity.
Defined.

(** X19.  An update of a tracked symbol raises [ZeroDivisionError]
    exactly when the position was opened at an entry price of 0, which
    [initialize_stop_loss] accepts; with any other entry price it
    returns. *)
Theorem update_raises_iff_zero_entry (self : t) (symbol : string) (price : Qc)
    (si : stop_info) :
  position_stops self !! symbol = Some si ->
  (update_stop_loss self symbol price = Raise ZeroDivisionError
   <-> entry_price si = 0)
  /\ (entry_price si <> 0 -> returns (update_stop_loss self symbol price)).
Proof.
  intros Hl. destruct (decide (entry_price si = 0)) as [He | He].
  - rewrite (update_zero_entry _ _ _ _ Hl He). split; [tauto | contradiction].
  - rewrite (update_tracked _ _ _ _ Hl He). cbn.
    split; [split; [discriminate | contradiction] | auto].
Qed.

Lemma update_raises_iff_zero_entry_witness :
  exists si,
    position_stops zero_entry_stops !! "BTCUSDT" = Some si
    /\ update_stop_loss zero_entry_stops "BTCUSDT" (Q2Qc 1) = Raise ZeroDivisionError.
Proof.
  eexists. split; [apply lookup_insert_eq |].
  refine (proj2 (proj1 (update_raises_iff_zero_entry zero_entry_stops "BTCUSDT"
                          (Q2Qc 1) _ _)) _).
  - apply lookup_insert_eq.
  - reflexivity.
Defined.

Lemma disabled_apply_op (self : t) (o : op) :
  trailing_enabled self = false ->
  (forall symbol si, position_stops self !! symbol = Some si ->
     trailing_activated si = false /\ trailing_stop si = fixed_stop si) ->
  forall symbol si, position_stops (apply_op self o) !! symbol = Some si ->
    trailing_activated si = false /\ trailing_stop si = fixed_stop si.
Proof.
  intros Hen Hall.
  destruct o as [sym pos strategy | sym price | sym]; cbn [apply_op];
    intros symbol si Hl.
  - cbn [initialize_stop_loss snd position_stops set_stops] in Hl.
    apply lookup_insert_Some in Hl as [[_ <-] | [_ Hl]]; [cbn; auto | eauto].
  - destruct (position_stops self !! sym) as [si0 |] eqn:Hl0.
    + destruct (decide (entry_price si0 = 0)) as [He | He].
      * rewrite (update_zero_entry _ _ _ _ Hl0 He) in Hl. eauto.
      * rewrite (update_tracked _ _ _ _ Hl0 He) in Hl.
        rewrite (track_disabled _ _ _ _ Hen (proj1 (Hall _ _ Hl0))) in Hl.
        cbn [position_stops set_stops] in Hl.
        apply lookup_insert_Some in Hl as [[_ <-] | [_ Hl]]; eauto.
    + rewrite (update_untracked _ _ _ Hl0) in Hl. eauto.
  - unfold remove_stop_loss in Hl. cbn [position_stops set_stops] in Hl.
    apply lookup_delete_Some in Hl as [_ Hl]. eauto.
Qed.

(** X20.  With [trailing_enabled] off, on every manager reached from the
    constructor by any run of calls no tracked position is ever switched
    to trailing: its trailing stop is still the fixed stop, and no update
    reports a trailing trigger. *)
Theorem trailing_disabled_stays_fixed (c : config) (ops : list op) (symbol : string)
    (si : stop_info) (price : Qc) :
  trailing_enabled (init c) = false ->
  position_stops (run c ops) !! symbol = Some si ->
  trailing_activated si = false
  /\ trailing_stop si = fixed_stop si
  /\ forall r self', update_stop_loss (run c ops) symbol price = Ok (r, self') ->
       stop_kind r <> Some Trailing.
Proof.
  intros Hen Hl.
  assert (Hen' : trailing_enabled (run c ops) = false).
  { destruct (run_settings c ops) as [m ->]. exact Hen. }
  assert (Hall : forall symbol si, position_stops (run c ops) !! symbol = Some si ->
            trailing_activated si = false /\ trailing_stop si = fixed_stop si).
  { unfold run in *. clear Hl Hen'.
    induction ops as [| o ops IH] using rev_ind.
    - intros sym si0 H0. cbn in H0. rewrite lookup_empty in H0. discriminate.
    - rewrite foldl_snoc. apply disabled_apply_op; [| exact IH].
      destruct (run_settings c ops) as [m Hm]. unfold run in Hm. rewrite Hm. exact Hen. }
  destruct (Hall _ _ Hl) as [Ha Hs].
  split; [exact Ha |]. split; [exact Hs |].
  intros r self' Hu.
  destruct (decide (entry_price si = 0)) as [He | He].
  { rewrite (update_zero_entry _ _ _ _ Hl He) in Hu. discriminate. }
  rewrite (update_tracked _ _ _ _ Hl He) in Hu. injection Hu as <- _.
  rewrite (track_disabled _ _ _ _ Hen' Ha).
  unfold trigger. rewrite Ha. repeat case_decide; cbn; discriminate.
Qed.

Lemma trailing_disabled_stays_fixed_witness :
  exists si,
    trailing_enabled (init fixed_only_config) = false
    /\ position_stops (run fixed_only_config trailing_run) !! "BTCUSDT" = Some si
    /\ trailing_activated si = false.
Proof.
  assert (Hen : trailing_enabled (init fixed_only_config) = false) by reflexivity.
  destruct (position_stops (run fixed_only_config trailing_run) !! "BTCUSDT")
    as [si |] eqn:Hl; [| vm_compute in Hl; discriminate].
  exists si. split; [exact Hen |]. split; [reflexivity |].
  exact (proj1 (trailing_disabled_stays_fixed fixed_only_config trailing_run "BTCUSDT"
                  si (Q2Qc 105) Hen Hl)).
Defined.

(** X21.  [initialize_stop_loss], [get_stop_loss] and [remove_stop_loss]
    fit together: what is initialized is what is read back; a removed
    symbol reads as untracked; neither call touches another symbol;
    removing an untracked symbol changes nothing, so initializing a new
    symbol and removing it gives the manager back as it was. *)
Theorem stop_lifecycle (self : t) (symbol : string) (pos : position)
    (strategy : string) :
  get_stop_loss (initialize_stop_loss self symbol pos strategy).2 symbol
  = Some (initialize_stop_loss self symbol pos strategy).1
  /\ get_stop_loss (remove_stop_loss self symbol) symbol = None
  /\ (forall other, other <> symbol ->
        get_stop_loss (initialize_stop_loss self symbol pos strategy).2 other
        = get_stop_loss self other
        /\ get_stop_loss (remove_stop_loss self symbol) other = get_stop_loss self other)
  /\ (get_stop_loss self symbol = None ->
        remove_stop_loss self symbol = self
        /\ remove_stop_loss (initialize_stop_loss self symbol pos strategy).2 symbol
           = self).
Proof.
  unfold get_stop_loss, remove_stop_loss, initialize_stop_loss.
  cbn [fst snd position_stops set_stops].
  split; [apply lookup_insert_eq |].
  split; [apply lookup_delete_eq |].
  split.
  - intros other Hne.
    split; [apply lookup_insert_ne | apply lookup_delete_ne]; congruence.
  - intros Hl. split.
    + rewrite delete_id by exact Hl. apply set_stops_same.
    + rewrite delete_insert_id by exact Hl.
      destruct self; reflexivity.
Qed.

Lemma stop_lifecycle_witness :
  get_stop_loss (init default_config) "BTCUSDT" = None
  /\ remove_stop_loss
       (initialize_stop_loss (init default_config) "BTCUSDT"
          {| pos_side := "buy"; pos_entry_price := Q2Qc 100 |} "default").2 "BTCUSDT"
     = init default_config.
Proof.
  assert (Hl : get_stop_loss (init default_config) "BTCUSDT" = None) by reflexivity.
  split; [exact Hl |].
  exact (proj2 (proj2 (proj2 (proj2 (stop_lifecycle (init default_config) "BTCUSDT"
            {| pos_side := "buy"; pos_entry_price := Q2Qc 100 |} "default"))) Hl)).
Defined.

(** X22.  Once trailing, the stop only tightens.  On a manager reached
    under a positive activation threshold and positive entry prices,
    with a trailing distance between -1 and 1, an update of a position
    that is already trailing never lowers the trailing stop of a long and
    never raises that of a short. *)
Theorem trailing_stop_only_tightens (c : config) (ops : list op) (symbol : string)
    (price : Qc) (si : stop_info) :
  0 < trailing_activation_pct (init c) ->
  Forall valid_op ops ->
  - (1) <= trailing_distance_pct (init c) ->
  trailing_distance_pct (init c) <= 1 ->
  position_stops (run c ops) !! symbol = Some si ->
  trailing_activated si = true ->
  exists r self' si',
    update_stop_loss (run c ops) symbol price = Ok (r, self')
    /\ position_stops self' !! symbol = Some si'
    /\ trailing_activated si' = true
    /\ (side si = "buy" -> trailing_stop si <= trailing_stop si')
    /\ (side si <> "buy" -> trailing_stop si' <= trailing_stop si).
Proof.
  intros Ha Hv Hlo Hhi Hl Hact.
  assert (Hd : trailing_distance_pct (run c ops) = trailing_distance_pct (init c)).
  { destruct (run_settings c ops) as [m ->]. reflexivity. }
  assert (Hinit : all_tracked_ok (init c)).
  { intros sym si0 H0. cbn in H0. rewrite lookup_empty in H0. discriminate. }
  destruct (foldl_ok ops (init c) Ha Hinit Hv) as [Hall Ha'].
  fold (run c ops) in Hall, Ha'.
  pose proof (Hall _ _ Hl) as Hok.
  destruct (track_preserves (run c ops) si price Ha' Hok) as [_ Hstep].
  destruct (track_terms (run c ops) si price (pnl_of si price)) as (_ & _ & Hside & _).
  rewrite (update_tracked _ _ _ _ Hl) by (apply Qc_pos_nonzero; exact (ok_entry _ _ Hok)).
  set (si' := track (run c ops) si price (pnl_of si price)) in *.
  do 2 eexists. exists si'.
  split; [reflexivity |].
  split; [cbn [position_stops set_stops]; apply lookup_insert_eq |].
  pose proof (step_activation _ _ _ Hstep Hact) as Hact'.
  split; [exact Hact' |].
  rewrite (ok_trailing _ _ Hok Hact), (step_trailing _ _ _ Hstep Hact').
  unfold trailing_target. rewrite Hside, Hd.
  split; intros Hs.
  - rewrite !decide_True by exact Hs.
    apply Qcmult_le_compat_r; [exact (step_highest _ _ _ Hstep Hs) |].
    apply (proj1 (Qcle_minus_iff _ _)) in Hhi. exact Hhi.
  - rewrite !decide_False by exact Hs.
    apply Qcmult_le_compat_r; [exact (step_lowest _ _ _ Hstep Hs) |].
    apply (proj1 (Qcle_minus_iff _ _)) in Hlo.
    replace (1 + trailing_distance_pct (init c))
      with (trailing_distance_pct (init c) + - - (1)) by ring.
    exact Hlo.
Qed.

Lemma trailing_stop_only_tightens_witness :
  exists si r self' si',
    position_stops (run default_config trailing_run) !! "BTCUSDT" = Some si
    /\ trailing_activated si = true
    /\ update_stop_loss (run default_config trailing_run) "BTCUSDT" (Q2Qc 110)
       = Ok (r, self')
    /\ position_stops self' !! "BTCUSDT" = Some si'
    /\ trailing_stop si <= trailing_stop si'.
Proof.
  destruct (position_stops (run default_config trailing_run) !! "BTCUSDT")
    as [si |] eqn:Hl; [| vm_compute in Hl; discriminate].
  assert (Hact : trailing_activated si = true)
    by (revert Hl; vm_compute; intros [= <-]; reflexivity).
  assert (Hside : side si = "buy")
    by (revert Hl; vm_compute; intros [= <-]; reflexivity).
  destruct (trailing_stop_only_tightens default_config trailing_run "BTCUSDT" (Q2Qc 110) si)
    as (r & self' & si' & Hu & Hl' & _ & Hbuy & _);
    [reflexivity | repeat constructor | vm_compute; discriminate
    | vm_compute; discriminate | exact Hl | exact Hact |].
  exists si, r, self', si'. split; [reflexivity |]. split; [exact Hact |].
  split; [exact Hu |]. split; [exact Hl' | exact (Hbuy Hside)].
Defined.

End StopLossFacts.

(** ** TakeProfitManager: how a ladder advances *)

Module TakeProfitFacts.
Import TakeProfitManager TakeProfitProps.

(** One turn of the loop on a sound ladder fills the level's whole target:
    what remains always covers it. *)
Lemma advance_eq (ti : tp_info) (lv : level) (now : Z) :
  info_ok ti ->
  levels ti !! next_index ti = Some lv ->
  advance ti lv now
  = ({| direction := direction ti;
        entry_price := entry_price ti;
        total_qty := total_qty ti;
        remaining_qty := remaining_qty ti - target_qty lv;
        levels := <[next_index ti := fill_level lv (target_qty lv) now]> (levels ti);
        next_index := S (next_index ti);
        created_at := created_at ti;
        completed := completed ti |},
     {| tl_index := index lv; tl_price := price lv; tl_ratio := ratio lv;
        tl_qty := target_qty lv; tl_pct := pct lv |})
  /\ 0 <= target_qty lv
  /\ 0 <= remaining_qty ti - target_qty lv.
Proof.
  intros [Hnext Htargets Hpending Hfilled Hrem] Hl.
  rewrite (drop_S _ _ _ Hl) in Hrem. cbn [fmap list_fmap] in Hrem.
  change (py_sum (target_qty lv :: (target_qty <$> drop (S (next_index ti)) (levels ti))))
    with (target_qty lv + py_sum (target_qty <$> drop (S (next_index ti)) (levels ti)))
    in Hrem.
  set (rest := py_sum (target_qty <$> drop (S (next_index ti)) (levels ti))) in *.
  assert (Hrest0 : 0 <= rest).
  { apply py_sum_nonneg, Forall_fmap.
    pose proof (Forall_drop _ (S (next_index ti)) _ Htargets) as Hd.
    revert Hd. apply Forall_impl. auto. }
  assert (Hdiff : remaining_qty ti - target_qty lv = rest) by (rewrite Hrem; ring).
  assert (Hqty : py_min (target_qty lv) (remaining_qty ti) = target_qty lv).
  { apply py_min_left. rewrite Hrem. apply le_plus_nonneg. exact Hrest0. }
  assert (Hleft : py_max (remaining_qty ti - target_qty lv) (Q2Qc 0.0)
                  = remaining_qty ti - target_qty lv).
  { rewrite zero_point_zero. apply py_max_left. rewrite Hdiff. exact Hrest0. }
  split; [unfold advance; rewrite Hqty, Hleft; reflexivity |].
  split; [| rewrite Hdiff; exact Hrest0].
  eapply Forall_lookup_1 in Htargets; [| exact Hl]. exact Htargets.
Qed.

Lemma ladder_progress_refl (ti : tp_info) : ladder_progress ti ti [].
Proof.
  constructor; try reflexivity.
  - cbn. lia.
  - cbn. unfold py_sum. cbn. ring.
  - constructor.
Qed.

Lemma ladder_progress_step (ti ti' : tp_info) (lv : level) (now : Z)
    (hits : list triggered_level) :
  info_ok ti ->
  levels ti !! next_index ti = Some lv ->
  ladder_progress (advance ti lv now).1 ti' hits ->
  ladder_progress ti ti' ((advance ti lv now).2 :: hits).
Proof.
  intros Hok Hl Hp. destruct (advance_eq ti lv now Hok Hl) as (Heq & H0 & _).
  pose proof (lookup_lt_Some _ _ _ Hl) as Hlt.
  rewrite Heq in *. cbn [fst snd] in *.
  destruct Hp as [Htot Hdir Hent Hnext Hlen Hdone Hpend Hfill Hnn Hord].
  cbn [total_qty direction entry_price next_index levels remaining_qty] in *.
  rewrite length_insert in Hlen.
  constructor; cbn [length fmap list_fmap tl_qty tl_price]; try assumption.
  - lia.
  - apply (f_equal (take (next_index ti))) in Hdone.
    rewrite !take_take in Hdone.
    replace (next_index ti `min` S (next_index ti))%nat with (next_index ti) in Hdone by lia.
    rewrite Hdone. apply take_insert_ge. lia.
  - rewrite Hpend. apply drop_insert_lt. lia.
  - change (py_sum (target_qty lv :: (tl_qty <$> hits)))
      with (target_qty lv + py_sum (tl_qty <$> hits)).
    rewrite Hfill. ring.
  - constructor; [exact H0 | exact Hnn].
  - rewrite (drop_S _ _ _ Hl). cbn [take fmap list_fmap]. f_equal.
    rewrite Hord. rewrite drop_insert_lt by lia. reflexivity.
Qed.

(** The [while] loop on a sound ladder: it extends the hits collected so
    far, and every level it adds was reached by the price. *)
Lemma ladder_run (fuel : nat) (now : Z) (current : Qc) (ti : tp_info)
    (acc : list triggered_level) :
  info_ok ti ->
  exists ti' hits,
    ladder fuel now current ti acc = (ti', acc ++ hits)
    /\ info_ok ti'
    /\ ladder_progress ti ti' hits
    /\ Forall (fun tl => _is_level_hit (direction ti) current (tl_price tl) = true) hits.
Proof.
  induction fuel as [| fuel IH] in ti, acc |- *; intros Hok.
  { exists ti, []. cbn [ladder]. rewrite app_nil_r.
    split; [reflexivity |]. split; [exact Hok |].
    split; [apply ladder_progress_refl | constructor]. }
  cbn [ladder].
  destruct (levels ti !! next_index ti) as [lv |] eqn:Hl.
  2:{ exists ti, []. rewrite app_nil_r.
      split; [reflexivity |]. split; [exact Hok |].
      split; [apply ladder_progress_refl | constructor]. }
  destruct (_is_level_hit (direction ti) current (price lv)) eqn:Hhit; cbn [negb].
  2:{ exists ti, []. rewrite app_nil_r.
      split; [reflexivity |]. split; [exact Hok |].
      split; [apply ladder_progress_refl | constructor]. }
  destruct (advance_ok ti lv now Hok Hl) as [Hok1 _].
  pose proof (ladder_progress_step ti) as Hstep.
  specialize (fun ti' hits => Hstep ti' lv now hits Hok Hl).
  assert (Hprice : tl_price (advance ti lv now).2 = price lv) by reflexivity.
  assert (Hdir : direction (advance ti lv now).1 = direction ti) by reflexivity.
  destruct (advance ti lv now) as [ti1 tl]. cbn [fst snd] in *.
  destruct (decide (remaining_qty ti1 <= 0)).
  - exists ti1, [tl]. split; [reflexivity |]. split; [exact Hok1 |].
    split; [apply Hstep, ladder_progress_refl |].
    constructor; [rewrite Hprice; exact Hhit | constructor].
  - destruct (IH ti1 (acc ++ [tl]) Hok1) as (ti' & hits & Hrun & Hok' & Hp & Hh).
    exists ti', (tl :: hits). rewrite Hrun, <- app_assoc.
    split; [reflexivity |]. split; [exact Hok' |].
    split; [apply Hstep; exact Hp |].
    constructor; [rewrite Hprice; exact Hhit |].
    rewrite <- Hdir. exact Hh.
Qed.

Lemma ladder_progress_set_completed (ti ti' : tp_info) (hits : list triggered_level)
    (b : bool) :
  ladder_progress ti ti' hits -> ladder_progress ti (set_completed ti' b) hits.
Proof. intros []. constructor; assumption. Qed.

(** [update_take_profit] on a tracked symbol whose ladder is sound. *)
Lemma update_progress (self : t) (now : Z) (symbol : string) (current : Qc)
    (ti0 : tp_info) :
  targets self !! symbol = Some ti0 ->
  info_ok ti0 ->
  exists ti,
    (update_take_profit self now symbol current).2
    = set_targets self (<[symbol := ti]> (targets self))
    /\ info_ok ti
    /\ ladder_progress ti0 ti
         (r_triggered_levels (update_take_profit self now symbol current).1)
    /\ Forall (fun tl => _is_level_hit (direction ti0) current (tl_price tl) = true)
         (r_triggered_levels (update_take_profit self now symbol current).1)
    /\ r_remaining_qty (update_take_profit self now symbol current).1 = remaining_qty ti
    /\ r_triggered (update_take_profit self now symbol current).1
       = negb (bool_decide
                 (r_triggered_levels (update_take_profit self now symbol current).1 = []))
    /\ r_completed (update_take_profit self now symbol current).1
       = bool_decide (length (levels ti) <= next_index ti)%nat
         || bool_decide (remaining_qty ti <= 0)
    /\ r_next_level_price (update_take_profit self now symbol current).1
       = price <$> (levels ti !! next_index ti).
Proof.
  intros Hl Hok. unfold update_take_profit. rewrite Hl.
  destruct (ladder_run (length (levels ti0) - next_index ti0) now current ti0 [] Hok)
    as (ti & hits & -> & Hok' & Hp & Hh).
  rewrite app_nil_l.
  cbn [fst snd r_triggered_levels r_remaining_qty r_triggered r_completed
       r_next_level_price].
  eexists. split; [reflexivity |].
  split; [apply info_ok_set_completed; exact Hok' |].
  split; [apply ladder_progress_set_completed; exact Hp |].
  split; [exact Hh |]. repeat split.
Qed.

Lemma reachable_ok (c : config) (m0 : t) (ops : list op) :
  init c = Ok m0 -> manager_ok (run m0 ops).
Proof.
  intros Hinit. destruct (init_ok c) as (m & Hm & Hok).
  assert (m = m0) by congruence. subst m.
  apply take_profit_run_ok. exact Hok.
Qed.

Lemma progress_remaining (ti ti' : tp_info) (hits : list triggered_level) :
  ladder_progress ti ti' hits -> remaining_qty ti' <= remaining_qty ti.
Proof.
  intros Hp. pose proof (py_sum_nonneg (tl_qty <$> hits)) as Hs.
  rewrite (lp_filled _ _ _ Hp) in Hs.
  apply (proj2 (Qcle_minus_iff _ _)). apply Hs.
  apply Forall_fmap. exact (lp_nonneg _ _ _ Hp).
Qed.

(** X26.  An update never moves a ladder backwards.  On a manager built
    by the constructor and driven by any run of calls, one more
    [update_take_profit] on a tracked symbol leaves the cursor where it
    was or further on, never raises [remaining_qty], keeps the number of
    levels, the direction and the entry price, and rewrites neither the
    levels already triggered nor the levels still pending. *)
Theorem ladder_only_advances (c : config) (m0 : t) (ops : list op) (now : Z)
    (symbol : string) (current : Qc) (ti0 : tp_info) :
  init c = Ok m0 ->
  targets (run m0 ops) !! symbol = Some ti0 ->
  exists ti,
    targets (update_take_profit (run m0 ops) now symbol current).2 !! symbol = Some ti
    /\ (next_index ti0 <= next_index ti <= length (levels ti))%nat
    /\ remaining_qty ti <= remaining_qty ti0
    /\ length (levels ti) = length (levels ti0)
    /\ direction ti = direction ti0
    /\ entry_price ti = entry_price ti0
    /\ take (next_index ti0) (levels ti) = take (next_index ti0) (levels ti0)
    /\ drop (next_index ti) (levels ti) = drop (next_index ti) (levels ti0).
Proof.
  intros Hinit Hl.
  pose proof (ok_targets_tracked _ (reachable_ok c m0 ops Hinit) _ _ Hl) as Hok0.
  destruct (update_progress (run m0 ops) now symbol current ti0 Hl Hok0)
    as (ti & -> & Hok & Hp & _).
  exists ti. split; [cbn [targets set_targets]; apply lookup_insert_eq |].
  split; [pose proof (lp_next _ _ _ Hp); pose proof (ok_next _ Hok); lia |].
  split; [exact (progress_remaining _ _ _ Hp) |].
  split; [exact (lp_length _ _ _ Hp) |].
  split; [exact (lp_direction _ _ _ Hp) |].
  split; [exact (lp_entry _ _ _ Hp) |].
  split; [exact (lp_done _ _ _ Hp) | exact (lp_pending _ _ _ Hp)].
Qed.

Lemma ladder_only_advances_witness :
  exists ti,
    init ladder_config = Ok ladder_manager
    /\ targets (run ladder_manager ladder_ops) !! "BTCUSDT" = Some ladder_info
    /\ targets (update_take_profit (run ladder_manager ladder_ops) 2 "BTCUSDT"
                  (Q2Qc 106)).2 !! "BTCUSDT" = Some ti
    /\ (next_index ladder_info <= next_index ti)%nat.
Proof.
  assert (Hi : init ladder_config = Ok ladder_manager) by (vm_compute; reflexivity).
  assert (Hl : targets (run ladder_manager ladder_ops) !! "BTCUSDT" = Some ladder_info)
    by (vm_compute; reflexivity).
  destruct (ladder_only_advances ladder_config ladder_manager ladder_ops 2 "BTCUSDT"
              (Q2Qc 106) ladder_info Hi Hl) as (ti & Ht & Hn & _).
  exists ti. split; [exact Hi |]. split; [exact Hl |]. split; [exact Ht | lia].
Defined.

(** X27.  An update reports the levels it went through.  On a reachable
    manager there is one entry in [triggered_levels] per level the cursor
    moved over, none of the reported quantities is negative, and
    [triggered] is true exactly when there is an entry, that is, exactly
    when the cursor moved. *)
Theorem reported_levels_counted (c : config) (m0 : t) (ops : list op) (now : Z)
    (symbol : string) (current : Qc) (ti0 : tp_info) :
  init c = Ok m0 ->
  targets (run m0 ops) !! symbol = Some ti0 ->
  exists ti,
    let r := (update_take_profit (run m0 ops) now symbol current).1 in
    targets (update_take_profit (run m0 ops) now symbol current).2 !! symbol = Some ti
    /\ Forall (fun tl => 0 <= tl_qty tl) (r_triggered_levels r)
    /\ length (r_triggered_levels r) = (next_index ti - next_index ti0)%nat
    /\ (r_triggered r = true <-> r_triggered_levels r <> [])
    /\ (r_triggered r = false <-> next_index ti = next_index ti0).
Proof.
  intros Hinit Hl.
  pose proof (ok_targets_tracked _ (reachable_ok c m0 ops Hinit) _ _ Hl) as Hok0.
  destruct (update_progress (run m0 ops) now symbol current ti0 Hl Hok0)
    as (ti & Hself & Hok & Hp & _ & _ & Htrig & _).
  exists ti. cbv zeta. rewrite Hself at 1.
  split; [cbn [targets set_targets]; apply lookup_insert_eq |].
  rewrite Htrig.
  set (hits := r_triggered_levels (update_take_profit (run m0 ops) now symbol current).1) in *.
  pose proof (lp_next _ _ _ Hp) as Hnext.
  split; [exact (lp_nonneg _ _ _ Hp) |].
  split; [lia |].
  destruct hits as [| tl hits].
  - cbn in Hnext. split; [split; [discriminate | congruence] | split; [lia | reflexivity]].
  - cbn in Hnext.
    rewrite (bool_decide_eq_false_2 (tl :: hits = [])) by discriminate. cbn [negb].
    split; [split; [discriminate | reflexivity] | split; [discriminate | lia]].
Qed.

Lemma reported_levels_counted_witness :
  exists ti,
    init ladder_config = Ok ladder_manager
    /\ targets (run ladder_manager ladder_ops) !! "BTCUSDT" = Some ladder_info
    /\ targets (update_take_profit (run ladder_manager ladder_ops) 2 "BTCUSDT"
                  (Q2Qc 106)).2 !! "BTCUSDT" = Some ti
    /\ length (r_triggered_levels
                 (update_take_profit (run ladder_manager ladder_ops) 2 "BTCUSDT"
                    (Q2Qc 106)).1)
       = (next_index ti - next_index ladder_info)%nat.
Proof.
  assert (Hi : init ladder_config = Ok ladder_manager) by (vm_compute; reflexivity).
  assert (Hl : targets (run ladder_manager ladder_ops) !! "BTCUSDT" = Some ladder_info)
    by (vm_compute; reflexivity).
  destruct (reported_levels_counted ladder_config ladder_manager ladder_ops 2 "BTCUSDT"
              (Q2Qc 106) ladder_info Hi Hl) as (ti & Ht & _ & Hs & _).
  exists ti. split; [exact Hi |]. split; [exact Hl |]. split; [exact Ht | exact Hs].
Defined.

Lemma nonneg_sum_zero (l : list Qc) :
  Forall (fun v => 0 <= v) l -> py_sum l = 0 -> Forall (fun v => v = 0) l.
Proof.
  induction 1 as [| x l Hx Hl IH]; intros Hs; [constructor |].
  change (py_sum (x :: l)) with (x + py_sum l) in Hs.
  pose proof (py_sum_nonneg l Hl) as Hl0.
  assert (Hx0 : x = 0).
  { apply Qcle_antisym; [| exact Hx].
    rewrite <- Hs. apply le_plus_nonneg. exact Hl0. }
  constructor; [exact Hx0 |]. apply IH. rewrite Hx0 in Hs.
  rewrite <- Hs. ring.
Qed.

(** X28.  A completed ladder stays completed.  On a reachable manager,
    once an update of a tracked symbol has returned [completed = true],
    the next update of that symbol, at any price, returns
    [completed = true] and the same [remaining_qty] again; it may still
    report levels, but every quantity it reports is 0.  The tracker is
    not removed by completing. *)
Theorem completed_ladder_stays_completed (c : config) (m0 : t) (ops : list op)
    (now now' : Z) (symbol : string) (current current' : Qc) (ti0 : tp_info) :
  init c = Ok m0 ->
  targets (run m0 ops) !! symbol = Some ti0 ->
  r_completed (update_take_profit (run m0 ops) now symbol current).1 = true ->
  let self1 := (update_take_profit (run m0 ops) now symbol current).2 in
  let r := (update_take_profit self1 now' symbol current').1 in
  r_completed r = true
  /\ r_remaining_qty r
     = r_remaining_qty (update_take_profit (run m0 ops) now symbol current).1
  /\ Forall (fun tl => tl_qty tl = 0) (r_triggered_levels r)
  /\ is_Some (targets (update_take_profit self1 now' symbol current').2 !! symbol).
Proof.
  intros Hinit Hl Hdone. cbv zeta.
  pose proof (ok_targets_tracked _ (reachable_ok c m0 ops Hinit) _ _ Hl) as Hok0.
  destruct (update_progress (run m0 ops) now symbol current ti0 Hl Hok0)
    as (ti & Hself & Hok & _ & _ & Hrem1 & _ & Hcompl & _).
  rewrite Hcompl in Hdone. rewrite Hrem1.
  assert (Hfin : (length (levels ti) <= next_index ti)%nat \/ remaining_qty ti <= 0).
  { apply orb_prop in Hdone as [H | H]; apply bool_decide_eq_true in H; auto. }
  destruct (info_ok_completed ti Hok Hfin) as [Hrem0 _].
  rewrite Hself.
  set (self1 := set_targets (run m0 ops) (<[symbol := ti]> (targets (run m0 ops)))).
  assert (Hl1 : targets self1 !! symbol = Some ti) by apply lookup_insert_eq.
  destruct (update_progress self1 now' symbol current' ti Hl1 Hok)
    as (ti2 & Hself2 & Hok2 & Hp2 & _ & Hrem2 & _ & Hcompl2 & _).
  assert (Hzero : remaining_qty ti2 = 0).
  { apply Qcle_antisym; [| exact (remaining_nonneg _ Hok2)].
    rewrite <- Hrem0. exact (progress_remaining _ _ _ Hp2). }
  rewrite Hcompl2, Hrem2, Hzero.
  split; [rewrite (bool_decide_eq_true_2 (0 <= 0)) by apply Qcle_refl; apply orb_true_r |].
  split; [symmetry; exact Hrem0 |].
  split.
  - pose proof (lp_filled _ _ _ Hp2) as Hsum. rewrite Hrem0, Hzero in Hsum.
    replace (0 - 0) with 0 in Hsum by ring.
    pose proof (nonneg_sum_zero _ (proj2 (Forall_fmap _ _ _) (lp_nonneg _ _ _ Hp2)) Hsum)
      as Hall.
    apply Forall_fmap in Hall. exact Hall.
  - rewrite Hself2. cbn [targets set_targets]. rewrite lookup_insert_eq. eauto.
Qed.

Lemma completed_ladder_stays_completed_witness :
  init ladder_config = Ok ladder_manager
  /\ is_Some (targets (run ladder_manager all_in_first) !! "BTCUSDT")
  /\ r_completed (update_take_profit (run ladder_manager all_in_first) 1 "BTCUSDT"
                    (Q2Qc 106)).1 = true
  /\ r_completed
       (update_take_profit
          (update_take_profit (run ladder_manager all_in_first) 1 "BTCUSDT"
             (Q2Qc 106)).2 2 "BTCUSDT" (Q2Qc 106)).1 = true
  /\ length (r_triggered_levels
       (update_take_profit
          (update_take_profit (run ladder_manager all_in_first) 1 "BTCUSDT"
             (Q2Qc 106)).2 2 "BTCUSDT" (Q2Qc 106)).1) = 1%nat.
Proof.
  assert (Hi : init ladder_config = Ok ladder_manager) by (vm_compute; reflexivity).
  destruct (targets (run ladder_manager all_in_first) !! "BTCUSDT") as [ti0 |] eqn:Hl;
    [| vm_compute in Hl; discriminate].
  assert (Hd : r_completed (update_take_profit (run ladder_manager all_in_first) 1
                              "BTCUSDT" (Q2Qc 106)).1 = true)
    by (vm_compute; reflexivity).
  split; [exact Hi |]. split; [eauto |]. split; [exact Hd |].
  split; [| vm_compute; reflexivity].
  exact (proj1 (completed_ladder_stays_completed ladder_config ladder_manager all_in_first
                  1 2 "BTCUSDT" (Q2Qc 106) (Q2Qc 106) ti0 Hi Hl Hd)).
Defined.

(** X29.  Levels trigger strictly in ladder order and none is skipped.
    On a reachable manager the levels an update reports are the
    consecutive pending levels from the cursor on, each of them reached by
    the price; so when the price has not reached the level at the cursor,
    nothing triggers, whatever the later levels are. *)
Theorem levels_trigger_in_order (c : config) (m0 : t) (ops : list op) (now : Z)
    (symbol : string) (current : Qc) (ti0 : tp_info) :
  init c = Ok m0 ->
  targets (run m0 ops) !! symbol = Some ti0 ->
  let r := (update_take_profit (run m0 ops) now symbol current).1 in
  tl_price <$> r_triggered_levels r
  = price <$> take (length (r_triggered_levels r)) (drop (next_index ti0) (levels ti0))
  /\ Forall (fun tl => _is_level_hit (direction ti0) current (tl_price tl) = true)
       (r_triggered_levels r)
  /\ (forall lv, levels ti0 !! next_index ti0 = Some lv ->
        _is_level_hit (direction ti0) current (price lv) = false ->
        r_triggered r = false /\ r_triggered_levels r = []).
Proof.
  intros Hinit Hl. cbv zeta.
  pose proof (ok_targets_tracked _ (reachable_ok c m0 ops Hinit) _ _ Hl) as Hok0.
  destruct (update_progress (run m0 ops) now symbol current ti0 Hl Hok0)
    as (ti & _ & _ & Hp & Hh & _ & Htrig & _).
  rewrite Htrig.
  set (hits := r_triggered_levels (update_take_profit (run m0 ops) now symbol current).1) in *.
  pose proof (lp_order _ _ _ Hp) as Hord.
  split; [exact Hord |]. split; [exact Hh |].
  intros lv Hlv Hmiss.
  destruct hits as [| tl hits]; [split; reflexivity |].
  exfalso. rewrite (drop_S _ _ _ Hlv) in Hord. cbn in Hord.
  injection Hord as Hprice _.
  inversion Hh as [| ? ? Hhit _]. rewrite Hprice in Hhit. congruence.
Qed.

Lemma levels_trigger_in_order_witness :
  init ladder_config = Ok ladder_manager
  /\ targets (run ladder_manager ladder_ops) !! "BTCUSDT" = Some ladder_info
  /\ tl_price <$> r_triggered_levels
       (update_take_profit (run ladder_manager ladder_ops) 2 "BTCUSDT" (Q2Qc 106)).1
     = price <$> take (length (r_triggered_levels
                         (update_take_profit (run ladder_manager ladder_ops) 2 "BTCUSDT"
                            (Q2Qc 106)).1))
                   (drop (next_index ladder_info) (levels ladder_info)).
Proof.
  assert (Hi : init ladder_config = Ok ladder_manager) by (vm_compute; reflexivity).
  assert (Hl : targets (run ladder_manager ladder_ops) !! "BTCUSDT" = Some ladder_info)
    by (vm_compute; reflexivity).
  split; [exact Hi |]. split; [exact Hl |].
  exact (proj1 (levels_trigger_in_order ladder_config ladder_manager ladder_ops 2
                  "BTCUSDT" (Q2Qc 106) ladder_info Hi Hl)).
Defined.

Lemma sanitize_pos (lv : option (list Qc)) : Forall (fun p => 0 < p) (_sanitize_levels lv).
Proof.
  destruct lv as [l |]; [| constructor]. cbn.
  apply Forall_lookup. intros i x Hx.
  apply list_elem_of_lookup_2, list_elem_of_filter in Hx as [Hx _]. exact Hx.
Qed.

Lemma set_targets_same (self : t) : set_targets self (targets self) = self.
Proof. destruct self; reflexivity. Qed.

(** Every operation leaves the default levels and ratios alone. *)
Lemma apply_op_defaults (self : t) (o : op) :
  exists m, apply_op self o = set_targets self m.
Proof.
  destruct o as [now symbol pos pcts ratios | now symbol current | symbol];
    cbn [apply_op].
  - destruct (prepare_returns self pcts ratios) as (lv & rs & Hp).
    rewrite (initialize_unfold _ now symbol pos _ _ _ _ Hp). eexists. reflexivity.
  - unfold update_take_profit.
    destruct (targets self !! symbol) as [ti |].
    + destruct (ladder _ now current ti []) as [ti' hits]. eexists. reflexivity.
    + exists (targets self). symmetry. apply set_targets_same.
  - eexists. reflexivity.
Qed.

Lemma run_defaults (self : t) (ops : list op) :
  exists m, run self ops = set_targets self m.
Proof.
  unfold run. induction ops as [| o ops IH] using rev_ind.
  - exists (targets self). symmetry. apply set_targets_same.
  - rewrite foldl_snoc. destruct IH as [m ->].
    destruct (apply_op_defaults (set_targets self m) o) as [m' ->].
    exists m'. reflexivity.
Qed.

Lemma sanitize_none_positive (l : list Qc) :
  Forall (fun p => ~ 0 < p) l -> _sanitize_levels (Some l) = [].
Proof.
  unfold _sanitize_levels. induction 1 as [| x l Hx Hl IH]; [reflexivity |].
  rewrite filter_cons_False by exact Hx. exact IH.
Qed.

Lemma sanitize_literal :
  _sanitize_levels (Some [Q2Qc 0.03; Q2Qc 0.05; Q2Qc 0.08])
  = [Q2Qc 0.03; Q2Qc 0.05; Q2Qc 0.08].
Proof.
  unfold _sanitize_levels. rewrite !filter_cons_True by reflexivity. reflexivity.
Qed.

Lemma init_levels_pos (c : config) (m0 : t) :
  init c = Ok m0 -> Forall (fun p => 0 < p) (default_levels m0).
Proof.
  unfold init.
  match goal with
  | |- context [_match_length_and_normalize ?r ?n] =>
      destruct (_match_length_and_normalize r n) as [out | e]
  end; [| discriminate].
  rewrite rbind_ok. intros [= <-]. cbn [default_levels].
  pose proof (sanitize_pos
    (Some (get_or (cfg_levels c) [Q2Qc 0.03; Q2Qc 0.05; Q2Qc 0.08]))) as H.
  unfold _sanitize_levels in H.
  destruct (filter _ _); [repeat constructor | exact H].
Qed.

(** X23.  The constructor never raises, whatever the configuration: the
    manager it builds tracks nothing and has at least one default level,
    all of them positive (the levels [0.03, 0.05, 0.08] when the
    configured ones hold no positive value), and as many default ratios,
    none of them negative. *)
Theorem constructor_defaults (c : config) :
  exists m0,
    init c = Ok m0
    /\ targets m0 = ∅
    /\ default_levels m0 <> []
    /\ Forall (fun p => 0 < p) (default_levels m0)
    /\ length (default_ratios m0) = length (default_levels m0)
    /\ Forall (fun r => 0 <= r) (default_ratios m0)
    /\ (Forall (fun p => ~ 0 < p) (get_or (cfg_levels c) []) ->
        default_levels m0 = [Q2Qc 0.03; Q2Qc 0.05; Q2Qc 0.08]).
Proof.
  unfold init.
  set (raw := _sanitize_levels
                (Some (get_or (cfg_levels c) [Q2Qc 0.03; Q2Qc 0.05; Q2Qc 0.08]))).
  set (lv := match raw with [] => [Q2Qc 0.03; Q2Qc 0.05; Q2Qc 0.08] | _ :: _ => raw end).
  assert (Hne : lv <> []) by (subst lv; destruct raw; discriminate).
  assert (Hpos : Forall (fun p => 0 < p) lv).
  { subst lv. pose proof (sanitize_pos
      (Some (get_or (cfg_levels c) [Q2Qc 0.03; Q2Qc 0.05; Q2Qc 0.08]))) as H.
    fold raw in H. destruct raw; [| exact H].
    repeat constructor. }
  assert (Hdef : Forall (fun p => ~ 0 < p) (get_or (cfg_levels c) []) ->
                 lv = [Q2Qc 0.03; Q2Qc 0.05; Q2Qc 0.08]).
  { intros Hnone. subst lv raw. destruct (cfg_levels c) as [l |]; cbn [get_or] in *.
    - rewrite (sanitize_none_positive l Hnone). reflexivity.
    - rewrite sanitize_literal. reflexivity. }
  assert (Hlen : length lv <> 0%nat) by (destruct lv; [contradiction | discriminate]).
  destruct (normalize_spec (nonneg_ratios (get_or (cfg_ratios c) [])) (length lv) Hlen)
    as (out & -> & H1 & _ & _ & _ & H3).
  rewrite rbind_ok. eexists. split; [reflexivity |].
  cbn [targets default_levels default_ratios].
  split; [reflexivity |]. split; [exact Hne |]. split; [exact Hpos |].
  split; [exact H1 |]. split; [apply H3, nonneg_ratios_nonneg |].
  exact Hdef.
Qed.

Lemma constructor_defaults_witness :
  exists m0,
    init {| cfg_levels := Some [Q2Qc (-0.05); 0]; cfg_ratios := None |} = Ok m0
    /\ default_levels m0 = [Q2Qc 0.03; Q2Qc 0.05; Q2Qc 0.08].
Proof.
  destruct (constructor_defaults {| cfg_levels := Some [Q2Qc (-0.05); 0];
                                    cfg_ratios := None |})
    as (m0 & Hm & _ & _ & _ & _ & _ & Hdef).
  exists m0. split; [exact Hm |]. apply Hdef.
  repeat constructor; vm_compute; discriminate.
Defined.

Lemma prepare_levels_pos (self : t) (pcts ratios : option (list Qc)) (lv rs : list Qc) :
  Forall (fun p => 0 < p) (default_levels self) ->
  _prepare_levels_and_ratios self pcts ratios = Ok (lv, rs) ->
  Forall (fun p => 0 < p) lv.
Proof.
  intros Hdef. unfold _prepare_levels_and_ratios.
  match goal with
  | |- context [_match_length_and_normalize ?r ?n] =>
      destruct (_match_length_and_normalize r n) as [out | e]
  end; [| discriminate].
  rewrite rbind_ok. intros [= <- _].
  pose proof (sanitize_pos pcts) as H.
  destruct (_sanitize_levels pcts); [exact Hdef | exact H].
Qed.

Lemma fresh_levels_ratios (qty entry : Qc) (dir : string) (lv rs : list Qc) :
  length rs = length lv ->
  ratio <$> fresh_levels qty entry dir lv rs = rs.
Proof.
  intros Hlen. unfold fresh_levels. rewrite fmap_imap.
  rewrite (imap_ext _ (const (fun pr : Qc * Qc => pr.2))).
  2:{ intros i [p r] _. reflexivity. }
  rewrite imap_const. apply snd_zip. lia.
Qed.

Lemma fresh_levels_prices (qty entry : Qc) (dir : string) (lv rs : list Qc) :
  Forall (fun p => 0 < p) lv ->
  Forall (fun l => 0 < pct l /\ price l = _calculate_target_price entry (pct l) dir)
    (fresh_levels qty entry dir lv rs).
Proof.
  intros Hpos. apply Forall_lookup. intros i x Hx. unfold fresh_levels in Hx.
  apply list_lookup_imap_Some in Hx as ([p r] & Hz & ->). cbn.
  split; [| reflexivity].
  apply list_elem_of_lookup_2, elem_of_zip_l in Hz.
  rewrite Forall_forall in Hpos. apply Hpos, list_elem_of_In. exact Hz.
Qed.

(** What [initialize_take_profit] builds on a manager that came from the
    constructor. *)
Lemma initialize_on_reachable (c : config) (m0 : t) (ops : list op) (now : Z)
    (symbol : string) (pos : position) (pcts ratios : option (list Qc)) :
  init c = Ok m0 ->
  exists lv rs,
    initialize_take_profit (run m0 ops) now symbol pos pcts ratios
    = Ok (fresh_info pos lv rs now,
          set_targets (run m0 ops)
            (<[symbol := fresh_info pos lv rs now]> (targets (run m0 ops))))
    /\ lv <> []
    /\ Forall (fun p => 0 < p) lv
    /\ length rs = length lv
    /\ py_sum rs = 1
    /\ Forall (fun r => 0 <= r) rs.
Proof.
  intros Hinit.
  pose proof (init_levels_pos c m0 Hinit) as Hpos.
  pose proof (reachable_ok c m0 ops Hinit) as Hok.
  destruct (prepare_ok (run m0 ops) pcts ratios (ok_default_levels _ Hok)
              (ok_default_ratios _ Hok)) as (lv & rs & Hp & Hne & Hlen & Hsum & Hnn).
  exists lv, rs. split; [exact (initialize_unfold _ now symbol pos _ _ _ _ Hp) |].
  split; [exact Hne |]. split; [| auto].
  apply (prepare_levels_pos (run m0 ops) pcts ratios lv rs); [| exact Hp].
  destruct (run_defaults m0 ops) as [mm ->]. exact Hpos.
Qed.

(** X24.  On a manager that came from the constructor,
    [initialize_take_profit] always returns and stores a whole ladder: at
    least one level, a positive total quantity (the position's own when
    that is positive), the whole quantity remaining, and on every level a
    ratio that is not negative, the target quantity [total_qty * ratio]
    and nothing triggered. *)
Theorem fresh_ladder_is_whole (c : config) (m0 : t) (ops : list op) (now : Z)
    (symbol : string) (pos : position) (pcts ratios : option (list Qc)) :
  init c = Ok m0 ->
  exists tp self',
    initialize_take_profit (run m0 ops) now symbol pos pcts ratios = Ok (tp, self')
    /\ get_take_profit self' symbol = Some tp
    /\ levels tp <> []
    /\ 0 < total_qty tp
    /\ (forall q, pos_qty pos = Some q -> 0 < q -> total_qty tp = q)
    /\ remaining_qty tp = total_qty tp
    /\ Forall (fun l => 0 <= ratio l /\ target_qty l = total_qty tp * ratio l
                        /\ triggered l = false) (levels tp).
Proof.
  intros Hinit.
  destruct (initialize_on_reachable c m0 ops now symbol pos pcts ratios Hinit)
    as (lv & rs & -> & Hne & _ & Hlen & Hsum & Hnn).
  do 2 eexists. split; [reflexivity |].
  unfold get_take_profit. cbn [targets set_targets].
  split; [apply lookup_insert_eq |].
  cbn [levels total_qty remaining_qty fresh_info].
  split.
  { intros Hnil. apply (f_equal length) in Hnil.
    rewrite length_fresh_levels in Hnil by exact Hlen.
    destruct lv; [contradiction | discriminate]. }
  split; [apply position_qty_pos |].
  split.
  { intros q Hq Hpos. pose proof (Qc_pos_nonzero _ Hpos) as Hq0.
    assert (Hv : get_or (py_or (py_or (pos_qty pos) (pos_quantity pos))
                           (Some (Q2Qc 0.0))) (Q2Qc 0.0) = q).
    { rewrite Hq. unfold py_or.
      destruct (decide (q = 0)); [contradiction |].
      destruct (decide (q = 0)); [contradiction | reflexivity]. }
    unfold position_qty. cbv zeta. rewrite Hv.
    destruct (decide (q <= 0)) as [Hle | _]; [| reflexivity].
    exfalso. exact (Qclt_not_le _ _ Hpos Hle). }
  split; [reflexivity |].
  pose proof (fresh_levels_ratios (position_qty pos) (pos_entry_price pos)
                (_normalize_direction pos) lv rs Hlen) as Hr.
  pose proof (fresh_levels_shape (position_qty pos) (pos_entry_price pos)
                (_normalize_direction pos) lv rs) as Hshape.
  apply Forall_lookup. intros i l Hl.
  pose proof (proj1 (Forall_lookup _ _) Hshape i l Hl) as (Ht & Htr & _).
  split; [| auto].
  assert (Hin : rs !! i = Some (ratio l)).
  { rewrite <- Hr. rewrite list_lookup_fmap, Hl. reflexivity. }
  exact (proj1 (Forall_lookup _ _) Hnn i _ Hin).
Qed.

Lemma fresh_ladder_is_whole_witness :
  init ladder_config = Ok ladder_manager
  /\ exists tp self',
       initialize_take_profit (run ladder_manager ladder_ops) 5 "ETHUSDT" ladder_position
         (Some [Q2Qc 0.02; Q2Qc 0.04]) (Some [Q2Qc 3]) = Ok (tp, self')
       /\ total_qty tp = Q2Qc 10
       /\ remaining_qty tp = total_qty tp.
Proof.
  assert (Hi : init ladder_config = Ok ladder_manager) by (vm_compute; reflexivity).
  split; [exact Hi |].
  destruct (fresh_ladder_is_whole ladder_config ladder_manager ladder_ops 5 "ETHUSDT"
              ladder_position (Some [Q2Qc 0.02; Q2Qc 0.04]) (Some [Q2Qc 3]) Hi)
    as (tp & self' & Hinit & _ & _ & _ & Hq & Hrem & _).
  exists tp, self'. split; [exact Hinit |]. split; [| exact Hrem].
  apply Hq; reflexivity.
Defined.

(** X25.  Take-profit targets lie on the profit side of the entry.  On a
    manager that came from the constructor, the ladder
    [initialize_take_profit] builds has direction ['buy'] or ['sell'],
    every level has a positive percentage and the target price
    [entry_price * (1 + pct)] for a buy, [entry_price * (1 - pct)] for a
    sell, and with a positive entry price no target price of a buy is
    below the entry and no target price of a sell is above it. *)
Theorem targets_on_profit_side (c : config) (m0 : t) (ops : list op) (now : Z)
    (symbol : string) (pos : position) (pcts ratios : option (list Qc)) :
  init c = Ok m0 ->
  exists tp self',
    initialize_take_profit (run m0 ops) now symbol pos pcts ratios = Ok (tp, self')
    /\ direction tp = _normalize_direction pos
    /\ (direction tp = "buy" \/ direction tp = "sell")
    /\ entry_price tp = pos_entry_price pos
    /\ Forall (fun l =>
         0 < pct l
         /\ (direction tp = "buy" -> price l = entry_price tp * (1 + pct l))
         /\ (direction tp = "sell" -> price l = entry_price tp * (1 - pct l))
         /\ (0 < entry_price tp -> direction tp = "buy" -> entry_price tp <= price l)
         /\ (0 < entry_price tp -> direction tp = "sell" -> price l <= entry_price tp))
       (levels tp).
Proof.
  intros Hinit.
  destruct (initialize_on_reachable c m0 ops now symbol pos pcts ratios Hinit)
    as (lv & rs & -> & _ & Hpos & _).
  do 2 eexists. split; [reflexivity |].
  cbn [direction entry_price levels fresh_info].
  split; [reflexivity |].
  split; [unfold _normalize_direction; destruct (_ || _); auto |].
  split; [reflexivity |].
  pose proof (fresh_levels_prices (position_qty pos) (pos_entry_price pos)
                (_normalize_direction pos) lv rs Hpos) as Hp.
  revert Hp. apply Forall_impl. intros l [Hpct Hprice].
  set (e := pos_entry_price pos) in *.
  assert (Hup : 0 < e -> e <= e * (1 + pct l)).
  { intros He. apply Qclt_le_weak. apply (proj2 (Qclt_minus_iff _ _)).
    replace (e * (1 + pct l) + - e) with (pct l * e) by ring.
    replace 0 with (0 * e) by ring.
    apply Qcmult_lt_compat_r; assumption. }
  assert (Hdown : 0 < e -> e * (1 - pct l) <= e).
  { intros He. apply Qclt_le_weak. apply (proj2 (Qclt_minus_iff _ _)).
    replace (e + - (e * (1 - pct l))) with (pct l * e) by ring.
    replace 0 with (0 * e) by ring.
    apply Qcmult_lt_compat_r; assumption. }
  unfold _calculate_target_price in Hprice.
  split; [exact Hpct |].
  destruct (decide (_normalize_direction pos = "buy")) as [Hb | Hb].
  - rewrite Hprice. repeat split; auto; intros; try (rewrite Hb in *; discriminate).
  - rewrite Hprice. repeat split; auto; intros; try contradiction.
Qed.

Lemma targets_on_profit_side_witness :
  init ladder_config = Ok ladder_manager
  /\ exists tp self',
       initialize_take_profit (run ladder_manager ladder_ops) 5 "ETHUSDT" ladder_position
         None None = Ok (tp, self')
       /\ direction tp = "buy"
       /\ Forall (fun l => entry_price tp <= price l) (levels tp).
Proof.
  assert (Hi : init ladder_config = Ok ladder_manager) by (vm_compute; reflexivity).
  split; [exact Hi |].
  destruct (targets_on_profit_side ladder_config ladder_manager ladder_ops 5 "ETHUSDT"
              ladder_position None None Hi) as (tp & self' & Hinit & Hd & _ & He & Hall).
  assert (Hbuy : _normalize_direction ladder_position = "buy") by (vm_compute; reflexivity).
  rewrite Hbuy in Hd.
  exists tp, self'. split; [exact Hinit |]. split; [exact Hd |].
  revert Hall. apply Forall_impl. intros l (_ & _ & _ & Hup & _).
  apply Hup; [rewrite He; reflexivity | exact Hd].
Defined.

(** X30.  The calls of the take-profit tracker keep to their own symbol.
    [update_take_profit], [remove_take_profit] and a returning
    [initialize_take_profit] leave every other symbol's ladder as it was;
    a removed symbol reads as untracked; removing an untracked symbol
    changes nothing, so initializing a new symbol and removing it gives
    the manager back as it was. *)
Theorem take_profit_lifecycle (self : t) (now : Z) (symbol : string) (current : Qc)
    (pos : position) (pcts ratios : option (list Qc)) :
  (forall other, other <> symbol ->
     get_take_profit (update_take_profit self now symbol current).2 other
     = get_take_profit self other
     /\ get_take_profit (remove_take_profit self symbol) other
        = get_take_profit self other)
  /\ get_take_profit (remove_take_profit self symbol) symbol = None
  /\ (get_take_profit self symbol = None -> remove_take_profit self symbol = self)
  /\ exists tp self',
       initialize_take_profit self now symbol pos pcts ratios = Ok (tp, self')
       /\ get_take_profit self' symbol = Some tp
       /\ (forall other, other <> symbol ->
             get_take_profit self' other = get_take_profit self other)
       /\ (get_take_profit self symbol = None -> remove_take_profit self' symbol = self).
Proof.
  unfold get_take_profit, remove_take_profit.
  split.
  { intros other Hne. split; [| cbn; apply lookup_delete_ne; congruence].
    unfold update_take_profit. destruct (targets self !! symbol) as [ti |]; [| reflexivity].
    destruct (ladder _ now current ti []) as [ti' hits].
    cbn [snd targets set_targets]. apply lookup_insert_ne. congruence. }
  split; [cbn; apply lookup_delete_eq |].
  split.
  { intros Hl. rewrite delete_id by exact Hl. apply set_targets_same. }
  destruct (prepare_returns self pcts ratios) as (lv & rs & Hp).
  rewrite (initialize_unfold _ now symbol pos _ _ _ _ Hp).
  do 2 eexists. split; [reflexivity |]. cbn [targets set_targets].
  split; [apply lookup_insert_eq |].
  split; [intros other Hne; apply lookup_insert_ne; congruence |].
  intros Hl. rewrite delete_insert_id by exact Hl. destruct self; reflexivity.
Qed.

Lemma take_profit_lifecycle_witness :
  get_take_profit ladder_manager "BTCUSDT" = None
  /\ exists tp self',
       initialize_take_profit ladder_manager 0 "BTCUSDT" ladder_position None None
       = Ok (tp, self')
       /\ remove_take_profit self' "BTCUSDT" = ladder_manager.
Proof.
  assert (Hl : get_take_profit ladder_manager "BTCUSDT" = None) by (vm_compute; reflexivity).
  split; [exact Hl |].
  destruct (take_profit_lifecycle ladder_manager 0 "BTCUSDT" (Q2Qc 106) ladder_position
              None None) as (_ & _ & _ & tp & self' & Hinit & _ & _ & Hback).
  exists tp, self'. split; [exact Hinit | exact (Hback Hl)].
Defined.

End TakeProfitFacts.

(** * The take-profit tracker on binary64 floats *)

Module TakeProfitFloatProps.
Import PrimFloat.
Import TakeProfitFloat.
#[local] Set Warnings "-inexact-float".
Local Open Scope float_scope.































End TakeProfitFloatProps.
